(** * issue-backup: the paginated, rate-limit-aware fetch engine

    A shallow embedding of [main.go] of mewspring/issue-backup: the backoff
    primitive [waitForRateLimitReset], the two page walkers [getIssues] and
    [getIssueComments], the orchestrator [backupIssues], and [main] from the
    point where the command line is parsed.

    The program talks to three things it does not own: the GitHub service
    (through go-github), the wall clock and the standard streams.  They are
    modelled as an explicit state that every operation threads; what the
    program does to them is recorded, in order, in a trace of events. *)

From Stdlib Require Import ZArith List String Bool Lia.
Import ListNotations.
Open Scope Z_scope.

(** ** Go's machine integers and the [time] package *)

Module Go.

(** [int] on the 64-bit targets the tool is built for: two's complement,
    wrapping on overflow. *)
Definition minInt : Z := - 2 ^ 63.
Definition maxInt : Z := 2 ^ 63 - 1.

Definition int_wrap (x : Z) : Z := (x + 2 ^ 63) mod 2 ^ 64 - 2 ^ 63.

(** [page++] *)
Definition int_incr (x : Z) : Z := int_wrap (x + 1).

(** A [time.Time] as a count of nanoseconds on the wall clock and a
    [time.Duration] as the int64 count of nanoseconds it is. *)
Definition Time := Z.
Definition Duration := Z.

Definition minDuration : Duration := - 2 ^ 63.
Definition maxDuration : Duration := 2 ^ 63 - 1.

(** [t.Sub(u)]: the difference, or the largest (smallest) duration when the
    difference does not fit one. *)
Definition time_Sub (t u : Time) : Duration :=
  if maxDuration <? t - u then maxDuration
  else if t - u <? minDuration then minDuration
  else t - u.

(** How long [time.Sleep d] suspends the caller: a negative or zero
    duration returns at once. *)
Definition suspension (d : Duration) : Duration := Z.max 0 d.

End Go.
Import Go.

(** ** Data model (go-github) *)

(** [github.Issue]: the two attributes the program reads are pointer fields;
    everything else travels as payload. *)
Record Issue := mkIssue {
  Number : option Z;
  Comments : option Z;
  IssuePayload : string
}.

Definition GetNumber (i : Issue) : Z :=
  match Number i with Some n => n | None => 0 end.

Definition GetComments (i : Issue) : Z :=
  match Comments i with Some n => n | None => 0 end.

(** [github.IssueComment], opaque to the program. *)
Record IssueComment := mkComment {
  ID : option Z;
  CommentPayload : string
}.

(** [github.ListOptions]; the zero [Page] is left out of the query and the
    service then serves its first page. *)
Record ListOptions := mkListOptions {
  Page : Z;
  PerPage : Z
}.

(** The part of [github.Response] the program reads. *)
Record Response := mkResponse {
  NextPage : Z
}.

(** [github.Rate] *)
Record Rate := mkRate {
  Limit : Z;
  Remaining : Z;
  Reset : Time
}.

(** The dynamic types an [error] value can have here.  A nil [error] is
    [None] of [option error]. *)
Inductive error : Type :=
| RateLimitError (rate : Rate) (Message : string)
| AbuseRateLimitError (Message : string) (RetryAfter : option Duration)
| ErrorResponse (StatusCode : Z) (Message : string)
| errorString (s : string)
| withStack (cause : error).

(** [errors.WithStack] of github.com/pkg/errors, on a non-nil error. *)
Definition errors_WithStack (err : error) : error := withStack err.

(** What one listing call hands back: [(records, resp, err)]. *)
Definition Reply (T : Type) : Type := (list T * Response * option error)%type.

Definition records {T} (r : Reply T) : list T := fst (fst r).
Definition resp {T} (r : Reply T) : Response := snd (fst r).
Definition err_of {T} (r : Reply T) : option error := snd r.

(** [Client]: the context and the go-github client, which is authenticated
    exactly when a token was given. *)
Record Client := mkClient {
  accessToken : option string
}.

Definition newClient (token : string) : Client :=
  if (0 <? Z.of_nat (String.length token)) then mkClient (Some token)
  else mkClient None.

(** ** Diagnostics and output *)

(** The lines handed to the [dbg] and [warn] loggers, by format string. *)
Inductive LogLine : Type :=
| DbgIssue (number : Z)
    (* "issue #%d" *)
| DbgComments (count number : Z)
    (* "%d comments of issue #%d" *)
| DbgRateLimit (delta : Duration)
    (* "rate limit hit; sleeping for %v before retrying" *)
| WarnIssues (ownerName repoName : string) (page : Z) (err : error)
    (* "unable to get issues of %s:%s (page %d); %v" *)
| WarnComments (ownerName repoName : string) (issueNumber page : Z) (err : error).
    (* "unable to get comments of %s:%s for issue #%d (page %d); %v" *)

(** The values given to [jsonutil.Write]. *)
Inductive JSONValue : Type :=
| JIssue (issue : Issue)
| JComments (comments : list IssueComment).

(** Everything the program does to the outside, in the order it does it. *)
Inductive Event : Type :=
| EvListByRepo (ownerName repoName : string) (opt : ListOptions)
               (r : Reply Issue)
| EvListComments (ownerName repoName : string) (issueNumber : Z)
                 (opt : ListOptions) (r : Reply IssueComment)
| EvSleep (d : Duration)
| EvDbg (l : LogLine)
| EvWarn (l : LogLine)
| EvWrite (v : JSONValue) (res : option error)
| EvPrintln.

(** ** The outside world *)

(** The service behind [c.client.Issues] and the writer behind [os.Stdout],
    as transitions of a state the program cannot see. *)
Class Service (E : Type) : Type := {
  Issues_ListByRepo :
    Client -> string -> string -> ListOptions -> Time -> E -> Reply Issue * E;
  Issues_ListComments :
    Client -> string -> string -> Z -> ListOptions -> Time -> E ->
    Reply IssueComment * E;
  Stdout_Write : JSONValue -> E -> option error * E
}.

Record State (E : Type) : Type := mkState {
  world : E;
  now : Time;
  trace : list Event
}.
Arguments mkState {E}.
Arguments world {E}.
Arguments now {E}.
Arguments trace {E}.

Definition emit {E} (ev : Event) (st : State E) : State E :=
  mkState (world st) (now st) (trace st ++ [ev]).

(** ** The monad of the program: state, and [None] when the fuel of a loop
    runs out *)

Definition M (E A : Type) : Type := State E -> option (A * State E).

Definition ret {E A} (a : A) : M E A := fun st => Some (a, st).

Definition bind {E A B} (m : M E A) (k : A -> M E B) : M E B :=
  fun st => match m st with
            | Some (a, st') => k a st'
            | None => None
            end.

Definition out_of_fuel {E A} : M E A := fun _ => None.

Declare Scope prog_scope.
Delimit Scope prog_scope with prog.
Notation "x <- m ;; k" := (bind m (fun x => k))
  (at level 61, m at next level, right associativity) : prog_scope.
Notation "m ;; k" := (bind m (fun _ => k))
  (at level 61, right associativity) : prog_scope.
Open Scope prog_scope.

Section Program.

Context {E : Type} {svc : Service E}.

(** *** Primitive operations *)

Definition dbg_Printf (l : LogLine) : M E unit :=
  fun st => Some (tt, emit (EvDbg l) st).

Definition warn_Printf (l : LogLine) : M E unit :=
  fun st => Some (tt, emit (EvWarn l) st).

(** [time.Until(t)] is [t.Sub(time.Now())]. *)
Definition time_Until (t : Time) : M E Duration :=
  fun st => Some (time_Sub t (now st), st).

Definition time_Sleep (d : Duration) : M E unit :=
  fun st => Some (tt, mkState (world st) (now st + suspension d)
                              (trace st ++ [EvSleep d])).

(** One listing call: the service answers, and the request and its answer
    enter the trace. *)
Definition call {T} (serve : ListOptions -> Time -> E -> Reply T * E)
           (ev : ListOptions -> Reply T -> Event)
           (opt : ListOptions) : M E (Reply T) :=
  fun st =>
    let (r, e') := serve opt (now st) (world st) in
    Some (r, mkState e' (now st) (trace st ++ [ev opt r])).

(** [c.client.Issues.ListByRepo(c.ctx, ownerName, repoName, opt)] *)
Definition ListByRepo (c : Client) (ownerName repoName : string)
  : ListOptions -> M E (Reply Issue) :=
  call (Issues_ListByRepo c ownerName repoName)
       (EvListByRepo ownerName repoName).

(** [c.client.Issues.ListComments(c.ctx, ownerName, repoName, issueNumber, opt)] *)
Definition ListComments (c : Client) (ownerName repoName : string)
           (issueNumber : Z) : ListOptions -> M E (Reply IssueComment) :=
  call (Issues_ListComments c ownerName repoName issueNumber)
       (EvListComments ownerName repoName issueNumber).

Definition jsonutil_Write (v : JSONValue) : M E (option error) :=
  fun st =>
    let (res, e') := Stdout_Write v (world st) in
    Some (res, mkState e' (now st) (trace st ++ [EvWrite v res])).

Definition fmt_Println : M E unit :=
  fun st => Some (tt, emit EvPrintln st).

(** *** waitForRateLimitReset *)

(** The type assertion of [err] to a pointer to [github.RateLimitError]; it
    fails on a nil error as on every other dynamic type. *)
Definition asRateLimitError (err : option error) : option Rate :=
  match err with
  | Some (RateLimitError rate _) => Some rate
  | _ => None
  end.

Definition waitForRateLimitReset (err : option error) : M E bool :=
  match asRateLimitError err with
  | None => ret false
  | Some rate =>
      delta <- time_Until (Reset rate) ;;
      dbg_Printf (DbgRateLimit delta) ;;
      time_Sleep delta ;;
      ret true
  end.

(** *** getIssues *)

(** The inner loop, [for waitForRateLimitReset(err) { issues, resp, err =
    ListByRepo(...) }]. *)
Fixpoint getIssues_retry (fuel : nat) (c : Client)
         (ownerName repoName : string) (opt : ListOptions)
         (r : Reply Issue) : M E (Reply Issue) :=
  match fuel with
  | O => out_of_fuel
  | S fuel' =>
      again <- waitForRateLimitReset (err_of r) ;;
      if (again : bool) then
        r' <- ListByRepo c ownerName repoName opt ;;
        getIssues_retry fuel' c ownerName repoName opt r'
      else ret r
  end.

(** The page loop, on [opt], [allIssues] and [page]. *)
Fixpoint getIssues_loop (fuel : nat) (c : Client)
         (ownerName repoName : string) (opt : ListOptions)
         (allIssues : list Issue) (page : Z) : M E (list Issue) :=
  match fuel with
  | O => out_of_fuel
  | S fuel' =>
      let next (r : Reply Issue) : M E (list Issue) :=
        let allIssues := allIssues ++ records r in
        if NextPage (resp r) =? 0 then ret allIssues
        else getIssues_loop fuel' c ownerName repoName
               (mkListOptions (NextPage (resp r)) (PerPage opt))
               allIssues (int_incr page) in
      r <- ListByRepo c ownerName repoName opt ;;
      match err_of r with
      | Some _ =>
          r <- getIssues_retry fuel' c ownerName repoName opt r ;;
          match err_of r with
          | Some err =>
              warn_Printf (WarnIssues ownerName repoName page err) ;;
              ret allIssues
          | None => next r
          end
      | None => next r
      end
  end.

Definition getIssues (fuel : nat) (c : Client) (ownerName repoName : string)
  : M E (list Issue * option error) :=
  let opt := mkListOptions 0 100 in
  allIssues <- getIssues_loop fuel c ownerName repoName opt [] 1 ;;
  ret (allIssues, None).

(** *** getIssueComments *)

Fixpoint getIssueComments_retry (fuel : nat) (c : Client)
         (ownerName repoName : string) (issueNumber : Z)
         (opt : ListOptions) (r : Reply IssueComment)
  : M E (Reply IssueComment) :=
  match fuel with
  | O => out_of_fuel
  | S fuel' =>
      again <- waitForRateLimitReset (err_of r) ;;
      if (again : bool) then
        r' <- ListComments c ownerName repoName issueNumber opt ;;
        getIssueComments_retry fuel' c ownerName repoName issueNumber opt r'
      else ret r
  end.

Fixpoint getIssueComments_loop (fuel : nat) (c : Client)
         (ownerName repoName : string) (issueNumber : Z)
         (opt : ListOptions) (allComments : list IssueComment) (page : Z)
  : M E (list IssueComment) :=
  match fuel with
  | O => out_of_fuel
  | S fuel' =>
      let next (r : Reply IssueComment) : M E (list IssueComment) :=
        let allComments := allComments ++ records r in
        if NextPage (resp r) =? 0 then ret allComments
        else getIssueComments_loop fuel' c ownerName repoName issueNumber
               (mkListOptions (NextPage (resp r)) (PerPage opt))
               allComments (int_incr page) in
      r <- ListComments c ownerName repoName issueNumber opt ;;
      match err_of r with
      | Some _ =>
          r <- getIssueComments_retry fuel' c ownerName repoName issueNumber opt r ;;
          match err_of r with
          | Some err =>
              warn_Printf
                (WarnComments ownerName repoName issueNumber page err) ;;
              ret allComments
          | None => next r
          end
      | None => next r
      end
  end.

Definition getIssueComments (fuel : nat) (c : Client)
           (ownerName repoName : string) (issueNumber : Z)
  : M E (list IssueComment * option error) :=
  let opt := mkListOptions 0 100 in
  allComments <-
    getIssueComments_loop fuel c ownerName repoName issueNumber opt [] 1 ;;
  ret (allComments, None).

(** *** backupIssues *)

(** The body of [for _, issue := range issues], once per issue in order;
    a [return] inside it ends the loop with that error. *)
Fixpoint backupIssues_range (fuel : nat) (c : Client)
         (ownerName repoName : string) (issues : list Issue)
  : M E (option error) :=
  match issues with
  | [] => ret None
  | issue :: rest =>
      dbg_Printf (DbgIssue (GetNumber issue)) ;;
      werr <- jsonutil_Write (JIssue issue) ;;
      match werr with
      | Some err => ret (Some (errors_WithStack err))
      | None =>
          fmt_Println ;;
          if GetComments issue >? 0 then
            dbg_Printf (DbgComments (GetComments issue) (GetNumber issue)) ;;
            fetched <- getIssueComments fuel c ownerName repoName
                                        (GetNumber issue) ;;
            match snd fetched with
            | Some err => ret (Some (errors_WithStack err))
            | None =>
                werr <- jsonutil_Write (JComments (fst fetched)) ;;
                match werr with
                | Some err => ret (Some (errors_WithStack err))
                | None =>
                    fmt_Println ;;
                    backupIssues_range fuel c ownerName repoName rest
                end
            end
          else backupIssues_range fuel c ownerName repoName rest
      end
  end.

Definition backupIssues (fuel : nat) (ownerName repoName token : string)
  : M E (option error) :=
  let c := newClient token in
  fetched <- getIssues fuel c ownerName repoName ;;
  match snd fetched with
  | Some err => ret (Some (errors_WithStack err))
  | None => backupIssues_range fuel c ownerName repoName (fst fetched)
  end.

(** *** The paginated fetcher, once for both resources

    The page walk of the two functions above with the listing call and
    the warning line as parameters. *)
Section Paginate.

Context {T : Type}.
Variable serve : ListOptions -> Time -> E -> Reply T * E.
Variable ev : ListOptions -> Reply T -> Event.
Variable warning : Z -> error -> LogLine.

Fixpoint paginate_retry (fuel : nat) (opt : ListOptions) (r : Reply T)
  : M E (Reply T) :=
  match fuel with
  | O => out_of_fuel
  | S fuel' =>
      again <- waitForRateLimitReset (err_of r) ;;
      if (again : bool) then
        r' <- call serve ev opt ;;
        paginate_retry fuel' opt r'
      else ret r
  end.

Fixpoint paginate_loop (fuel : nat) (opt : ListOptions) (all : list T)
         (page : Z) : M E (list T) :=
  match fuel with
  | O => out_of_fuel
  | S fuel' =>
      let next (r : Reply T) : M E (list T) :=
        let all := all ++ records r in
        if NextPage (resp r) =? 0 then ret all
        else paginate_loop fuel'
               (mkListOptions (NextPage (resp r)) (PerPage opt))
               all (int_incr page) in
      r <- call serve ev opt ;;
      match err_of r with
      | Some _ =>
          r <- paginate_retry fuel' opt r ;;
          match err_of r with
          | Some err => warn_Printf (warning page err) ;; ret all
          | None => next r
          end
      | None => next r
      end
  end.

(** What the page loop does with a page it received: stop on the last one,
    otherwise go round again from the page it names. *)
Definition paginate_next (fuel : nat) (opt : ListOptions) (all : list T)
           (page : Z) (r : Reply T) : M E (list T) :=
  if NextPage (resp r) =? 0 then ret (all ++ records r)
  else paginate_loop fuel (mkListOptions (NextPage (resp r)) (PerPage opt))
                     (all ++ records r) (int_incr page).

End Paginate.

End Program.

(** ** Reading a trace *)

(** What reached the data stream: the values written by [jsonutil.Write]
    and the empty lines of [fmt.Println]. *)
Inductive Output : Type :=
| OutJSON (v : JSONValue)
| OutNewline.

Definition stdout_of (ev : Event) : list Output :=
  match ev with
  | EvWrite v None => [OutJSON v]
  | EvPrintln => [OutNewline]
  | _ => []
  end.

Definition stdout (tr : list Event) : list Output := flat_map stdout_of tr.

Definition warning_of (ev : Event) : list LogLine :=
  match ev with
  | EvWarn l => [l]
  | _ => []
  end.

Definition warnings (tr : list Event) : list LogLine := flat_map warning_of tr.

Definition sleep_of (ev : Event) : list Duration :=
  match ev with
  | EvSleep d => [d]
  | _ => []
  end.

Definition sleeps (tr : list Event) : list Duration := flat_map sleep_of tr.

(** The page selectors of the listing calls, one per request sent. *)
Definition request_of (ev : Event) : list ListOptions :=
  match ev with
  | EvListByRepo _ _ opt _ => [opt]
  | EvListComments _ _ _ opt _ => [opt]
  | _ => []
  end.

Definition requests (tr : list Event) : list ListOptions :=
  flat_map request_of tr.

Definition is_listing (ev : Event) : bool :=
  match ev with
  | EvListByRepo _ _ _ _ => true
  | EvListComments _ _ _ _ _ => true
  | _ => false
  end.



Definition write_failed (ev : Event) : bool :=
  match ev with
  | EvWrite _ (Some _) => true
  | _ => false
  end.

Definition is_write (ev : Event) : bool :=
  match ev with
  | EvWrite _ _ => true
  | EvPrintln => true
  | _ => false
  end.

(** The events a page walk can cause: listing calls, and the log lines and
    sleeps around them. *)
Definition fetch_event (ev : Event) : bool :=
  match ev with
  | EvListByRepo _ _ _ _ => true
  | EvListComments _ _ _ _ _ => true
  | EvSleep _ => true
  | EvDbg (DbgRateLimit _) => true
  | EvWarn _ => true
  | _ => false
  end.

(** The records a reply delivers: those of a page, none with an error. *)
Definition delivered {T} (r : Reply T) : list T :=
  match err_of r with
  | None => records r
  | Some _ => []
  end.

(** The records the listing calls of a trace delivered, in the order they
    arrived. *)
Definition issues_of (ev : Event) : list Issue :=
  match ev with
  | EvListByRepo _ _ _ r => delivered r
  | _ => []
  end.

Definition issues_received (tr : list Event) : list Issue :=
  flat_map issues_of tr.

Definition comments_of (ev : Event) : list IssueComment :=
  match ev with
  | EvListComments _ _ _ _ r => delivered r
  | _ => []
  end.

Definition comments_received (tr : list Event) : list IssueComment :=
  flat_map comments_of tr.

(** A reply after which the fetcher goes on asking: a rate-limit error (the
    same page again) or a page that names a next one. *)
Definition continuing {T} (r : Reply T) : bool :=
  match err_of r with
  | Some (RateLimitError _ _) => true
  | Some _ => false
  | None => negb (NextPage (resp r) =? 0)
  end.

(** The request the fetcher sends after a continuing reply. *)
Definition next_request {T} (opt : ListOptions) (r : Reply T) : ListOptions :=
  match err_of r with
  | None => mkListOptions (NextPage (resp r)) (PerPage opt)
  | Some _ => opt
  end.

(** The clock when the fetcher sends that request: after the sleep a
    rate-limit error causes, and otherwise unchanged. *)
Definition next_clock {T} (t : Time) (r : Reply T) : Time :=
  match asRateLimitError (err_of r) with
  | Some rate => t + suspension (time_Sub (Reset rate) t)
  | None => t
  end.

(** ** A paginated source for tests

    The service as the tests of the specification describe it: a fixed list
    of records served in pages of the size asked for, with faults that can be
    planted on chosen pages and a data stream that can run full. *)

Inductive Endpoint : Type :=
| IssuesEndpoint
| CommentsEndpoint (issueNumber : Z).

Definition Endpoint_eqb (a b : Endpoint) : bool :=
  match a, b with
  | IssuesEndpoint, IssuesEndpoint => true
  | CommentsEndpoint n, CommentsEndpoint m => n =? m
  | _, _ => false
  end.

(** A planted fault: the next request for that page of that listing fails
    with that error, once. *)
Definition Fault : Type := (Endpoint * Z * error)%type.

Record Fake : Type := mkFake {
  fk_issues : list Issue;
  fk_comments : Z -> list IssueComment;
  fk_faults : list Fault;
  fk_writable : option nat
}.

(** The page a selector stands for: the zero value is the first page. *)
Definition pageIndex (opt : ListOptions) : Z :=
  if Page opt =? 0 then 1 else Page opt.

Definition page_records {T} (l : list T) (perPage pageNo : Z) : list T :=
  firstn (Z.to_nat perPage) (skipn (Z.to_nat ((pageNo - 1) * perPage)) l).

(** The next-page indicator: zero when no record lies beyond this page. *)
Definition next_page {T} (l : list T) (perPage pageNo : Z) : Z :=
  if pageNo * perPage <? Z.of_nat (List.length l) then pageNo + 1 else 0.

Fixpoint take_fault (ep : Endpoint) (p : Z) (fs : list Fault)
  : option (error * list Fault) :=
  match fs with
  | [] => None
  | (ep', p', e) :: rest =>
      if Endpoint_eqb ep ep' && (p =? p') then Some (e, rest)
      else match take_fault ep p rest with
           | Some (e', rest') => Some (e', (ep', p', e) :: rest')
           | None => None
           end
  end.

Definition with_faults (fk : Fake) (fs : list Fault) : Fake :=
  mkFake (fk_issues fk) (fk_comments fk) fs (fk_writable fk).

Definition fake_list {T} (l : list T) (ep : Endpoint) (opt : ListOptions)
           (fk : Fake) : Reply T * Fake :=
  let p := pageIndex opt in
  match take_fault ep p (fk_faults fk) with
  | Some (e, rest) => (([], mkResponse 0, Some e), with_faults fk rest)
  | None =>
      ((page_records l (PerPage opt) p,
        mkResponse (next_page l (PerPage opt) p), None), fk)
  end.

Definition fake_write (v : JSONValue) (fk : Fake) : option error * Fake :=
  match fk_writable fk with
  | None => (None, fk)
  | Some O => (Some (errorString "write /dev/stdout: no space left on device"), fk)
  | Some (S n) =>
      (None, mkFake (fk_issues fk) (fk_comments fk) (fk_faults fk) (Some n))
  end.

#[export] Instance fake_service : Service Fake := {
  Issues_ListByRepo _ _ _ opt _ fk :=
    fake_list (fk_issues fk) IssuesEndpoint opt fk;
  Issues_ListComments _ _ _ issueNumber opt _ fk :=
    fake_list (fk_comments fk issueNumber) (CommentsEndpoint issueNumber) opt fk;
  Stdout_Write := fake_write
}.

(** The listing of the records [sel] picks out of the source, at endpoint
    [ep]. *)
Definition fake_serve {T} (sel : Fake -> list T) (ep : Endpoint)
  : ListOptions -> Time -> Fake -> Reply T * Fake :=
  fun opt _ fk => fake_list (sel fk) ep opt fk.

(** The reply that serves page [p] of [l] in pages of 100, and the reply
    that carries a planted error. *)
Definition page_reply {T} (l : list T) (p : nat) : Reply T :=
  (page_records l 100 (Z.of_nat p),
   mkResponse (next_page l 100 (Z.of_nat p)), None).

Definition fault_reply {T} (e : error) : Reply T :=
  ([], mkResponse 0, Some e).

(** A source of the given issues and comments with nothing planted. *)
Definition source (issues : list Issue) (comments : Z -> list IssueComment)
  : Fake :=
  mkFake issues comments [] None.

Definition start {E} (e : E) (t : Time) : State E := mkState e t [].

(** The selector the fetcher sends for page [p], and the number of pages
    [n] records fill. *)
Definition selector (p : Z) : ListOptions :=
  mkListOptions (if p =? 1 then 0 else p) 100.

Definition page_count (n : nat) : nat := Nat.max 1 ((n + 99) / 100).

Definition selectors (first : nat) (count : nat) : list ListOptions :=
  map (fun p => selector (Z.of_nat p)) (seq first count).

(** The listing events of [count] pages served one after the other from
    page [first]. *)
Definition page_events {T} (ev : ListOptions -> Reply T -> Event)
           (l : list T) (first count : nat) : list Event :=
  map (fun p => ev (selector (Z.of_nat p)) (page_reply l p)) (seq first count).

(** Page [P] is the last page of [l], seen from page [p]: no record lies
    beyond it, and every page from [p] up to it has records after it. *)
Definition last_page {T} (l : list T) (p P : nat) : Prop :=
  (p <= P)%nat /\ (List.length l <= 100 * P)%nat /\
  forall q, (p <= q < P)%nat -> (100 * q < List.length l)%nat.

(** The traces the three walks of the tests leave: every page served; the
    first [k] pages served and the next one failed for good; page [j] met by
    a rate-limit error once, at time [t], and then served. *)
Definition clean_trace {T} (ev : ListOptions -> Reply T -> Event)
           (l : list T) : list Event :=
  page_events ev l 1 (page_count (List.length l)).

Definition truncated_trace {T} (ev : ListOptions -> Reply T -> Event)
           (warning : Z -> error -> LogLine) (l : list T) (k : nat)
           (e : error) : list Event :=
  page_events ev l 1 k ++
  [ev (selector (Z.of_nat (S k))) (fault_reply e);
   EvWarn (warning (int_wrap (1 + Z.of_nat k)) e)].

Definition retried_trace {T} (ev : ListOptions -> Reply T -> Event)
           (l : list T) (j : nat) (rate : Rate) (msg : string) (t : Time)
  : list Event :=
  page_events ev l 1 (j - 1) ++
  [ev (selector (Z.of_nat j)) (fault_reply (RateLimitError rate msg));
   EvDbg (DbgRateLimit (time_Sub (Reset rate) t));
   EvSleep (time_Sub (Reset rate) t)] ++
  page_events ev l j (page_count (List.length l) - j + 1).

(** A source with one fault planted: the next request for page [p] of
    listing [ep] fails with [e]. *)
Definition planted (src : Fake) (ep : Endpoint) (p : nat) (e : error) : Fake :=
  with_faults src [(ep, Z.of_nat p, e)].

(** What is left to do over the paginated source: the faults still planted
    and the pages beyond the one asked for. *)
Definition fake_measure {T} (sel : Fake -> list T) (opt : ListOptions)
           (fk : Fake) : nat :=
  (List.length (fk_faults fk) +
   Z.to_nat (Z.of_nat (List.length (sel fk)) - pageIndex opt))%nat.

(** A page that meets rate-limit errors several times over: the faults to
    plant, the replies they give, the events from the first request for the
    page to the reply [final] that is not one of them, and the clock after
    the sleeps. *)
Definition rl_error (rm : Rate * string) : error :=
  RateLimitError (fst rm) (snd rm).

Definition rl_fault (ep : Endpoint) (j : nat) (rm : Rate * string) : Fault :=
  (ep, Z.of_nat j, rl_error rm).

Fixpoint retries_trace {T} (ev : ListOptions -> Reply T -> Event)
         (opt : ListOptions) (t : Time) (rms : list (Rate * string))
         (final : Reply T) : list Event :=
  match rms with
  | [] => [ev opt final]
  | rm :: rest =>
      ev opt (fault_reply (rl_error rm)) ::
      EvDbg (DbgRateLimit (time_Sub (Reset (fst rm)) t)) ::
      EvSleep (time_Sub (Reset (fst rm)) t) ::
      retries_trace ev opt (t + suspension (time_Sub (Reset (fst rm)) t))
                    rest final
  end.

Fixpoint rl_clock (t : Time) (rms : list (Rate * string)) : Time :=
  match rms with
  | [] => t
  | rm :: rest => rl_clock (t + suspension (time_Sub (Reset (fst rm)) t)) rest
  end.

(** The events of one turn of the orchestrator over a source that serves
    everything: the issue written, and its comments fetched and written when
    it has any. *)
Definition turn_events (ownerName repoName : string)
           (comments : Z -> list IssueComment) (issue : Issue) : list Event :=
  [EvDbg (DbgIssue (GetNumber issue)); EvWrite (JIssue issue) None; EvPrintln]
  ++ (if GetComments issue >? 0 then
        EvDbg (DbgComments (GetComments issue) (GetNumber issue)) ::
        clean_trace (EvListComments ownerName repoName (GetNumber issue))
                    (comments (GetNumber issue))
        ++ [EvWrite (JComments (comments (GetNumber issue))) None; EvPrintln]
      else []).

(** Sample data. *)
Definition sample_issue (n comments : Z) : Issue :=
  mkIssue (Some n) (Some comments) "payload".

Definition sample_issues (n : nat) : list Issue :=
  map (fun k => sample_issue (Z.of_nat k) 0) (seq 1 n).

Definition sample_comments (n : nat) : list IssueComment :=
  map (fun k => mkComment (Some (Z.of_nat k)) "comment") (seq 1 n).

Definition sample_rate_limit (reset : Time) : error :=
  RateLimitError (mkRate 5000 0 reset) "API rate limit exceeded".

(** The scenario of the specification: acme/widgets with issue 1 without
    comments and issue 2 with three; the same with a data stream that takes
    one write and no more; the same with the comments listing failing. *)
Definition example_source : Fake :=
  source [sample_issue 1 0; sample_issue 2 3] (fun _ => sample_comments 3).

Definition example_full_disk : Fake :=
  mkFake [sample_issue 1 0; sample_issue 2 3] (fun _ => sample_comments 3)
         [] (Some 1%nat).

(** The same with a data stream that takes two writes and no more: the
    two issues, and not the comments of the second. *)
Definition example_small_disk : Fake :=
  mkFake [sample_issue 1 0; sample_issue 2 3] (fun _ => sample_comments 3)
         [] (Some 2%nat).

Definition example_limited : Fake :=
  planted (source (sample_issues 250) (fun _ => sample_comments 120))
          IssuesEndpoint 2 (sample_rate_limit 500).

Definition example_broken : Fake :=
  planted (source (sample_issues 250) (fun _ => sample_comments 120))
          IssuesEndpoint 3 (ErrorResponse 502 "Bad Gateway").

Definition example_run (src : Fake) : option (option error * State Fake) :=
  backupIssues 4 "acme" "widgets" "token" (start src 0).

(** ** A source behind a quota

    The paginated source behind a rate limit that depends on the clock:
    while [limit] gives a rate at the time of a request, the request is
    refused with a rate-limit error carrying that rate; otherwise the source
    serves it. *)
Record Throttled (limit : Time -> option Rate) : Type := mkThrottled {
  th_source : Fake
}.
Arguments th_source {limit}.

Definition throttled_list {T} {limit : Time -> option Rate} (l : list T)
           (ep : Endpoint) (opt : ListOptions) (t : Time)
           (th : Throttled limit) : Reply T * Throttled limit :=
  match limit t with
  | Some rate =>
      (fault_reply (RateLimitError rate "API rate limit exceeded"), th)
  | None =>
      (fst (fake_list l ep opt (th_source th)),
       mkThrottled limit (snd (fake_list l ep opt (th_source th))))
  end.

Definition throttled_write {limit : Time -> option Rate} (v : JSONValue)
           (th : Throttled limit) : option error * Throttled limit :=
  (fst (fake_write v (th_source th)),
   mkThrottled limit (snd (fake_write v (th_source th)))).

#[export] Instance throttled_service (limit : Time -> option Rate)
  : Service (Throttled limit) := {
  Issues_ListByRepo _ _ _ opt t th :=
    throttled_list (fk_issues (th_source th)) IssuesEndpoint opt t th;
  Issues_ListComments _ _ _ issueNumber opt t th :=
    throttled_list (fk_comments (th_source th) issueNumber)
                   (CommentsEndpoint issueNumber) opt t th;
  Stdout_Write := throttled_write
}.

Definition throttled_serve {T} {limit : Time -> option Rate}
           (sel : Fake -> list T) (ep : Endpoint)
  : ListOptions -> Time -> Throttled limit -> Reply T * Throttled limit :=
  fun opt t th => throttled_list (sel (th_source th)) ep opt t th.

(** The quota is restored at [reset]: requests before that time are refused
    and told so. *)
Definition limited_until (reset : Time) : Time -> option Rate :=
  fun t => if t <? reset then Some (mkRate 5000 0 reset) else None.

(** The quota is never restored: every request is refused, and told to come
    back in an hour. *)
Definition limited_forever : Time -> option Rate :=
  fun t => Some (mkRate 5000 0 (t + 3600000000000)).

(** What is left to do behind a quota restored at [reset]: the time to wait
    and what is left to do over the source. *)
Definition throttled_measure {T} (sel : Fake -> list T) (reset : Time)
           (opt : ListOptions) (t : Time)
           (th : Throttled (limited_until reset)) : nat :=
  (Z.to_nat (reset - t) + fake_measure sel opt (th_source th))%nat.

(** ** The shape of a run of the orchestrator

    What one turn of the loop of [backupIssues] adds to the trace, by the way
    the turn ends, and the error it returns with when it ends the run. *)

Section Blocks.

Context {E : Type} {svc : Service E}.
Variable fuel : nat.
Variable c : Client.
Variables ownerName repoName : string.

(** The events of a run of the comments fetcher for issue [n] that returned
    [cs]. *)
Definition CommentsFetch (n : Z) (evs : list Event) (cs : list IssueComment)
  : Prop :=
  exists rep more st2 st3,
    evs = EvListComments ownerName repoName n (mkListOptions 0 100) rep :: more /\
    Forall (fun ev => fetch_event ev = true) evs /\
    cs = comments_received evs /\
    getIssueComments fuel c ownerName repoName n st2 = Some ((cs, None), st3) /\
    trace st3 = trace st2 ++ evs.

Inductive Block (issue : Issue) : list Event -> option error -> Prop :=
| Block_issue_unwritten (err : error) :
    Block issue
          [EvDbg (DbgIssue (GetNumber issue));
           EvWrite (JIssue issue) (Some err)]
          (Some (errors_WithStack err))
| Block_plain :
    (GetComments issue >? 0) = false ->
    Block issue
          [EvDbg (DbgIssue (GetNumber issue));
           EvWrite (JIssue issue) None;
           EvPrintln]
          None
| Block_comments_unwritten (evs : list Event) (cs : list IssueComment)
                           (err : error) :
    (GetComments issue >? 0) = true ->
    CommentsFetch (GetNumber issue) evs cs ->
    Block issue
          ([EvDbg (DbgIssue (GetNumber issue));
            EvWrite (JIssue issue) None;
            EvPrintln;
            EvDbg (DbgComments (GetComments issue) (GetNumber issue))]
             ++ evs ++ [EvWrite (JComments cs) (Some err)])
          (Some (errors_WithStack err))
| Block_comments (evs : list Event) (cs : list IssueComment) :
    (GetComments issue >? 0) = true ->
    CommentsFetch (GetNumber issue) evs cs ->
    Block issue
          ([EvDbg (DbgIssue (GetNumber issue));
            EvWrite (JIssue issue) None;
            EvPrintln;
            EvDbg (DbgComments (GetComments issue) (GetNumber issue))]
             ++ evs ++ [EvWrite (JComments cs) None; EvPrintln])
          None.

(** The turns of a run over [issues]: one block per issue taken up, the
    last one alone ending with an error if any does. *)
Inductive Blocks : list Issue -> list (list Event) -> option error -> Prop :=
| Blocks_done : Blocks [] [] None
| Blocks_abort (issue : Issue) (rest : list Issue) (b : list Event)
               (err : error) :
    Block issue b (Some err) ->
    Blocks (issue :: rest) [b] (Some err)
| Blocks_next (issue : Issue) (rest : list Issue) (b : list Event)
              (bs : list (list Event)) (res : option error) :
    Block issue b None ->
    Blocks rest bs res ->
    Blocks (issue :: rest) (b :: bs) res.

End Blocks.





(** What one issue puts on the data stream when [cs] are its comments. *)
Definition emission (issue : Issue) (cs : list IssueComment) : list Output :=
  [OutJSON (JIssue issue); OutNewline] ++
  (if GetComments issue >? 0 then [OutJSON (JComments cs); OutNewline]
   else []).

(** ** main, after the command line is parsed

    [flag.Parse] belongs to the standard library: on a command line it
    refuses, and on [-h], it ends the process itself and [main] does not go
    on.  What is embedded here is [main] from the point where [flag.Parse]
    has returned: the flags with the values it left them, the environment
    variable [ISSUE_BACKUP_GITHUB_TOKEN] as [os.LookupEnv] finds it, and what
    the process does from there to its exit status. *)

Record Flags : Type := mkFlags {
  flag_owner : string;
  flag_q : bool;
  flag_repo : string;
  flag_token : string
}.

(** What the process does, in order: what [main] does itself, and around
    it what [backupIssues] does. *)
Inductive ProcEvent : Type :=
| PLog (msg : string)
    (* log.Println(msg) *)
| PUsage
    (* flag.Usage() *)
| PDbgEnvToken
    (* dbg.Printf("using OAuth token from %s environment variable", ...) *)
| PWarnNoToken
    (* warn.Printf("OAuth token not specified; use -token flag or ...") *)
| PMute
    (* dbg.SetOutput(ioutil.Discard) *)
| PCore (ev : Event)
| PFatal (err : error).
    (* log.Fatalf("%+v", err) *)

(** [len(s)] *)
Definition len (s : string) : Z := Z.of_nat (String.length s).

Section Main.

Context {E : Type} {svc : Service E}.

(** [main] from the sanity check of the flags on, to the exit status of the
    process: 1 from [os.Exit(1)] and from [log.Fatalf], 0 when it returns. *)
Definition main (fuel : nat) (flags : Flags) (envToken : option string)
           (e : E) (t : Time) : option (Z * list ProcEvent * E) :=
  if len (flag_owner flags) =? 0 then
    Some (1, [PLog "owner name not specified; see -owner flag"; PUsage], e)
  else if len (flag_repo flags) =? 0 then
    Some (1, [PLog "repository name not specified; see -repo flag"; PUsage], e)
  else
    let token := match envToken with
                 | Some envToken => envToken
                 | None => flag_token flags
                 end in
    let before :=
      (match envToken with Some _ => [PDbgEnvToken] | None => [] end)
        ++ (if len token =? 0 then [PWarnNoToken] else [])
        ++ (if flag_q flags then [PMute] else []) in
    match backupIssues fuel (flag_owner flags) (flag_repo flags) token
                       (start e t) with
    | None => None
    | Some (Some err, st') =>
        Some (1, before ++ map PCore (trace st') ++ [PFatal err], world st')
    | Some (None, st') =>
        Some (0, before ++ map PCore (trace st'), world st')
    end.

End Main.

(** The lines that reach standard error: those of the [dbg] logger only
    until it is muted, the others always. *)
Fixpoint stderr (muted : bool) (evs : list ProcEvent) : list ProcEvent :=
  match evs with
  | [] => []
  | PMute :: rest => stderr true rest
  | PDbgEnvToken :: rest =>
      if muted then stderr muted rest else PDbgEnvToken :: stderr muted rest
  | PCore (EvDbg l) :: rest =>
      if muted then stderr muted rest else PCore (EvDbg l) :: stderr muted rest
  | PCore (EvWarn l) :: rest => PCore (EvWarn l) :: stderr muted rest
  | PCore _ :: rest => stderr muted rest
  | p :: rest => p :: stderr muted rest
  end.

(** What reaches standard output. *)
Definition proc_stdout_of (p : ProcEvent) : list Output :=
  match p with
  | PCore ev => stdout_of ev
  | _ => []
  end.

Definition proc_stdout (evs : list ProcEvent) : list Output :=
  flat_map proc_stdout_of evs.


Definition is_core (p : ProcEvent) : bool :=
  match p with
  | PCore _ => true
  | _ => false
  end.

Definition is_dbg_line (p : ProcEvent) : bool :=
  match p with
  | PDbgEnvToken => true
  | PCore (EvDbg _) => true
  | _ => false
  end.

Definition is_mute (p : ProcEvent) : bool :=
  match p with
  | PMute => true
  | _ => false
  end.

Definition with_q (flags : Flags) (q : bool) : Flags :=
  mkFlags (flag_owner flags) q (flag_repo flags) (flag_token flags).

Definition with_token (flags : Flags) (token : string) : Flags :=
  mkFlags (flag_owner flags) (flag_q flags) (flag_repo flags) token.

(** ** The trace of a page walk, from the replies it received

    A page walk sees the service only through the replies to its requests.
    These functions give, from the replies in the order received, what the
    walk does with them: the events it causes, the time on the clock, the
    selectors it sends, the sleeps it takes. *)

Definition is_rate_limit {T} (r : Reply T) : bool :=
  match asRateLimitError (err_of r) with
  | Some _ => true
  | None => false
  end.

(** The replies are a whole walk: each but the last makes the fetcher go on,
    and the last one stops it. *)
Fixpoint settled {T} (rs : list (Reply T)) : bool :=
  match rs with
  | [] => false
  | r :: rest =>
      match rest with
      | [] => negb (continuing r)
      | _ :: _ => continuing r && settled rest
      end
  end.

Fixpoint fetch_trace {T} (ev : ListOptions -> Reply T -> Event)
         (warning : Z -> error -> LogLine) (opt : ListOptions) (page : Z)
         (t : Time) (rs : list (Reply T)) : list Event :=
  match rs with
  | [] => []
  | r :: rest =>
      ev opt r ::
      match asRateLimitError (err_of r) with
      | Some rate =>
          EvDbg (DbgRateLimit (time_Sub (Reset rate) t)) ::
          EvSleep (time_Sub (Reset rate) t) ::
          fetch_trace ev warning opt page
                      (t + suspension (time_Sub (Reset rate) t)) rest
      | None =>
          match err_of r with
          | Some e => [EvWarn (warning page e)]
          | None =>
              if NextPage (resp r) =? 0 then []
              else fetch_trace ev warning
                               (mkListOptions (NextPage (resp r)) (PerPage opt))
                               (int_incr page) t rest
          end
      end
  end.

(** What follows the listing event of reply [r] in [fetch_trace]. *)
Definition after_reply {T} (ev : ListOptions -> Reply T -> Event)
           (warning : Z -> error -> LogLine) (opt : ListOptions) (page : Z)
           (t : Time) (r : Reply T) (rest : list (Reply T)) : list Event :=
  match asRateLimitError (err_of r) with
  | Some rate =>
      EvDbg (DbgRateLimit (time_Sub (Reset rate) t)) ::
      EvSleep (time_Sub (Reset rate) t) ::
      fetch_trace ev warning opt page
                  (t + suspension (time_Sub (Reset rate) t)) rest
  | None =>
      match err_of r with
      | Some e => [EvWarn (warning page e)]
      | None =>
          if NextPage (resp r) =? 0 then []
          else fetch_trace ev warning
                           (mkListOptions (NextPage (resp r)) (PerPage opt))
                           (int_incr page) t rest
      end
  end.

(** The clock after the sleeps the rate-limit replies cause, from time [t]. *)
Fixpoint fetch_clock {T} (t : Time) (rs : list (Reply T)) : Time :=
  match rs with
  | [] => t
  | r :: rest =>
      match asRateLimitError (err_of r) with
      | Some rate =>
          fetch_clock (t + suspension (time_Sub (Reset rate) t)) rest
      | None => fetch_clock t rest
      end
  end.

(** The durations given to [time.Sleep], one per rate-limit reply. *)
Fixpoint fetch_waits {T} (t : Time) (rs : list (Reply T)) : list Duration :=
  match rs with
  | [] => []
  | r :: rest =>
      match asRateLimitError (err_of r) with
      | Some rate =>
          time_Sub (Reset rate) t ::
          fetch_waits (t + suspension (time_Sub (Reset rate) t)) rest
      | None => fetch_waits t rest
      end
  end.

(** The selectors sent: the first one, and after each reply the one
    [next_request] gives. *)
Fixpoint selectors_for {T} (opt : ListOptions) (rs : list (Reply T))
  : list ListOptions :=
  match rs with
  | [] => []
  | r :: rest => opt :: selectors_for (next_request opt r) rest
  end.

(** The pages among the replies, and the warning a walk over them logs: none
    unless the last reply is an error, and then one, for the page counted
    from [page] by the pages received. *)
Definition pages_received {T} (rs : list (Reply T)) : nat :=
  List.length (filter (fun r => match err_of r with
                                | None => true
                                | Some _ => false
                                end) rs).

Definition fetch_warning {T} (warning : Z -> error -> LogLine) (page : Z)
           (rs : list (Reply T)) : list LogLine :=
  match err_of (last rs ([], mkResponse 0, None)) with
  | Some e => [warning (Nat.iter (pages_received rs) int_incr page) e]
  | None => []
  end.

(** The replies the listing calls of a trace got, in order. *)
Definition issues_reply_of (ev : Event) : list (Reply Issue) :=
  match ev with
  | EvListByRepo _ _ _ r => [r]
  | _ => []
  end.

Definition issues_replies (tr : list Event) : list (Reply Issue) :=
  flat_map issues_reply_of tr.

Definition comments_reply_of (ev : Event) : list (Reply IssueComment) :=
  match ev with
  | EvListComments _ _ _ _ r => [r]
  | _ => []
  end.

Definition comments_replies (tr : list Event) : list (Reply IssueComment) :=
  flat_map comments_reply_of tr.

(** The time all the sleeps of a trace take. *)
Definition time_slept (tr : list Event) : Duration :=
  fold_right Z.add 0 (map suspension (sleeps tr)).

(** * Properties *)

(** ** Integers and time *)

Lemma int_wrap_id (x : Z) : minInt <= x <= maxInt -> int_wrap x = x.
Proof.
  unfold int_wrap, minInt, maxInt. intros H.
  rewrite Z.mod_small; lia.
Qed.

Lemma int_wrap_incr (x : Z) : int_incr (int_wrap x) = int_wrap (x + 1).
Proof.
  unfold int_incr, int_wrap.
  replace ((x + 2 ^ 63) mod 2 ^ 64 - 2 ^ 63 + 1 + 2 ^ 63)
    with ((x + 2 ^ 63) mod 2 ^ 64 + 1) by lia.
  replace (x + 1 + 2 ^ 63) with ((x + 2 ^ 63) + 1) by lia.
  rewrite (Z.add_mod (x + 2 ^ 63) 1) by lia.
  rewrite (Z.add_mod ((x + 2 ^ 63) mod 2 ^ 64) 1) by lia.
  rewrite Z.mod_mod by lia. reflexivity.
Qed.

(** The page counter after [m] increments from 1. *)
Lemma page_counter (m : nat) :
  Nat.iter m int_incr 1 = int_wrap (1 + Z.of_nat m).
Proof.
  induction m as [|m IH].
  - reflexivity.
  - rewrite Nat.iter_succ, IH, int_wrap_incr. f_equal. lia.
Qed.

Lemma time_Sub_exact (t u : Time) :
  minDuration <= t - u <= maxDuration -> time_Sub t u = t - u.
Proof.
  unfold time_Sub. intros H.
  destruct (Z.ltb_spec maxDuration (t - u)); [lia|].
  destruct (Z.ltb_spec (t - u) minDuration); [lia|]. reflexivity.
Qed.

Lemma gtb_true (a : Z) : (a >? 0) = true -> 0 < a.
Proof. rewrite Z.gtb_ltb. apply Z.ltb_lt. Qed.


Lemma app_two {A} (l : list A) (a b : A) : (l ++ [a]) ++ [b] = l ++ [a; b].
Proof. rewrite <- app_assoc. reflexivity. Qed.

Lemma state_eta {E} (st : State E) :
  mkState (world st) (now st) (trace st) = st.
Proof. destruct st; reflexivity. Qed.

(** ** The backoff primitive *)

Section Backoff.

Context {E : Type} {svc : Service E}.

Lemma wait_not_rate_limit (err : option error) (st : State E) :
  asRateLimitError err = None ->
  waitForRateLimitReset err st = Some (false, st).
Proof.
  intros H. unfold waitForRateLimitReset. rewrite H. reflexivity.
Qed.

Lemma wait_rate_limit (rate : Rate) (msg : string) (st : State E) :
  waitForRateLimitReset (Some (RateLimitError rate msg)) st =
  Some (true,
        mkState (world st)
                (now st + suspension (time_Sub (Reset rate) (now st)))
                (trace st ++ [EvDbg (DbgRateLimit (time_Sub (Reset rate) (now st)));
                              EvSleep (time_Sub (Reset rate) (now st))])).
Proof.
  unfold waitForRateLimitReset, bind, time_Until, dbg_Printf, time_Sleep, emit.
  cbn. rewrite app_two. reflexivity.
Qed.

(** Whatever the error, the primitive returns, and it leaves the service
    alone. *)
Lemma wait_total (err : option error) (st : State E) :
  exists b st',
    waitForRateLimitReset err st = Some (b, st') /\
    world st' = world st /\
    (b = true <-> exists rate, asRateLimitError err = Some rate).
Proof.
  destruct (asRateLimitError err) as [rate|] eqn:Hr.
  - destruct err as [[rate' msg| | | |]|]; try discriminate.
    injection Hr as ->.
    eexists _, _. rewrite wait_rate_limit.
    repeat split; eauto.
  - exists false, st. rewrite wait_not_rate_limit by assumption.
    repeat split; try discriminate. intros [? ?]; discriminate.
Qed.

End Backoff.

(** C4.  [waitForRateLimitReset] answers [true] exactly on a rate-limit
    error.  On any other error value, nil included, it answers [false] and
    nothing happens: no sleep, no log line, the clock and the service
    untouched.  On a rate-limit error it logs the wait, sleeps for the reset
    time minus the current time, which suspends it for that long when the
    difference is positive and not at all otherwise, and then answers
    [true]. *)
Theorem waitForRateLimitReset_spec :
  forall (E : Type) (svc : Service E) (err : option error) (st : State E),
    match err with
    | Some (RateLimitError rate _) =>
        let delta := time_Sub (Reset rate) (now st) in
        waitForRateLimitReset err st =
        Some (true, mkState (world st) (now st + Z.max 0 delta)
                            (trace st ++ [EvDbg (DbgRateLimit delta);
                                          EvSleep delta]))
        /\ (minDuration <= Reset rate - now st <= maxDuration ->
            delta = Reset rate - now st)
    | _ => waitForRateLimitReset err st = Some (false, st)
    end.
Proof.
  intros E svc err st.
  destruct err as [[rate msg| | | |]|];
    try (apply wait_not_rate_limit; reflexivity).
  cbv zeta. split.
  - apply wait_rate_limit.
  - apply time_Sub_exact.
Qed.

Lemma waitForRateLimitReset_spec_witness :
  waitForRateLimitReset (Some (sample_rate_limit 500))
                        (start (source [] (fun _ => [])) 100) =
  Some (true, mkState (source [] (fun _ => [])) 500
                      [EvDbg (DbgRateLimit 400); EvSleep 400])
  /\ waitForRateLimitReset (Some (sample_rate_limit 50))
                           (start (source [] (fun _ => [])) 100) =
     Some (true, mkState (source [] (fun _ => [])) 100
                         [EvDbg (DbgRateLimit (-50)); EvSleep (-50)])
  /\ waitForRateLimitReset (Some (errorString "boom"))
                           (start (source [] (fun _ => [])) 100) =
     Some (false, start (source [] (fun _ => [])) 100).
Proof.
  split; [|split].
  - exact (proj1 (waitForRateLimitReset_spec Fake fake_service
                    (Some (sample_rate_limit 500))
                    (start (source [] (fun _ => [])) 100))).
  - exact (proj1 (waitForRateLimitReset_spec Fake fake_service
                    (Some (sample_rate_limit 50))
                    (start (source [] (fun _ => [])) 100))).
  - exact (waitForRateLimitReset_spec Fake fake_service
             (Some (errorString "boom"))
             (start (source [] (fun _ => [])) 100)).
Defined.

(** ** The page walk, for any service *)

Section PaginateFacts.

Context {E : Type} {svc : Service E} {T : Type}.
Variable serve : ListOptions -> Time -> E -> Reply T * E.
Variable ev : ListOptions -> Reply T -> Event.
Variable warning : Z -> error -> LogLine.

Lemma call_eq (opt : ListOptions) (st : State E) :
  call serve ev opt st =
  Some (fst (serve opt (now st) (world st)),
        mkState (snd (serve opt (now st) (world st))) (now st)
                (trace st ++ [ev opt (fst (serve opt (now st) (world st)))])).
Proof.
  unfold call. destruct (serve opt (now st) (world st)); reflexivity.
Qed.

(** One turn of the retry loop. *)
Lemma paginate_retry_S (fuel : nat) (opt : ListOptions) (r : Reply T)
      (st : State E) :
  paginate_retry serve ev (S fuel) opt r st =
  match asRateLimitError (err_of r) with
  | None => Some (r, st)
  | Some rate =>
      let d := time_Sub (Reset rate) (now st) in
      let st1 := mkState (world st) (now st + suspension d)
                         (trace st ++ [EvDbg (DbgRateLimit d); EvSleep d]) in
      let r1 := fst (serve opt (now st1) (world st1)) in
      paginate_retry serve ev fuel opt r1
        (mkState (snd (serve opt (now st1) (world st1))) (now st1)
                 (trace st1 ++ [ev opt r1]))
  end.
Proof.
  cbn [paginate_retry]. unfold bind.
  destruct (asRateLimitError (err_of r)) as [rate|] eqn:Hr.
  - destruct (err_of r) as [[rate' msg| | | |]|]; try discriminate.
    injection Hr as ->. rewrite wait_rate_limit.
    cbv zeta. rewrite call_eq. reflexivity.
  - rewrite wait_not_rate_limit by assumption. reflexivity.
Qed.

(** One turn of the page loop. *)
Lemma paginate_loop_S (fuel : nat) (opt : ListOptions) (all : list T)
      (page : Z) (st : State E) :
  paginate_loop serve ev warning (S fuel) opt all page st =
  let r := fst (serve opt (now st) (world st)) in
  let st1 := mkState (snd (serve opt (now st) (world st))) (now st)
                     (trace st ++ [ev opt r]) in
  match err_of r with
  | None => paginate_next serve ev warning fuel opt all page r st1
  | Some _ =>
      match paginate_retry serve ev fuel opt r st1 with
      | Some (r', st2) =>
          match err_of r' with
          | Some err => Some (all, emit (EvWarn (warning page err)) st2)
          | None => paginate_next serve ev warning fuel opt all page r' st2
          end
      | None => None
      end
  end.
Proof.
  cbn [paginate_loop]. unfold bind at 1. rewrite call_eq. cbv zeta.
  destruct (err_of (fst (serve opt (now st) (world st)))) as [e|].
  - unfold bind at 1.
    destruct (paginate_retry serve ev fuel opt _ _) as [[r' st2]|];
      [|reflexivity].
    destruct (err_of r') as [e'|]; reflexivity.
  - reflexivity.
Qed.

(** *** More fuel changes nothing *)

Lemma paginate_retry_mono (f f' : nat) :
  (f <= f')%nat ->
  forall opt r st x,
    paginate_retry serve ev f opt r st = Some x ->
    paginate_retry serve ev f' opt r st = Some x.
Proof.
  revert f'. induction f as [|f IH]; intros f' Hle opt r st x H.
  - discriminate.
  - destruct f' as [|f']; [lia|].
    rewrite paginate_retry_S in *.
    destruct (asRateLimitError (err_of r)); [|assumption].
    cbv zeta in *. apply IH; [lia|assumption].
Qed.

Lemma paginate_loop_mono (f f' : nat) :
  (f <= f')%nat ->
  forall opt all page st x,
    paginate_loop serve ev warning f opt all page st = Some x ->
    paginate_loop serve ev warning f' opt all page st = Some x.
Proof.
  revert f'. induction f as [|f IH]; intros f' Hle opt all page st x H.
  - discriminate.
  - destruct f' as [|f']; [lia|].
    assert (Hnext : forall r st1,
               paginate_next serve ev warning f opt all page r st1 = Some x ->
               paginate_next serve ev warning f' opt all page r st1 = Some x).
    { intros r st1. unfold paginate_next.
      destruct (NextPage (resp r) =? 0); [auto|].
      apply IH. lia. }
    rewrite paginate_loop_S in *. cbv zeta in *.
    destruct (err_of (fst (serve opt (now st) (world st)))) as [e|];
      [|auto].
    destruct (paginate_retry serve ev f opt _ _) as [[r' st2]|] eqn:Hretry;
      [|discriminate].
    rewrite (paginate_retry_mono f f' ltac:(lia) _ _ _ _ Hretry).
    destruct (err_of r'); auto.
Qed.

(** *** What a walk leaves in the trace, and what it returns *)

Section Accumulation.

Variable got : Event -> list T.
Hypothesis ev_fetch : forall opt r, fetch_event (ev opt r) = true.
Hypothesis got_ev : forall opt r, got (ev opt r) = delivered r.
Hypothesis got_dbg : forall l, got (EvDbg l) = [].
Hypothesis got_warn : forall l, got (EvWarn l) = [].
Hypothesis got_sleep : forall d, got (EvSleep d) = [].

Lemma delivered_error (r : Reply T) (e : error) :
  err_of r = Some e -> delivered r = [].
Proof. unfold delivered. intros ->. reflexivity. Qed.

Lemma delivered_page (r : Reply T) :
  err_of r = None -> delivered r = records r.
Proof. unfold delivered. intros ->. reflexivity. Qed.

Lemma paginate_retry_trace (f : nat) :
  forall opt r st r' st',
    paginate_retry serve ev f opt r st = Some (r', st') ->
    exists evs,
      trace st' = trace st ++ evs /\
      Forall (fun e => fetch_event e = true) evs /\
      delivered r ++ flat_map got evs = delivered r'.
Proof.
  induction f as [|f IH]; intros opt r st r' st' H; [discriminate|].
  rewrite paginate_retry_S in H.
  destruct (asRateLimitError (err_of r)) as [rate|] eqn:Hr.
  - cbv zeta in H. apply IH in H. destruct H as (evs & Htr & Hf & Hd).
    cbn [trace now world] in Htr.
    eexists (_ :: _ :: _ :: evs). split; [|split].
    + rewrite Htr, <- !app_assoc. reflexivity.
    + repeat constructor; auto.
    + cbn [flat_map]. rewrite got_dbg, got_sleep, got_ev. cbn [app].
      destruct (err_of r) as [e|] eqn:He; [|discriminate].
      rewrite (delivered_error r _ He). exact Hd.
  - injection H as <- <-. exists []. rewrite app_nil_r. cbn.
    rewrite app_nil_r. auto.
Qed.

Lemma paginate_loop_trace (f : nat) :
  forall opt all page st res st',
    paginate_loop serve ev warning f opt all page st = Some (res, st') ->
    exists evs,
      trace st' = trace st ++ evs /\
      Forall (fun e => fetch_event e = true) evs /\
      res = all ++ flat_map got evs /\
      exists more, evs = ev opt (fst (serve opt (now st) (world st))) :: more.
Proof.
  induction f as [|f IH]; intros opt all page st res st' H; [discriminate|].
  assert (Hnext : forall r st1,
             err_of r = None ->
             paginate_next serve ev warning f opt all page r st1
             = Some (res, st') ->
             exists evs,
               trace st' = trace st1 ++ evs /\
               Forall (fun e => fetch_event e = true) evs /\
               res = (all ++ delivered r) ++ flat_map got evs).
  { intros r st1 He Hn. unfold paginate_next in Hn.
    rewrite (delivered_page r He).
    destruct (NextPage (resp r) =? 0).
    - injection Hn as <- <-. exists []. rewrite !app_nil_r. auto.
    - apply IH in Hn. destruct Hn as (evs & H1 & H2 & H3 & _).
      exists evs. auto. }
  rewrite paginate_loop_S in H. cbv zeta in H.
  set (r := fst (serve opt (now st) (world st))) in *.
  destruct (err_of r) as [e|] eqn:He.
  - destruct (paginate_retry serve ev f opt r _) as [[r' st2]|] eqn:Hretry;
      [|discriminate].
    apply paginate_retry_trace in Hretry.
    destruct Hretry as (evs1 & Htr1 & Hf1 & Hd1).
    cbn [trace] in Htr1. rewrite (delivered_error r e He) in Hd1.
    cbn [app] in Hd1.
    destruct (err_of r') as [e'|] eqn:He'.
    + injection H as <- <-.
      exists ((ev opt r :: evs1) ++ [EvWarn (warning page e')]).
      split; [|split; [|split]].
      * cbn [emit trace]. rewrite Htr1, <- !app_assoc. reflexivity.
      * apply Forall_app. split; [constructor; auto|repeat constructor].
      * rewrite flat_map_app. cbn [flat_map].
        rewrite got_ev, got_warn, (delivered_error r e He), Hd1,
          (delivered_error r' e' He'). cbn. rewrite app_nil_r. reflexivity.
      * eexists. reflexivity.
    + apply Hnext in H; [|assumption].
      destruct H as (evs2 & Htr2 & Hf2 & Hres).
      exists ((ev opt r :: evs1) ++ evs2). split; [|split; [|split]].
      * rewrite Htr2, Htr1, <- !app_assoc. reflexivity.
      * apply Forall_app. split; [constructor; auto|assumption].
      * rewrite flat_map_app. cbn [flat_map].
        rewrite got_ev, (delivered_error r e He), Hd1. cbn [app].
        rewrite Hres, app_assoc. reflexivity.
      * eexists. reflexivity.
  - apply Hnext in H; [|assumption].
    destruct H as (evs2 & Htr2 & Hf2 & Hres).
    cbn [trace] in Htr2.
    exists (ev opt r :: evs2). split; [|split; [|split]].
    + rewrite Htr2, <- app_assoc. reflexivity.
    + constructor; auto.
    + cbn [flat_map]. rewrite got_ev, Hres, app_assoc. reflexivity.
    + eexists. reflexivity.
Qed.

End Accumulation.

(** *** Termination

    A measure on the request, the clock and the state of the service that
    every continuing reply lowers: a rate-limit error with the request
    unchanged and the clock after the sleep, a page that names a next page
    with the request for that page.  So the rate-limit errors on a page come
    to an end, and so do the pages. *)

Section Termination.

Variable mu : ListOptions -> Time -> E -> nat.
Hypothesis mu_decreases :
  forall opt t e,
    PerPage opt = 100 ->
    continuing (fst (serve opt t e)) = true ->
    (mu (next_request opt (fst (serve opt t e)))
        (next_clock t (fst (serve opt t e)))
        (snd (serve opt t e))
     < mu opt t e)%nat.

Lemma rate_limit_continuing (r : Reply T) (rate : Rate) :
  asRateLimitError (err_of r) = Some rate -> continuing r = true.
Proof.
  unfold continuing.
  destruct (err_of r) as [[]|]; try discriminate; reflexivity.
Qed.

Lemma rate_limit_same_request (opt : ListOptions) (r : Reply T) (rate : Rate) :
  asRateLimitError (err_of r) = Some rate -> next_request opt r = opt.
Proof.
  unfold next_request.
  destruct (err_of r) as [[]|]; try discriminate; reflexivity.
Qed.

Lemma page_continuing (r : Reply T) :
  err_of r = None -> (NextPage (resp r) =? 0) = false -> continuing r = true.
Proof. unfold continuing. intros -> ->. reflexivity. Qed.

Lemma page_next_request (opt : ListOptions) (r : Reply T) :
  err_of r = None ->
  next_request opt r = mkListOptions (NextPage (resp r)) (PerPage opt).
Proof. unfold next_request. intros ->. reflexivity. Qed.

Lemma next_clock_rate_limit (t : Time) (r : Reply T) (rate : Rate) :
  asRateLimitError (err_of r) = Some rate ->
  next_clock t r = t + suspension (time_Sub (Reset rate) t).
Proof. unfold next_clock. intros ->. reflexivity. Qed.

Lemma next_clock_other (t : Time) (r : Reply T) :
  asRateLimitError (err_of r) = None -> next_clock t r = t.
Proof. unfold next_clock. intros ->. reflexivity. Qed.

(** The retry loop, entered with reply [r] in hand: the measure is taken at
    the time the next request would be sent. *)
Lemma paginate_retry_terminates (f : nat) :
  forall opt r st,
    PerPage opt = 100 ->
    (mu opt (next_clock (now st) r) (world st) + 2 <= f)%nat ->
    exists r' st',
      paginate_retry serve ev f opt r st = Some (r', st') /\
      asRateLimitError (err_of r') = None /\
      ((r' = r /\ st' = st) \/
       (continuing r' = true ->
        (mu (next_request opt r') (now st') (world st')
         < mu opt (next_clock (now st) r) (world st))%nat)).
Proof.
  induction f as [|f IH]; intros opt r st Hpp Hf; [lia|].
  rewrite paginate_retry_S.
  destruct (asRateLimitError (err_of r)) as [rate|] eqn:Hr.
  - cbv zeta. cbn [world now trace].
    rewrite (next_clock_rate_limit (now st) r rate Hr) in *.
    set (t1 := now st + suspension (time_Sub (Reset rate) (now st))) in *.
    pose proof (mu_decreases opt t1 (world st) Hpp) as Hdec.
    set (r1 := fst (serve opt t1 (world st))) in *.
    set (e1 := snd (serve opt t1 (world st))) in *.
    destruct (asRateLimitError (err_of r1)) as [rate1|] eqn:Hr1.
    + specialize (Hdec (rate_limit_continuing r1 rate1 Hr1)).
      rewrite (rate_limit_same_request opt r1 rate1 Hr1) in Hdec.
      destruct (IH opt r1 (mkState e1 t1
                  ((trace st ++ [EvDbg (DbgRateLimit (time_Sub (Reset rate) (now st)));
                                 EvSleep (time_Sub (Reset rate) (now st))])
                   ++ [ev opt r1])) Hpp)
        as (r' & st' & Hrun & Hnr & Hmu); [cbn [world now]; lia|].
      exists r', st'. split; [exact Hrun|]. split; [exact Hnr|].
      right. intros Hc. destruct Hmu as [[-> ->]|Hmu].
      * congruence.
      * specialize (Hmu Hc). cbn [world now] in Hmu. lia.
    + destruct f as [|f]; [lia|].
      rewrite paginate_retry_S, Hr1.
      eexists _, _. split; [reflexivity|]. split; [exact Hr1|].
      right. cbn [world now].
      rewrite (next_clock_other t1 r1 Hr1) in Hdec. exact Hdec.
  - exists r, st. auto.
Qed.

(** With fuel beyond the measure, the page loop returns. *)
Lemma paginate_loop_terminates (f : nat) :
  forall opt all page st,
    PerPage opt = 100 ->
    (mu opt (now st) (world st) + 2 <= f)%nat ->
    exists res st',
      paginate_loop serve ev warning f opt all page st = Some (res, st').
Proof.
  induction f as [|f IH]; intros opt all page st Hpp Hf; [lia|].
  assert (Hnext : forall r st1,
             (continuing r = true ->
              (mu (next_request opt r) (now st1) (world st1)
               < mu opt (now st) (world st))%nat) ->
             err_of r = None ->
             exists res st',
               paginate_next serve ev warning f opt all page r st1
               = Some (res, st')).
  { intros r st1 Hmu He. unfold paginate_next.
    destruct (NextPage (resp r) =? 0) eqn:Hn.
    - eexists _, _. reflexivity.
    - specialize (Hmu (page_continuing r He Hn)).
      rewrite (page_next_request opt r He) in Hmu.
      apply IH; [exact Hpp|cbn [now world]; lia]. }
  rewrite paginate_loop_S. cbv zeta.
  pose proof (mu_decreases opt (now st) (world st) Hpp) as Hdec.
  set (r := fst (serve opt (now st) (world st))) in *.
  set (e1 := snd (serve opt (now st) (world st))) in *.
  destruct (err_of r) as [e|] eqn:He.
  - destruct (asRateLimitError (err_of r)) as [rate|] eqn:Hr.
    + specialize (Hdec (rate_limit_continuing r rate Hr)).
      rewrite (rate_limit_same_request opt r rate Hr) in Hdec.
      destruct (paginate_retry_terminates f opt r
                  (mkState e1 (now st) (trace st ++ [ev opt r])) Hpp)
        as (r' & st2 & Hrun & Hnr & Hmu); [cbn [world now]; lia|].
      rewrite Hrun.
      destruct (err_of r') as [e'|] eqn:He'.
      * eexists _, _. reflexivity.
      * apply Hnext; [|assumption].
        intros Hc. destruct Hmu as [[-> ->]|Hmu]; [congruence|].
        specialize (Hmu Hc). cbn [world now] in Hmu. lia.
    + destruct f as [|f]; [lia|].
      rewrite paginate_retry_S, Hr, He.
      eexists _, _. reflexivity.
  - apply Hnext; [|assumption]. cbn [world now].
    assert (Hnr : asRateLimitError (err_of r) = None) by (rewrite He; reflexivity).
    rewrite (next_clock_other (now st) r Hnr) in Hdec. exact Hdec.
Qed.

End Termination.

End PaginateFacts.

(** ** The two fetchers are the page walk *)

Section Fetchers.

Context {E : Type} {svc : Service E}.

Lemma getIssues_retry_paginate (fuel : nat) c ownerName repoName :
  forall opt r st,
    getIssues_retry fuel c ownerName repoName opt r st =
    paginate_retry (Issues_ListByRepo c ownerName repoName)
                   (EvListByRepo ownerName repoName) fuel opt r st.
Proof.
  induction fuel as [|fuel IH]; intros opt r st; [reflexivity|].
  cbn [getIssues_retry paginate_retry]. unfold bind.
  destruct (waitForRateLimitReset (err_of r) st) as [[[] st1]|];
    try reflexivity.
  unfold ListByRepo.
  destruct (call _ _ opt st1) as [[r1 st2]|]; [apply IH|reflexivity].
Qed.

Lemma getIssues_loop_paginate (fuel : nat) c ownerName repoName :
  forall opt all page st,
    getIssues_loop fuel c ownerName repoName opt all page st =
    paginate_loop (Issues_ListByRepo c ownerName repoName)
                  (EvListByRepo ownerName repoName)
                  (WarnIssues ownerName repoName) fuel opt all page st.
Proof.
  induction fuel as [|fuel IH]; intros opt all page st; [reflexivity|].
  cbn [getIssues_loop paginate_loop]. unfold bind, ListByRepo.
  destruct (call _ _ opt st) as [[r st1]|]; [|reflexivity].
  destruct (err_of r).
  - rewrite getIssues_retry_paginate.
    destruct (paginate_retry _ _ fuel opt r st1) as [[r' st2]|];
      [|reflexivity].
    destruct (err_of r'); [reflexivity|].
    destruct (NextPage (resp r') =? 0); [reflexivity|apply IH].
  - destruct (NextPage (resp r) =? 0); [reflexivity|apply IH].
Qed.

Lemma getIssueComments_retry_paginate (fuel : nat) c ownerName repoName n :
  forall opt r st,
    getIssueComments_retry fuel c ownerName repoName n opt r st =
    paginate_retry (Issues_ListComments c ownerName repoName n)
                   (EvListComments ownerName repoName n) fuel opt r st.
Proof.
  induction fuel as [|fuel IH]; intros opt r st; [reflexivity|].
  cbn [getIssueComments_retry paginate_retry]. unfold bind.
  destruct (waitForRateLimitReset (err_of r) st) as [[[] st1]|];
    try reflexivity.
  unfold ListComments.
  destruct (call _ _ opt st1) as [[r1 st2]|]; [apply IH|reflexivity].
Qed.

Lemma getIssueComments_loop_paginate (fuel : nat) c ownerName repoName n :
  forall opt all page st,
    getIssueComments_loop fuel c ownerName repoName n opt all page st =
    paginate_loop (Issues_ListComments c ownerName repoName n)
                  (EvListComments ownerName repoName n)
                  (WarnComments ownerName repoName n) fuel opt all page st.
Proof.
  induction fuel as [|fuel IH]; intros opt all page st; [reflexivity|].
  cbn [getIssueComments_loop paginate_loop]. unfold bind, ListComments.
  destruct (call _ _ opt st) as [[r st1]|]; [|reflexivity].
  destruct (err_of r).
  - rewrite getIssueComments_retry_paginate.
    destruct (paginate_retry _ _ fuel opt r st1) as [[r' st2]|];
      [|reflexivity].
    destruct (err_of r'); [reflexivity|].
    destruct (NextPage (resp r') =? 0); [reflexivity|apply IH].
  - destruct (NextPage (resp r) =? 0); [reflexivity|apply IH].
Qed.

(** [getIssues] and [getIssueComments] through the page walk. *)
Lemma getIssues_eq (fuel : nat) c ownerName repoName (st : State E) :
  getIssues fuel c ownerName repoName st =
  match paginate_loop (Issues_ListByRepo c ownerName repoName)
                      (EvListByRepo ownerName repoName)
                      (WarnIssues ownerName repoName)
                      fuel (mkListOptions 0 100) [] 1 st with
  | Some (all, st') => Some ((all, None), st')
  | None => None
  end.
Proof.
  unfold getIssues, bind. rewrite getIssues_loop_paginate.
  destruct (paginate_loop _ _ _ fuel _ _ _ st) as [[all st']|]; reflexivity.
Qed.

Lemma getIssueComments_eq (fuel : nat) c ownerName repoName n (st : State E) :
  getIssueComments fuel c ownerName repoName n st =
  match paginate_loop (Issues_ListComments c ownerName repoName n)
                      (EvListComments ownerName repoName n)
                      (WarnComments ownerName repoName n)
                      fuel (mkListOptions 0 100) [] 1 st with
  | Some (all, st') => Some ((all, None), st')
  | None => None
  end.
Proof.
  unfold getIssueComments, bind. rewrite getIssueComments_loop_paginate.
  destruct (paginate_loop _ _ _ fuel _ _ _ st) as [[all st']|]; reflexivity.
Qed.

Lemma getIssues_mono (f f' : nat) c ownerName repoName (st : State E) x :
  (f <= f')%nat ->
  getIssues f c ownerName repoName st = Some x ->
  getIssues f' c ownerName repoName st = Some x.
Proof.
  intros Hle. rewrite !getIssues_eq.
  destruct (paginate_loop _ _ _ f _ _ _ st) as [[all st']|] eqn:H;
    [|discriminate].
  rewrite (paginate_loop_mono _ _ _ f f' Hle _ _ _ _ _ H). auto.
Qed.

Lemma getIssueComments_mono (f f' : nat) c ownerName repoName n
      (st : State E) x :
  (f <= f')%nat ->
  getIssueComments f c ownerName repoName n st = Some x ->
  getIssueComments f' c ownerName repoName n st = Some x.
Proof.
  intros Hle. rewrite !getIssueComments_eq.
  destruct (paginate_loop _ _ _ f _ _ _ st) as [[all st']|] eqn:H;
    [|discriminate].
  rewrite (paginate_loop_mono _ _ _ f f' Hle _ _ _ _ _ H). auto.
Qed.

(** What a run of a fetcher adds to the trace: fetch events only, and the
    records returned are the records delivered, in the order delivered. *)
Lemma getIssues_trace (fuel : nat) c ownerName repoName (st : State E)
      res st' :
  getIssues fuel c ownerName repoName st = Some (res, st') ->
  exists evs,
    trace st' = trace st ++ evs /\
    Forall (fun e => fetch_event e = true) evs /\
    res = (issues_received evs, None).
Proof.
  rewrite getIssues_eq.
  destruct (paginate_loop _ _ _ fuel _ _ _ st) as [[all st1]|] eqn:H;
    [|discriminate].
  intros [= <- <-].
  apply (paginate_loop_trace _ _ _ issues_of) in H; try reflexivity.
  destruct H as (evs & Htr & Hf & Hres & _). exists evs. subst all. auto.
Qed.

Lemma getIssueComments_trace (fuel : nat) c ownerName repoName n
      (st : State E) res st' :
  getIssueComments fuel c ownerName repoName n st = Some (res, st') ->
  exists evs,
    trace st' = trace st ++ evs /\
    Forall (fun e => fetch_event e = true) evs /\
    res = (comments_received evs, None) /\
    exists rep more,
      evs = EvListComments ownerName repoName n (mkListOptions 0 100) rep
              :: more.
Proof.
  rewrite getIssueComments_eq.
  destruct (paginate_loop _ _ _ fuel _ _ _ st) as [[all st1]|] eqn:H;
    [|discriminate].
  intros [= <- <-].
  apply (paginate_loop_trace _ _ _ comments_of) in H; try reflexivity.
  destruct H as (evs & Htr & Hf & Hres & more & Hfirst).
  exists evs. subst all. eauto 6.
Qed.

(** Under a measure that continuing replies lower, the fetchers return, and
    with any more fuel they return the same. *)
Lemma getIssues_terminates (mu : ListOptions -> Time -> E -> nat) c ownerName
      repoName (st : State E) :
  (forall opt t e,
      PerPage opt = 100 ->
      continuing (fst (Issues_ListByRepo c ownerName repoName opt t e)) = true ->
      (mu (next_request opt (fst (Issues_ListByRepo c ownerName repoName opt t e)))
          (next_clock t (fst (Issues_ListByRepo c ownerName repoName opt t e)))
          (snd (Issues_ListByRepo c ownerName repoName opt t e))
       < mu opt t e)%nat) ->
  exists all st',
    (forall fuel,
        (mu (mkListOptions 0 100) (now st) (world st) + 2 <= fuel)%nat ->
        getIssues fuel c ownerName repoName st = Some ((all, None), st')) /\
    exists evs, trace st' = trace st ++ evs /\ all = issues_received evs.
Proof.
  intros Hmu.
  destruct (paginate_loop_terminates
              (Issues_ListByRepo c ownerName repoName)
              (EvListByRepo ownerName repoName)
              (WarnIssues ownerName repoName) mu Hmu
              (mu (mkListOptions 0 100) (now st) (world st) + 2)
              (mkListOptions 0 100) [] 1 st eq_refl (le_n _))
    as (all & st' & Hrun).
  assert (Hget : forall fuel,
             (mu (mkListOptions 0 100) (now st) (world st) + 2 <= fuel)%nat ->
             getIssues fuel c ownerName repoName st = Some ((all, None), st')).
  { intros fuel Hf. rewrite getIssues_eq.
    rewrite (paginate_loop_mono _ _ _ _ fuel Hf _ _ _ _ _ Hrun). reflexivity. }
  exists all, st'. split; [exact Hget|].
  destruct (getIssues_trace _ _ _ _ _ _ _ (Hget _ (le_n _)))
    as (evs & Htr & _ & Hres).
  exists evs. split; [exact Htr|]. congruence.
Qed.

Lemma getIssueComments_terminates (mu : ListOptions -> Time -> E -> nat) c
      ownerName repoName n (st : State E) :
  (forall opt t e,
      PerPage opt = 100 ->
      continuing (fst (Issues_ListComments c ownerName repoName n opt t e)) = true ->
      (mu (next_request opt (fst (Issues_ListComments c ownerName repoName n opt t e)))
          (next_clock t (fst (Issues_ListComments c ownerName repoName n opt t e)))
          (snd (Issues_ListComments c ownerName repoName n opt t e))
       < mu opt t e)%nat) ->
  exists all st',
    (forall fuel,
        (mu (mkListOptions 0 100) (now st) (world st) + 2 <= fuel)%nat ->
        getIssueComments fuel c ownerName repoName n st
        = Some ((all, None), st')) /\
    exists evs, trace st' = trace st ++ evs /\ all = comments_received evs.
Proof.
  intros Hmu.
  destruct (paginate_loop_terminates
              (Issues_ListComments c ownerName repoName n)
              (EvListComments ownerName repoName n)
              (WarnComments ownerName repoName n) mu Hmu
              (mu (mkListOptions 0 100) (now st) (world st) + 2)
              (mkListOptions 0 100) [] 1 st eq_refl (le_n _))
    as (all & st' & Hrun).
  assert (Hget : forall fuel,
             (mu (mkListOptions 0 100) (now st) (world st) + 2 <= fuel)%nat ->
             getIssueComments fuel c ownerName repoName n st
             = Some ((all, None), st')).
  { intros fuel Hf. rewrite getIssueComments_eq.
    rewrite (paginate_loop_mono _ _ _ _ fuel Hf _ _ _ _ _ Hrun). reflexivity. }
  exists all, st'. split; [exact Hget|].
  destruct (getIssueComments_trace _ _ _ _ _ _ _ _ (Hget _ (le_n _)))
    as (evs & Htr & _ & Hres & _).
  exists evs. split; [exact Htr|]. congruence.
Qed.

End Fetchers.

(** ** The page walk over the paginated source *)

Lemma firstn_app_skipn {A} (a b : nat) (l : list A) :
  firstn a l ++ firstn b (skipn a l) = firstn (a + b) l.
Proof.
  revert l. induction a as [|a IH]; intros l.
  - reflexivity.
  - destruct l as [|x l].
    + cbn. rewrite firstn_nil. reflexivity.
    + cbn. rewrite IH. reflexivity.
Qed.

Lemma selector_index (p : nat) :
  (1 <= p)%nat -> pageIndex (selector (Z.of_nat p)) = Z.of_nat p.
Proof.
  intros Hp. unfold pageIndex, selector. cbn [Page].
  destruct (Z.eqb_spec (Z.of_nat p) 1) as [->|Hne].
  - reflexivity.
  - destruct (Z.eqb_spec (Z.of_nat p) 0); [lia|reflexivity].
Qed.

Lemma selector_succ (p : nat) :
  (1 <= p)%nat -> mkListOptions (Z.of_nat (S p)) 100 = selector (Z.of_nat (S p)).
Proof.
  intros Hp. unfold selector.
  destruct (Z.eqb_spec (Z.of_nat (S p)) 1); [lia|reflexivity].
Qed.

Lemma page_records_nat {T} (l : list T) (p : nat) :
  (1 <= p)%nat ->
  page_records l 100 (Z.of_nat p) = firstn 100 (skipn (100 * (p - 1)) l).
Proof.
  intros Hp. unfold page_records.
  replace (Z.to_nat ((Z.of_nat p - 1) * 100)) with (100 * (p - 1))%nat by lia.
  replace (Z.to_nat 100) with 100%nat by lia. reflexivity.
Qed.

Lemma next_page_more {T} (l : list T) (p : nat) :
  (100 * p < List.length l)%nat ->
  next_page l 100 (Z.of_nat p) = Z.of_nat (S p).
Proof.
  intros H. unfold next_page.
  destruct (Z.ltb_spec (Z.of_nat p * 100) (Z.of_nat (List.length l))); lia.
Qed.

Lemma next_page_last {T} (l : list T) (p : nat) :
  (List.length l <= 100 * p)%nat -> next_page l 100 (Z.of_nat p) = 0.
Proof.
  intros H. unfold next_page.
  destruct (Z.ltb_spec (Z.of_nat p * 100) (Z.of_nat (List.length l))); lia.
Qed.

Lemma Endpoint_eqb_refl (ep : Endpoint) : Endpoint_eqb ep ep = true.
Proof. destruct ep; cbn; [reflexivity|apply Z.eqb_refl]. Qed.

Lemma take_fault_single_other (ep : Endpoint) (j q : Z) (e : error) :
  q <> j -> take_fault ep q [(ep, j, e)] = None.
Proof.
  intros Hne. cbn. rewrite Endpoint_eqb_refl.
  destruct (Z.eqb_spec q j); [contradiction|reflexivity].
Qed.

Lemma take_fault_single (ep : Endpoint) (j : Z) (e : error) :
  take_fault ep j [(ep, j, e)] = Some (e, []).
Proof. cbn. rewrite Endpoint_eqb_refl, Z.eqb_refl. reflexivity. Qed.

Section FakeWalk.

Context {T : Type}.
Variable sel : Fake -> list T.
Variable ep : Endpoint.
Variable ev : ListOptions -> Reply T -> Event.
Variable warning : Z -> error -> LogLine.
Hypothesis sel_faults : forall fk fs, sel (with_faults fk fs) = sel fk.

Abbreviation serve := (fake_serve sel ep).
Abbreviation loop := (paginate_loop serve ev warning).
Abbreviation next := (paginate_next serve ev warning).

Lemma fake_served (p : nat) (t : Time) (fk : Fake) :
  (1 <= p)%nat ->
  take_fault ep (Z.of_nat p) (fk_faults fk) = None ->
  serve (selector (Z.of_nat p)) t fk = (page_reply (sel fk) p, fk).
Proof.
  intros Hp Hnone. unfold fake_serve, fake_list.
  rewrite selector_index, Hnone by assumption. reflexivity.
Qed.

Lemma fake_faulted (p : nat) (t : Time) (fk : Fake) e rest :
  (1 <= p)%nat ->
  take_fault ep (Z.of_nat p) (fk_faults fk) = Some (e, rest) ->
  serve (selector (Z.of_nat p)) t fk = (fault_reply e, with_faults fk rest).
Proof.
  intros Hp Hf. unfold fake_serve, fake_list.
  rewrite selector_index, Hf by assumption. reflexivity.
Qed.

(** A page without a fault is served and handed to [paginate_next]. *)
Lemma step_served (p f : nat) all page (st : State Fake) :
  (1 <= p)%nat ->
  take_fault ep (Z.of_nat p) (fk_faults (world st)) = None ->
  loop (S f) (selector (Z.of_nat p)) all page st =
  next f (selector (Z.of_nat p)) all page (page_reply (sel (world st)) p)
       (mkState (world st) (now st)
                (trace st ++ [ev (selector (Z.of_nat p))
                                 (page_reply (sel (world st)) p)])).
Proof.
  intros Hp Hnone. rewrite paginate_loop_S. cbv zeta.
  rewrite fake_served by assumption. reflexivity.
Qed.

Lemma next_more (p f : nat) (l : list T) all page (st : State Fake) :
  (1 <= p)%nat ->
  (100 * p < List.length l)%nat ->
  next f (selector (Z.of_nat p)) all page (page_reply l p) st =
  loop f (selector (Z.of_nat (S p)))
       (all ++ firstn 100 (skipn (100 * (p - 1)) l)) (int_incr page) st.
Proof.
  intros Hp Hlt. unfold paginate_next, page_reply.
  cbn [resp records fst snd NextPage].
  rewrite next_page_more by assumption.
  destruct (Z.eqb_spec (Z.of_nat (S p)) 0); [lia|].
  rewrite page_records_nat by assumption.
  change (PerPage (selector (Z.of_nat p))) with 100.
  rewrite selector_succ by assumption. reflexivity.
Qed.

Lemma next_last (p f : nat) (l : list T) all page (st : State Fake) :
  (1 <= p)%nat ->
  (List.length l <= 100 * p)%nat ->
  next f (selector (Z.of_nat p)) all page (page_reply l p) st =
  Some (all ++ skipn (100 * (p - 1)) l, st).
Proof.
  intros Hp Hle. unfold paginate_next, page_reply.
  cbn [resp records fst snd NextPage].
  rewrite next_page_last by assumption. cbn [Z.eqb]. unfold ret.
  rewrite page_records_nat by assumption.
  rewrite firstn_all2; [reflexivity|].
  rewrite length_skipn. lia.
Qed.

(** [m] pages in a row, none faulty and none the last. *)
Lemma walk_to (m : nat) :
  forall (p f : nat) all page (st : State Fake),
    (1 <= p)%nat ->
    (forall q, (p <= q < p + m)%nat ->
               take_fault ep (Z.of_nat q) (fk_faults (world st)) = None /\
               (100 * q < List.length (sel (world st)))%nat) ->
    loop (m + f) (selector (Z.of_nat p)) all page st =
    loop f (selector (Z.of_nat (p + m)))
         (all ++ firstn (100 * m) (skipn (100 * (p - 1)) (sel (world st))))
         (Nat.iter m int_incr page)
         (mkState (world st) (now st)
                  (trace st ++ page_events ev (sel (world st)) p m)).
Proof.
  induction m as [|m IH]; intros p f all page st Hp Hq.
  - cbn [Nat.iter Nat.add page_events seq map]. rewrite Nat.mul_0_r.
    cbn [firstn]. rewrite !app_nil_r, Nat.add_0_r, state_eta. reflexivity.
  - destruct (Hq p ltac:(lia)) as [Hnone Hlt].
    cbn [Nat.add]. rewrite step_served, next_more by assumption.
    rewrite IH; cbn [world now trace]; [|lia|intros q Hr; apply Hq; lia].
    f_equal.
    + f_equal. lia.
    + rewrite <- app_assoc. f_equal.
      replace (100 * S p)%nat with (100 + 100 * p)%nat by lia.
      replace (S p - 1)%nat with p by lia.
      replace (100 * p)%nat with (100 + 100 * (p - 1))%nat at 1 by lia.
      rewrite <- skipn_skipn.
      replace (100 * S m)%nat with (100 + 100 * m)%nat by lia.
      apply firstn_app_skipn.
    + rewrite Nat.iter_succ_r. reflexivity.
    + cbn [page_events seq map]. rewrite <- app_assoc. reflexivity.
Qed.

Lemma split_pages (a b c : nat) (l : list T) :
  firstn b (skipn a l) ++ firstn c (skipn (b + a) l) ++ skipn (c + (b + a)) l
  = skipn a l.
Proof.
  rewrite <- (skipn_skipn c (b + a)), <- (skipn_skipn b a).
  rewrite firstn_skipn. apply firstn_skipn.
Qed.

(** From a page just served to the end, with no fault on the way. *)
Lemma next_clean (P p f : nat) all page (w : Fake) (t : Time) tr :
  (1 <= p)%nat ->
  last_page (sel w) p P ->
  (forall q, (p < q <= P)%nat ->
             take_fault ep (Z.of_nat q) (fk_faults w) = None) ->
  (P - p <= f)%nat ->
  next f (selector (Z.of_nat p)) all page (page_reply (sel w) p)
       (mkState w t tr) =
  Some (all ++ skipn (100 * (p - 1)) (sel w),
        mkState w t (tr ++ page_events ev (sel w) (S p) (P - p))).
Proof.
  intros Hp (HpP & Hlen & Hmore) Hclean Hf.
  destruct (Nat.eq_dec p P) as [->|Hne].
  - rewrite next_last by assumption.
    rewrite Nat.sub_diag. cbn [page_events seq map].
    rewrite app_nil_r. reflexivity.
  - rewrite next_more by (try apply Hmore; lia).
    replace f with ((P - S p) + S (f - (P - p)))%nat by lia.
    rewrite walk_to; cbn [world now trace]; [|lia|].
    2:{ intros q Hq. split; [apply Hclean|apply Hmore]; lia. }
    replace (S p + (P - S p))%nat with P by lia.
    rewrite step_served; cbn [world now trace]; [|lia|apply Hclean; lia].
    rewrite next_last by (cbn [world]; lia). f_equal. f_equal.
    + rewrite <- !app_assoc. f_equal.
      replace (S p - 1)%nat with (100 * 0 + p)%nat by lia.
      replace (100 * (100 * 0 + p))%nat with (100 + 100 * (p - 1))%nat by lia.
      replace (100 * (P - 1))%nat
        with (100 * (P - S p) + (100 + 100 * (p - 1)))%nat by lia.
      apply split_pages.
    + f_equal. rewrite <- app_assoc. f_equal.
      replace (P - p)%nat with ((P - S p) + 1)%nat by lia.
      unfold page_events. rewrite seq_app, map_app. cbn [seq map].
      replace (S p + (P - S p))%nat with P by lia. reflexivity.
Qed.

(** A whole walk from page [p] with no fault on the way. *)
Lemma walk_clean (P p fuel : nat) all page (st : State Fake) :
  (1 <= p)%nat ->
  last_page (sel (world st)) p P ->
  (forall q, (p <= q <= P)%nat ->
             take_fault ep (Z.of_nat q) (fk_faults (world st)) = None) ->
  (P - p + 1 <= fuel)%nat ->
  loop fuel (selector (Z.of_nat p)) all page st =
  Some (all ++ skipn (100 * (p - 1)) (sel (world st)),
        mkState (world st) (now st)
                (trace st ++ page_events ev (sel (world st)) p (P - p + 1))).
Proof.
  intros Hp Hlast Hclean Hf.
  destruct fuel as [|f]; [lia|].
  rewrite step_served; [|assumption|apply Hclean; destruct Hlast; lia].
  rewrite (next_clean P); try assumption; try lia.
  - rewrite <- app_assoc. replace (P - p + 1)%nat with (S (P - p)) by lia.
    reflexivity.
  - intros q Hq. apply Hclean. lia.
Qed.

(** A page with a planted error that is not a rate-limit error: one
    request, one warning, and the walk is over. *)
Lemma fault_stop (p f : nat) all page (st : State Fake) e rest :
  (1 <= p)%nat ->
  take_fault ep (Z.of_nat p) (fk_faults (world st)) = Some (e, rest) ->
  asRateLimitError (Some e) = None ->
  loop (S (S f)) (selector (Z.of_nat p)) all page st =
  Some (all,
        mkState (with_faults (world st) rest) (now st)
                (trace st ++ [ev (selector (Z.of_nat p)) (fault_reply e);
                              EvWarn (warning page e)])).
Proof.
  intros Hp Hfault Hnr. rewrite paginate_loop_S. cbv zeta.
  rewrite (fake_faulted p _ _ e rest) by assumption.
  cbn [fst snd].
  unfold fault_reply at 1. cbn [err_of snd fst].
  rewrite paginate_retry_S.
  unfold fault_reply at 1. cbn [err_of snd fst]. rewrite Hnr.
  unfold fault_reply at 1.
  unfold emit. cbn [world now trace err_of snd]. rewrite app_two.
  reflexivity.
Qed.

(** A page with a planted rate-limit error: the wait, the same request
    again, and the loop goes on with the page served. *)
Lemma fault_retry (p f : nat) all page (st : State Fake) rate msg rest :
  (1 <= p)%nat ->
  take_fault ep (Z.of_nat p) (fk_faults (world st))
  = Some (RateLimitError rate msg, rest) ->
  take_fault ep (Z.of_nat p) rest = None ->
  loop (S (S (S f))) (selector (Z.of_nat p)) all page st =
  next (S (S f)) (selector (Z.of_nat p)) all page
       (page_reply (sel (world st)) p)
       (mkState (with_faults (world st) rest)
                (now st + suspension (time_Sub (Reset rate) (now st)))
                (trace st ++
                 [ev (selector (Z.of_nat p))
                     (fault_reply (RateLimitError rate msg));
                  EvDbg (DbgRateLimit (time_Sub (Reset rate) (now st)));
                  EvSleep (time_Sub (Reset rate) (now st));
                  ev (selector (Z.of_nat p)) (page_reply (sel (world st)) p)])).
Proof.
  intros Hp Hfault Hrest. rewrite paginate_loop_S. cbv zeta.
  rewrite (fake_faulted p _ _ (RateLimitError rate msg) rest) by assumption.
  unfold fault_reply at 1. cbn [err_of snd fst].
  rewrite paginate_retry_S.
  unfold fault_reply at 1. cbn [err_of snd fst asRateLimitError]. cbv zeta.
  cbn [world now trace].
  rewrite fake_served by (cbn [fk_faults with_faults]; assumption).
  cbn [fst snd]. rewrite sel_faults.
  rewrite paginate_retry_S. cbn [page_reply err_of snd asRateLimitError].
  f_equal. f_equal. rewrite <- !app_assoc. reflexivity.
Qed.

Lemma page_count_last (l : list T) :
  last_page l 1 (page_count (List.length l)).
Proof.
  unfold last_page, page_count. split; [lia|]. split.
  - pose proof (Nat.div_mod_eq (List.length l + 99) 100).
    pose proof (Nat.mod_upper_bound (List.length l + 99) 100). lia.
  - intros q Hq.
    pose proof (Nat.div_mod_eq (List.length l + 99) 100).
    pose proof (Nat.mod_upper_bound (List.length l + 99) 100). lia.
Qed.

Lemma last_page_from (l : list T) (p P : nat) :
  (1 <= p <= P)%nat -> last_page l 1 P -> last_page l p P.
Proof.
  intros Hp (H1 & H2 & H3). split; [lia|]. split; [assumption|].
  intros q Hq. apply H3. lia.
Qed.

(** The three walks of the tests, from the first request on. *)

Lemma walk_all (fk : Fake) (t : Time) (fuel : nat) :
  (forall q, take_fault ep q (fk_faults fk) = None) ->
  (page_count (List.length (sel fk)) <= fuel)%nat ->
  loop fuel (mkListOptions 0 100) [] 1 (start fk t) =
  Some (sel fk, mkState fk t (clean_trace ev (sel fk))).
Proof.
  intros Hclean Hf.
  change (mkListOptions 0 100) with (selector (Z.of_nat 1)).
  rewrite (walk_clean (page_count (List.length (sel fk))));
    cbn [start world now trace]; auto.
  - unfold clean_trace.
    replace (100 * (1 - 1))%nat with 0%nat by lia. cbn [skipn app].
    replace (page_count (List.length (sel fk)) - 1 + 1)%nat
      with (page_count (List.length (sel fk))); [reflexivity|].
    unfold page_count. lia.
  - apply page_count_last.
  - unfold page_count in *. lia.
Qed.

Lemma walk_truncated (fk : Fake) (t : Time) (fuel k : nat) (e : error) :
  fk_faults fk = [(ep, Z.of_nat (S k), e)] ->
  asRateLimitError (Some e) = None ->
  (k = 0 \/ 100 * k < List.length (sel fk))%nat ->
  (k + 2 <= fuel)%nat ->
  loop fuel (mkListOptions 0 100) [] 1 (start fk t) =
  Some (firstn (100 * k) (sel fk),
        mkState (with_faults fk []) t
                (truncated_trace ev warning (sel fk) k e)).
Proof.
  intros Hfaults Hnr Hk Hf.
  change (mkListOptions 0 100) with (selector (Z.of_nat 1)).
  replace fuel with (k + S (S (fuel - (k + 2))))%nat by lia.
  rewrite walk_to; cbn [start world now trace]; [|lia|].
  2:{ intros q Hq. rewrite Hfaults. split; [|lia].
      apply take_fault_single_other. lia. }
  rewrite (fault_stop _ _ _ _ _ e []); cbn [world now trace]; [|lia| |assumption].
  2:{ rewrite Hfaults. replace (1 + k)%nat with (S k) by lia.
      apply take_fault_single. }
  rewrite page_counter.
  replace (100 * (1 - 1))%nat with 0%nat by lia. cbn [skipn app].
  unfold truncated_trace. replace (1 + k)%nat with (S k) by lia.
  reflexivity.
Qed.

Lemma walk_retried (fk : Fake) (t : Time) (fuel j : nat) rate msg :
  fk_faults fk = [(ep, Z.of_nat j, RateLimitError rate msg)] ->
  (1 <= j <= page_count (List.length (sel fk)))%nat ->
  (page_count (List.length (sel fk)) + 2 <= fuel)%nat ->
  loop fuel (mkListOptions 0 100) [] 1 (start fk t) =
  Some (sel fk,
        mkState (with_faults fk [])
                (t + suspension (time_Sub (Reset rate) t))
                (retried_trace ev (sel fk) j rate msg t)).
Proof.
  intros Hfaults Hj Hf.
  pose proof (page_count_last (sel fk)) as Hlast.
  change (mkListOptions 0 100) with (selector (Z.of_nat 1)).
  replace fuel with ((j - 1) + S (S (S (fuel - (j + 2)))))%nat by lia.
  rewrite walk_to; cbn [start world now trace]; [|lia|].
  2:{ intros q Hq. rewrite Hfaults. split.
      - apply take_fault_single_other. lia.
      - destruct Hlast as (_ & _ & Hmore). apply Hmore. lia. }
  replace (1 + (j - 1))%nat with j by lia.
  rewrite (fault_retry _ _ _ _ _ rate msg []);
    cbn [world now trace]; [|lia| |reflexivity].
  2:{ rewrite Hfaults. apply take_fault_single. }
  rewrite <- (sel_faults fk []).
  rewrite (next_clean (page_count (List.length (sel fk)))); try lia.
  - rewrite !sel_faults. cbn [app]. f_equal. f_equal.
    + replace (100 * (1 - 1))%nat with 0%nat by lia. cbn [skipn].
      apply firstn_skipn.
    + unfold retried_trace. f_equal. rewrite <- !app_assoc. f_equal.
      cbn [app]. do 3 f_equal.
      replace (page_count (List.length (sel fk)) - j + 1)%nat
        with (S (page_count (List.length (sel fk)) - j)) by lia.
      reflexivity.
  - rewrite sel_faults. apply last_page_from; [lia|assumption].
  - intros q Hq. reflexivity.
Qed.

End FakeWalk.

(** ** Reading the traces of the tests *)

Section TraceReading.

Context {T : Type}.
Variable ev : ListOptions -> Reply T -> Event.
Variable got : Event -> list T.
Hypothesis ev_request : forall opt r, request_of (ev opt r) = [opt].
Hypothesis ev_warning : forall opt r, warning_of (ev opt r) = [].
Hypothesis ev_sleep : forall opt r, sleep_of (ev opt r) = [].
Hypothesis got_ev : forall opt r, got (ev opt r) = delivered r.

Lemma requests_page_events (l : list T) (first count : nat) :
  requests (page_events ev l first count) = selectors first count.
Proof.
  unfold requests, page_events, selectors.
  induction (seq first count) as [|p ps IH]; [reflexivity|].
  cbn [map flat_map]. rewrite ev_request, IH. reflexivity.
Qed.

Lemma warnings_page_events (l : list T) (first count : nat) :
  warnings (page_events ev l first count) = [].
Proof.
  unfold warnings, page_events.
  induction (seq first count) as [|p ps IH]; [reflexivity|].
  cbn [map flat_map]. rewrite ev_warning, IH. reflexivity.
Qed.

Lemma sleeps_page_events (l : list T) (first count : nat) :
  sleeps (page_events ev l first count) = [].
Proof.
  unfold sleeps, page_events.
  induction (seq first count) as [|p ps IH]; [reflexivity|].
  cbn [map flat_map]. rewrite ev_sleep, IH. reflexivity.
Qed.

(** The pages served one after the other are the records in between. *)
Lemma received_page_events (l : list T) (count first : nat) :
  (1 <= first)%nat ->
  flat_map got (page_events ev l first count) =
  firstn (100 * count) (skipn (100 * (first - 1)) l).
Proof.
  unfold page_events. revert first.
  induction count as [|count IH]; intros first Hfirst.
  - rewrite Nat.mul_0_r. reflexivity.
  - cbn [seq map flat_map]. rewrite got_ev, IH by lia.
    unfold delivered, page_reply. cbn [err_of records fst snd].
    rewrite page_records_nat by assumption.
    replace (S first - 1)%nat with first by lia.
    replace (100 * first)%nat with (100 + 100 * (first - 1))%nat by lia.
    rewrite <- skipn_skipn.
    replace (100 * S count)%nat with (100 + 100 * count)%nat by lia.
    apply firstn_app_skipn.
Qed.

Lemma requests_clean (l : list T) :
  requests (clean_trace ev l) = selectors 1 (page_count (List.length l)).
Proof. apply requests_page_events. Qed.

Lemma warnings_truncated warning (l : list T) (k : nat) (e : error) :
  warnings (truncated_trace ev warning l k e) =
  [warning (int_wrap (1 + Z.of_nat k)) e].
Proof.
  unfold truncated_trace, warnings. rewrite flat_map_app.
  fold (warnings (page_events ev l 1 k)). rewrite warnings_page_events.
  cbn [flat_map app]. rewrite ev_warning. reflexivity.
Qed.

Lemma requests_truncated warning (l : list T) (k : nat) (e : error) :
  requests (truncated_trace ev warning l k e) = selectors 1 (S k).
Proof.
  unfold truncated_trace, requests. rewrite flat_map_app.
  fold (requests (page_events ev l 1 k)). rewrite requests_page_events.
  cbn [flat_map app]. rewrite ev_request.
  unfold selectors. rewrite seq_S, map_app. reflexivity.
Qed.

Lemma received_truncated warning (l : list T) (k : nat) (e : error) :
  (forall w, got (EvWarn w) = []) ->
  flat_map got (truncated_trace ev warning l k e) = firstn (100 * k) l.
Proof.
  intros got_warn. unfold truncated_trace. rewrite flat_map_app.
  rewrite received_page_events by lia.
  cbn [flat_map]. rewrite got_ev, got_warn.
  unfold delivered, fault_reply. cbn [err_of snd app]. rewrite app_nil_r.
  replace (100 * (1 - 1))%nat with 0%nat by lia. reflexivity.
Qed.

Lemma requests_retried (l : list T) (j : nat) rate msg t :
  requests (retried_trace ev l j rate msg t) =
  selectors 1 (j - 1) ++
  selector (Z.of_nat j) :: selectors j (page_count (List.length l) - j + 1).
Proof.
  unfold retried_trace, requests. rewrite !flat_map_app.
  fold (requests (page_events ev l 1 (j - 1))).
  fold (requests (page_events ev l j (page_count (List.length l) - j + 1))).
  rewrite !requests_page_events. cbn [flat_map app].
  rewrite ev_request. reflexivity.
Qed.

Lemma sleeps_retried (l : list T) (j : nat) rate msg t :
  sleeps (retried_trace ev l j rate msg t) = [time_Sub (Reset rate) t].
Proof.
  unfold retried_trace, sleeps. rewrite !flat_map_app.
  fold (sleeps (page_events ev l 1 (j - 1))).
  fold (sleeps (page_events ev l j (page_count (List.length l) - j + 1))).
  rewrite !sleeps_page_events. cbn [flat_map app].
  rewrite ev_sleep. reflexivity.
Qed.

Lemma warnings_retried (l : list T) (j : nat) rate msg t :
  warnings (retried_trace ev l j rate msg t) = [].
Proof.
  unfold retried_trace, warnings. rewrite !flat_map_app.
  fold (warnings (page_events ev l 1 (j - 1))).
  fold (warnings (page_events ev l j (page_count (List.length l) - j + 1))).
  rewrite !warnings_page_events. cbn [flat_map app].
  rewrite ev_warning. reflexivity.
Qed.

End TraceReading.

(** ** The fetchers over the paginated source *)

Section FakeFetchers.

Variable issues : list Issue.
Variable comments : Z -> list IssueComment.
Variable c : Client.
Variables ownerName repoName : string.
Variable issueNumber : Z.
Variable t : Time.

Abbreviation src := (source issues comments).
Abbreviation evI := (EvListByRepo ownerName repoName).
Abbreviation evC := (EvListComments ownerName repoName issueNumber).

Lemma issues_endpoint_clean (e : error) (p : nat) (q : Z) :
  take_fault IssuesEndpoint q
             (fk_faults (planted src (CommentsEndpoint issueNumber) p e)) = None.
Proof. reflexivity. Qed.

Lemma getIssues_clean (fuel : nat) (fk : Fake) :
  (forall q, take_fault IssuesEndpoint q (fk_faults fk) = None) ->
  (page_count (List.length (fk_issues fk)) <= fuel)%nat ->
  getIssues fuel c ownerName repoName (start fk t) =
  Some ((fk_issues fk, None), mkState fk t (clean_trace evI (fk_issues fk))).
Proof.
  intros Hclean Hf. rewrite getIssues_eq.
  change (Issues_ListByRepo c ownerName repoName)
    with (fake_serve fk_issues IssuesEndpoint).
  rewrite walk_all by auto. reflexivity.
Qed.

Lemma getIssueComments_clean (fuel : nat) (fk : Fake) :
  (forall q, take_fault (CommentsEndpoint issueNumber) q (fk_faults fk) = None) ->
  (page_count (List.length (fk_comments fk issueNumber)) <= fuel)%nat ->
  getIssueComments fuel c ownerName repoName issueNumber (start fk t) =
  Some ((fk_comments fk issueNumber, None),
        mkState fk t (clean_trace evC (fk_comments fk issueNumber))).
Proof.
  intros Hclean Hf. rewrite getIssueComments_eq.
  change (Issues_ListComments c ownerName repoName issueNumber)
    with (fake_serve (fun fk => fk_comments fk issueNumber)
                     (CommentsEndpoint issueNumber)).
  rewrite walk_all by auto. reflexivity.
Qed.

Lemma getIssues_truncated (fuel k : nat) (e : error) :
  asRateLimitError (Some e) = None ->
  (k = 0 \/ 100 * k < List.length issues)%nat ->
  (k + 2 <= fuel)%nat ->
  getIssues fuel c ownerName repoName
            (start (planted src IssuesEndpoint (S k) e) t) =
  Some ((firstn (100 * k) issues, None),
        mkState src t
                (truncated_trace evI (WarnIssues ownerName repoName) issues k e)).
Proof.
  intros Hnr Hk Hf. rewrite getIssues_eq.
  change (Issues_ListByRepo c ownerName repoName)
    with (fake_serve fk_issues IssuesEndpoint).
  rewrite (walk_truncated _ _ _ _ _ _ _ k e);
    auto; reflexivity.
Qed.

Lemma getIssueComments_truncated (fuel k : nat) (e : error) :
  asRateLimitError (Some e) = None ->
  (k = 0 \/ 100 * k < List.length (comments issueNumber))%nat ->
  (k + 2 <= fuel)%nat ->
  getIssueComments fuel c ownerName repoName issueNumber
    (start (planted src (CommentsEndpoint issueNumber) (S k) e) t) =
  Some ((firstn (100 * k) (comments issueNumber), None),
        mkState src t
                (truncated_trace evC (WarnComments ownerName repoName issueNumber)
                                 (comments issueNumber) k e)).
Proof.
  intros Hnr Hk Hf. rewrite getIssueComments_eq.
  change (Issues_ListComments c ownerName repoName issueNumber)
    with (fake_serve (fun fk => fk_comments fk issueNumber)
                     (CommentsEndpoint issueNumber)).
  rewrite (walk_truncated _ _ _ _ _ _ _ k e);
    auto; reflexivity.
Qed.

Lemma getIssues_retried (fuel j : nat) rate msg :
  (1 <= j <= page_count (List.length issues))%nat ->
  (page_count (List.length issues) + 2 <= fuel)%nat ->
  getIssues fuel c ownerName repoName
            (start (planted src IssuesEndpoint j (RateLimitError rate msg)) t) =
  Some ((issues, None),
        mkState src (t + suspension (time_Sub (Reset rate) t))
                (retried_trace evI issues j rate msg t)).
Proof.
  intros Hj Hf. rewrite getIssues_eq.
  change (Issues_ListByRepo c ownerName repoName)
    with (fake_serve fk_issues IssuesEndpoint).
  rewrite (walk_retried fk_issues IssuesEndpoint _ _ (fun _ _ => eq_refl)
                        _ _ _ j rate msg);
    auto; reflexivity.
Qed.

Lemma getIssueComments_retried (fuel j : nat) rate msg :
  (1 <= j <= page_count (List.length (comments issueNumber)))%nat ->
  (page_count (List.length (comments issueNumber)) + 2 <= fuel)%nat ->
  getIssueComments fuel c ownerName repoName issueNumber
    (start (planted src (CommentsEndpoint issueNumber) j
                    (RateLimitError rate msg)) t) =
  Some ((comments issueNumber, None),
        mkState src (t + suspension (time_Sub (Reset rate) t))
                (retried_trace evC (comments issueNumber) j rate msg t)).
Proof.
  intros Hj Hf. rewrite getIssueComments_eq.
  change (Issues_ListComments c ownerName repoName issueNumber)
    with (fake_serve (fun fk => fk_comments fk issueNumber)
                     (CommentsEndpoint issueNumber)).
  rewrite (walk_retried (fun fk => fk_comments fk issueNumber)
                        (CommentsEndpoint issueNumber) _ _
                        (fun _ _ => eq_refl) _ _ _ j rate msg);
    auto; reflexivity.
Qed.

End FakeFetchers.

Lemma received_clean {T} (ev : ListOptions -> Reply T -> Event)
      (got : Event -> list T) (l : list T) :
  (forall opt r, got (ev opt r) = delivered r) ->
  flat_map got (clean_trace ev l) = l.
Proof.
  intros got_ev. unfold clean_trace.
  rewrite (received_page_events ev got got_ev) by lia.
  replace (100 * (1 - 1))%nat with 0%nat by lia. cbn [skipn].
  apply firstn_all2.
  destruct (page_count_last l) as (_ & Hlen & _). exact Hlen.
Qed.

(** The paginated source, faults and all, has the measure the termination
    of the page loop asks for. *)
Lemma take_fault_length (ep : Endpoint) (p : Z) (fs : list Fault) e rest :
  take_fault ep p fs = Some (e, rest) -> S (List.length rest) = List.length fs.
Proof.
  revert rest. induction fs as [|[[ep' p'] e'] fs IH]; intros rest H.
  - discriminate.
  - cbn [take_fault] in H.
    destruct (Endpoint_eqb ep ep' && (p =? p')).
    + injection H as <- <-. reflexivity.
    + destruct (take_fault ep p fs) as [[e1 rest1]|]; [|discriminate].
      injection H as <- <-. cbn [List.length]. rewrite (IH rest1 eq_refl).
      reflexivity.
Qed.

Lemma pageIndex_nonzero (opt : ListOptions) : pageIndex opt <> 0.
Proof.
  unfold pageIndex. destruct (Z.eqb_spec (Page opt) 0); lia.
Qed.

Lemma fake_measure_decreases {T} (sel : Fake -> list T) (ep : Endpoint) :
  (forall fk fs, sel (with_faults fk fs) = sel fk) ->
  forall opt t fk,
    PerPage opt = 100 ->
    continuing (fst (fake_serve sel ep opt t fk)) = true ->
    (fake_measure sel (next_request opt (fst (fake_serve sel ep opt t fk)))
                  (snd (fake_serve sel ep opt t fk))
     < fake_measure sel opt fk)%nat.
Proof.
  intros Hsel opt t fk Hpp. unfold fake_serve, fake_list.
  destruct (take_fault ep (pageIndex opt) (fk_faults fk)) as [[e rest]|] eqn:Hf.
  - cbn [fst snd]. intros _. unfold next_request, fake_measure.
    cbn [err_of snd fst fk_faults with_faults]. rewrite Hsel.
    apply take_fault_length in Hf. lia.
  - cbn [fst snd]. unfold continuing, next_request, fake_measure.
    cbn [err_of snd fst resp NextPage]. rewrite Hpp. unfold next_page.
    pose proof (pageIndex_nonzero opt) as Hnz.
    destruct (Z.ltb_spec (pageIndex opt * 100) (Z.of_nat (List.length (sel fk))))
      as [Hlt|Hge]; [|discriminate].
    destruct (Z.eqb_spec (pageIndex opt + 1) 0) as [|Hne]; [discriminate|].
    intros _. unfold pageIndex at 1. cbn [Page].
    destruct (Z.eqb_spec (pageIndex opt + 1) 0); [contradiction|]. lia.
Qed.

(** ** The source behind a quota *)

(** A wait for a reset time that is still ahead moves the clock forward,
    and not beyond the reset time. *)
Lemma wait_ahead (reset t : Time) :
  t < reset ->
  t < t + suspension (time_Sub reset t) <= reset.
Proof.
  intros H. unfold suspension, time_Sub, maxDuration, minDuration.
  destruct (Z.ltb_spec (2 ^ 63 - 1) (reset - t)); [lia|].
  destruct (Z.ltb_spec (reset - t) (- 2 ^ 63)); lia.
Qed.

(** Behind a quota that is restored at [reset] the source has the measure
    the termination of the page loop asks for: it depends on the clock. *)
Lemma throttled_measure_decreases {T} (sel : Fake -> list T) (ep : Endpoint)
      (reset : Time) :
  (forall fk fs, sel (with_faults fk fs) = sel fk) ->
  forall opt t (th : Throttled (limited_until reset)),
    PerPage opt = 100 ->
    continuing (fst (throttled_serve sel ep opt t th)) = true ->
    (throttled_measure sel reset
       (next_request opt (fst (throttled_serve sel ep opt t th)))
       (next_clock t (fst (throttled_serve sel ep opt t th)))
       (snd (throttled_serve sel ep opt t th))
     < throttled_measure sel reset opt t th)%nat.
Proof.
  intros Hsel opt t th Hpp.
  unfold throttled_serve, throttled_list, limited_until.
  destruct (Z.ltb_spec t reset) as [Hlt|Hge].
  - intros _. cbn [fst snd]. unfold next_request, next_clock, fault_reply.
    cbn [err_of snd asRateLimitError Reset]. unfold throttled_measure.
    pose proof (wait_ahead reset t Hlt) as Hw.
    remember (suspension (time_Sub reset t)) as w. clear Heqw.
    unfold Time, Duration in *. lia.
  - cbn [fst snd]. intros Hc.
    pose proof (fake_measure_decreases sel ep Hsel opt t (th_source th) Hpp Hc)
      as Hdec.
    unfold fake_serve in Hdec. unfold throttled_measure. cbn [th_source].
    assert (Hclock : t <= next_clock t (fst (fake_list (sel (th_source th)) ep
                                                        opt (th_source th)))).
    { unfold next_clock, suspension.
      destruct (asRateLimitError _) as [rate|]; [|lia].
      pose proof (Z.le_max_l 0 (time_Sub (Reset rate) t)). lia. }
    remember (next_clock t _) as t' eqn:Ht'. clear Ht'.
    assert (H1 : Z.to_nat (reset - t') = 0%nat) by lia.
    assert (H2 : Z.to_nat (reset - t) = 0%nat) by lia.
    rewrite H1, H2. exact Hdec.
Qed.

(** Behind a quota that is never restored neither loop returns, whatever
    the fuel. *)
Section Forever.

Context {T : Type}.
Variable sel : Fake -> list T.
Variable ep : Endpoint.
Variable ev : ListOptions -> Reply T -> Event.
Variable warning : Z -> error -> LogLine.

Lemma forever_refused (opt : ListOptions) (t : Time)
      (th : Throttled limited_forever) :
  throttled_serve sel ep opt t th =
  (fault_reply (RateLimitError (mkRate 5000 0 (t + 3600000000000))
                               "API rate limit exceeded"), th).
Proof. reflexivity. Qed.

Lemma forever_retry (fuel : nat) :
  forall opt (r : Reply T) rate (st : State (Throttled limited_forever)),
    asRateLimitError (err_of r) = Some rate ->
    paginate_retry (throttled_serve sel ep) ev fuel opt r st = None.
Proof.
  induction fuel as [|fuel IH]; intros opt r rate st Hr; [reflexivity|].
  rewrite paginate_retry_S, Hr. cbv zeta. cbn [world now trace].
  rewrite forever_refused. cbn [fst snd].
  eapply IH. reflexivity.
Qed.

Lemma forever_loop (fuel : nat) (opt : ListOptions) (all : list T) (page : Z)
      (st : State (Throttled limited_forever)) :
  paginate_loop (throttled_serve sel ep) ev warning fuel opt all page st = None.
Proof.
  destruct fuel as [|fuel]; [reflexivity|].
  rewrite paginate_loop_S. cbv zeta. rewrite forever_refused. cbn [fst snd].
  unfold fault_reply at 1. cbn [err_of snd].
  erewrite forever_retry; reflexivity.
Qed.

End Forever.

(** ** The orchestrator, for any service *)

Section Orchestrator.

Context {E : Type} {svc : Service E}.

(** One turn of the loop over the issues. *)
Lemma backupIssues_range_cons (fuel : nat) c ownerName repoName
      (issue : Issue) (rest : list Issue) (st : State E) :
  backupIssues_range fuel c ownerName repoName (issue :: rest) st =
  let n := GetNumber issue in
  let werr := fst (Stdout_Write (JIssue issue) (world st)) in
  let e1 := snd (Stdout_Write (JIssue issue) (world st)) in
  match werr with
  | Some err =>
      Some (Some (errors_WithStack err),
            mkState e1 (now st)
                    (trace st ++ [EvDbg (DbgIssue n);
                                  EvWrite (JIssue issue) (Some err)]))
  | None =>
      if GetComments issue >? 0 then
        match getIssueComments fuel c ownerName repoName n
                (mkState e1 (now st)
                         (trace st ++
                          [EvDbg (DbgIssue n); EvWrite (JIssue issue) None;
                           EvPrintln;
                           EvDbg (DbgComments (GetComments issue) n)])) with
        | Some (fetched, st2) =>
            let cs := fst fetched in
            let werr2 := fst (Stdout_Write (JComments cs) (world st2)) in
            let e3 := snd (Stdout_Write (JComments cs) (world st2)) in
            match werr2 with
            | Some err =>
                Some (Some (errors_WithStack err),
                      mkState e3 (now st2)
                              (trace st2 ++ [EvWrite (JComments cs) (Some err)]))
            | None =>
                backupIssues_range fuel c ownerName repoName rest
                  (mkState e3 (now st2)
                           (trace st2 ++ [EvWrite (JComments cs) None;
                                          EvPrintln]))
            end
        | None => None
        end
      else
        backupIssues_range fuel c ownerName repoName rest
          (mkState e1 (now st)
                   (trace st ++ [EvDbg (DbgIssue n);
                                 EvWrite (JIssue issue) None; EvPrintln]))
  end.
Proof.
  cbn [backupIssues_range].
  unfold bind, dbg_Printf, jsonutil_Write, fmt_Println, emit, ret.
  cbn [world now trace]. cbv zeta.
  destruct (Stdout_Write (JIssue issue) (world st)) as [[err|] e1];
    cbn [fst snd world now trace].
  - rewrite app_two. reflexivity.
  - rewrite <- !app_assoc. cbn [app].
    destruct (GetComments issue >? 0); [|reflexivity].
    cbn [world now trace]. rewrite <- !app_assoc. cbn [app].
    pose proof (getIssueComments_eq fuel c ownerName repoName
                  (GetNumber issue)) as Heq.
    destruct (getIssueComments fuel c ownerName repoName (GetNumber issue) _)
      as [[fetched st2]|] eqn:Hget; [|reflexivity].
    rewrite Heq in Hget.
    destruct (paginate_loop _ _ _ fuel _ _ _ _) as [[all st2']|];
      [|discriminate].
    injection Hget as <- <-. cbn [fst snd].
    destruct (Stdout_Write (JComments all) (world st2')) as [[err|] e3];
      cbn [fst snd world now trace].
    + reflexivity.
    + rewrite app_two. reflexivity.
Qed.

(** A run over the issues that returns is a run of blocks. *)
Lemma range_blocks (fuel : nat) c ownerName repoName (issues : list Issue) :
  forall (st : State E) res st',
    backupIssues_range fuel c ownerName repoName issues st = Some (res, st') ->
    exists bs,
      Blocks fuel c ownerName repoName issues bs res /\
      trace st' = trace st ++ List.concat bs.
Proof.
  induction issues as [|issue rest IH]; intros st res st' H.
  - injection H as <- <-. exists []. split; [constructor|].
    cbn. rewrite app_nil_r. reflexivity.
  - rewrite backupIssues_range_cons in H. cbv zeta in H.
    destruct (fst (Stdout_Write (JIssue issue) (world st))) as [err|].
    + injection H as <- <-. eexists [_]. split.
      * apply Blocks_abort, Block_issue_unwritten.
      * cbn [List.concat trace]. rewrite app_nil_r. reflexivity.
    + destruct (GetComments issue >? 0) eqn:Hc.
      * destruct (getIssueComments fuel c ownerName repoName _ _)
          as [[fetched st2]|] eqn:Hget; [|discriminate].
        destruct (getIssueComments_trace _ _ _ _ _ _ _ _ Hget)
          as (evs & Htr & Hf & Hres & rep & more & Hfirst).
        cbn [trace] in Htr. subst fetched. cbn [fst] in H.
        assert (HCF : CommentsFetch fuel c ownerName repoName
                                    (GetNumber issue) evs
                                    (comments_received evs)).
        { eexists rep, more, _, st2. repeat split; eauto. }
        destruct (fst (Stdout_Write (JComments (comments_received evs))
                                    (world st2))) as [err|].
        -- injection H as <- <-. eexists [_]. split.
           ++ apply Blocks_abort.
              apply (Block_comments_unwritten _ _ _ _ _ evs _ err Hc HCF).
           ++ cbn [List.concat trace]. rewrite Htr, app_nil_r, <- !app_assoc.
              reflexivity.
        -- apply IH in H. destruct H as (bs & HB & Htr').
           eexists (_ :: bs). split.
           ++ apply Blocks_next; [|exact HB].
              apply (Block_comments _ _ _ _ _ evs _ Hc HCF).
           ++ cbn [List.concat trace] in *. rewrite Htr', Htr, <- !app_assoc.
              reflexivity.
      * apply IH in H. destruct H as (bs & HB & Htr').
        eexists (_ :: bs). split.
        -- apply Blocks_next; [|exact HB]. apply Block_plain. exact Hc.
        -- cbn [List.concat trace] in *. rewrite Htr', <- !app_assoc. reflexivity.
Qed.

(** A run of [backupIssues] that returns: the issues fetch, then blocks. *)
Lemma backupIssues_blocks (fuel : nat) ownerName repoName token
      (st : State E) res st' :
  backupIssues fuel ownerName repoName token st = Some (res, st') ->
  exists issues st1 evs bs,
    getIssues fuel (newClient token) ownerName repoName st
    = Some ((issues, None), st1) /\
    trace st1 = trace st ++ evs /\
    Forall (fun ev => fetch_event ev = true) evs /\
    issues = issues_received evs /\
    Blocks fuel (newClient token) ownerName repoName issues bs res /\
    trace st' = trace st1 ++ List.concat bs.
Proof.
  unfold backupIssues, bind. intros H.
  destruct (getIssues fuel (newClient token) ownerName repoName st)
    as [[fetched st1]|] eqn:Hget; [|discriminate].
  destruct (getIssues_trace _ _ _ _ _ _ _ Hget) as (evs & Htr & Hf & Hres).
  subst fetched. cbn [fst snd] in H.
  apply range_blocks in H. destruct H as (bs & HB & Htr').
  exists (issues_received evs), st1, evs, bs. auto 10.
Qed.

(** *** Reading blocks *)

Lemma fetch_event_not_written (evs : list Event) :
  Forall (fun ev => fetch_event ev = true) evs ->
  Forall (fun ev => write_failed ev = false) evs /\ stdout evs = [].
Proof.
  induction 1 as [|ev evs Hev _ [IH1 IH2]]; [split; [constructor|reflexivity]|].
  split.
  - constructor; [|assumption]. destruct ev as [| | | | |v [e|]|]; cbn in *;
      congruence.
  - unfold stdout in *. cbn [flat_map]. rewrite IH2.
    destruct ev as [| | |[]| |v [e|]|]; cbn in *; congruence.
Qed.

Lemma comments_received_app (a b : list Event) :
  comments_received (a ++ b) = comments_received a ++ comments_received b.
Proof. apply flat_map_app. Qed.

Lemma stdout_app (a b : list Event) : stdout (a ++ b) = stdout a ++ stdout b.
Proof. apply flat_map_app. Qed.

(** A block ends the run exactly when its last event is a failed write, and
    then with the error of that write. *)
Lemma block_abort (fuel : nat) c ownerName repoName issue b res :
  Block fuel c ownerName repoName issue b res ->
  match res with
  | None => Forall (fun ev => write_failed ev = false) b
  | Some e =>
      exists pre v err,
        b = pre ++ [EvWrite v (Some err)] /\
        e = errors_WithStack err /\
        Forall (fun ev => write_failed ev = false) pre
  end.
Proof.
  intros [err|Hc|evs cs err Hc HCF|evs cs Hc HCF].
  - exists [EvDbg (DbgIssue (GetNumber issue))], (JIssue issue), err.
    repeat split. repeat constructor.
  - repeat constructor.
  - destruct HCF as (rep & more & st2 & st3 & _ & Hf & _).
    apply fetch_event_not_written in Hf. destruct Hf as [Hf _].
    exists ([EvDbg (DbgIssue (GetNumber issue));
             EvWrite (JIssue issue) None; EvPrintln;
             EvDbg (DbgComments (GetComments issue) (GetNumber issue))]
              ++ evs), (JComments cs), err.
    split; [|split].
    + rewrite <- !app_assoc. reflexivity.
    + reflexivity.
    + apply Forall_app. split; [repeat constructor|exact Hf].
  - destruct HCF as (rep & more & st2 & st3 & _ & Hf & _).
    apply fetch_event_not_written in Hf. destruct Hf as [Hf _].
    apply Forall_app. split; [repeat constructor|].
    apply Forall_app. split; [exact Hf|repeat constructor].
Qed.

Lemma blocks_abort (fuel : nat) c ownerName repoName issues bs res :
  Blocks fuel c ownerName repoName issues bs res ->
  match res with
  | None => Forall (fun ev => write_failed ev = false) (List.concat bs)
  | Some e =>
      exists pre v err,
        List.concat bs = pre ++ [EvWrite v (Some err)] /\
        e = errors_WithStack err /\
        Forall (fun ev => write_failed ev = false) pre
  end.
Proof.
  induction 1 as [|issue rest b err Hb|issue rest b bs res Hb HB IH].
  - constructor.
  - apply block_abort in Hb. destruct Hb as (pre & v & e & -> & -> & Hpre).
    exists pre, v, e. cbn [List.concat]. rewrite app_nil_r. auto.
  - apply block_abort in Hb. cbn [List.concat]. destruct res as [e|].
    + destruct IH as (pre & v & err & -> & -> & Hpre).
      exists (b ++ pre), v, err. rewrite <- app_assoc.
      repeat split. apply Forall_app. auto.
    + apply Forall_app. auto.
Qed.


(** What a block that does not end the run puts on the data stream. *)
Lemma block_stdout (fuel : nat) c ownerName repoName issue b :
  Block fuel c ownerName repoName issue b None ->
  stdout b = emission issue (comments_received b) /\
  ((GetComments issue >? 0) = true ->
   exists st2 st3,
     getIssueComments fuel c ownerName repoName (GetNumber issue) st2
     = Some ((comments_received b, None), st3)).
Proof.
  intros Hb. inversion Hb as [|Hc| |evs cs Hc HCF]; subst.
  - split; [|congruence]. unfold emission. rewrite Hc. reflexivity.
  - destruct HCF as (rep & more & st2 & st3 & Hfirst & Hf & Hcs & Hget & _).
    destruct (fetch_event_not_written evs Hf) as [_ Hout].
    assert (Hrec : comments_received
                     ([EvDbg (DbgIssue (GetNumber issue));
                       EvWrite (JIssue issue) None; EvPrintln;
                       EvDbg (DbgComments (GetComments issue) (GetNumber issue))]
                        ++ evs ++ [EvWrite (JComments cs) None; EvPrintln])
                   = cs).
    { rewrite !comments_received_app. cbn. rewrite app_nil_r. auto. }
    rewrite Hrec. split.
    + unfold emission. rewrite Hc, !stdout_app, Hout. reflexivity.
    + intros _. exists st2, st3. exact Hget.
Qed.


Lemma blocks_each (fuel : nat) c ownerName repoName issues bs res :
  Blocks fuel c ownerName repoName issues bs res ->
  Forall2 (fun issue b => exists r, Block fuel c ownerName repoName issue b r)
          (firstn (List.length bs) issues) bs /\
  (res = None ->
   Forall2 (fun issue b => Block fuel c ownerName repoName issue b None)
           issues bs).
Proof.
  induction 1 as [|issue rest b err Hb|issue rest b bs res Hb HB [IH1 IH2]].
  - split; constructor.
  - split; [|discriminate]. cbn. constructor; [eauto|constructor].
  - split.
    + cbn. constructor; [eauto|assumption].
    + intros Hres. constructor; auto.
Qed.

(** *** Composition, fuel and termination *)

(** Once the turns of [pre] are through without error, the run goes on with
    the issues after them. *)
Lemma backupIssues_range_app (fuel : nat) c ownerName repoName
      (pre rest : list Issue) :
  forall (st st2 : State E),
    backupIssues_range fuel c ownerName repoName pre st = Some (None, st2) ->
    backupIssues_range fuel c ownerName repoName (pre ++ rest) st =
    backupIssues_range fuel c ownerName repoName rest st2.
Proof.
  induction pre as [|issue pre IH]; intros st st2 H.
  - injection H as <-. reflexivity.
  - cbn [app]. rewrite backupIssues_range_cons in H |- *. cbv zeta in *.
    destruct (fst (Stdout_Write (JIssue issue) (world st))) as [err|];
      [discriminate|].
    destruct (GetComments issue >? 0).
    + destruct (getIssueComments fuel c ownerName repoName _ _)
        as [[fetched st1]|]; [|discriminate].
      destruct (fst (Stdout_Write (JComments (fst fetched)) (world st1)))
        as [err|]; [discriminate|].
      apply IH. exact H.
    + apply IH. exact H.
Qed.

Lemma backupIssues_range_mono (f f' : nat) c ownerName repoName
      (issues : list Issue) :
  (f <= f')%nat ->
  forall (st : State E) x,
    backupIssues_range f c ownerName repoName issues st = Some x ->
    backupIssues_range f' c ownerName repoName issues st = Some x.
Proof.
  intros Hle. induction issues as [|issue rest IH]; intros st x H.
  - exact H.
  - rewrite backupIssues_range_cons in H |- *. cbv zeta in *.
    destruct (fst (Stdout_Write (JIssue issue) (world st))) as [err|];
      [exact H|].
    destruct (GetComments issue >? 0); [|apply IH; exact H].
    destruct (getIssueComments f c ownerName repoName _ _)
      as [[fetched st1]|] eqn:Hget; [|discriminate].
    rewrite (getIssueComments_mono f f' _ _ _ _ _ _ Hle Hget).
    destruct (fst (Stdout_Write (JComments (fst fetched)) (world st1)))
      as [err|]; [exact H|].
    apply IH. exact H.
Qed.



End Orchestrator.

(** * The claims *)

(** C1.  Pagination completeness.  Over a source of N records served in
    pages of 100 that never fails, [getIssues] returns the N issues and a nil
    error, and [getIssueComments] the N comments of the issue asked for, in
    the order of the source: the pages delivered, concatenated.  The
    requests sent are one per page, for page 1 first (the zero selector)
    and then for the next page each reply names, up to the last of the
    [page_count N] pages. *)
Theorem pagination_complete :
  forall (issues : list Issue) (comments : Z -> list IssueComment)
         (c : Client) (ownerName repoName : string) (issueNumber : Z)
         (t : Time) (fuel : nat),
    (page_count (List.length issues) <= fuel)%nat ->
    (page_count (List.length (comments issueNumber)) <= fuel)%nat ->
    (getIssues fuel c ownerName repoName (start (source issues comments) t) =
     Some ((issues, None),
           mkState (source issues comments) t
                   (clean_trace (EvListByRepo ownerName repoName) issues))
     /\ issues_received (clean_trace (EvListByRepo ownerName repoName) issues)
        = issues
     /\ requests (clean_trace (EvListByRepo ownerName repoName) issues)
        = selectors 1 (page_count (List.length issues)))
    /\
    (getIssueComments fuel c ownerName repoName issueNumber
                      (start (source issues comments) t) =
     Some ((comments issueNumber, None),
           mkState (source issues comments) t
                   (clean_trace (EvListComments ownerName repoName issueNumber)
                                (comments issueNumber)))
     /\ comments_received
          (clean_trace (EvListComments ownerName repoName issueNumber)
                       (comments issueNumber))
        = comments issueNumber
     /\ requests (clean_trace (EvListComments ownerName repoName issueNumber)
                              (comments issueNumber))
        = selectors 1 (page_count (List.length (comments issueNumber)))).
Proof.
  intros issues comments c ownerName repoName issueNumber t fuel Hi Hc.
  split; (split; [|split]).
  - apply getIssues_clean; [reflexivity|exact Hi].
  - apply received_clean. reflexivity.
  - apply requests_clean. reflexivity.
  - apply (getIssueComments_clean c ownerName repoName issueNumber t fuel
                                  (source issues comments));
      [reflexivity|exact Hc].
  - apply received_clean. reflexivity.
  - apply requests_clean. reflexivity.
Qed.

Lemma pagination_complete_witness :
  ((page_count (List.length (sample_issues 250)) <= 3)%nat /\
   (page_count (List.length (sample_comments 120)) <= 3)%nat) /\
  getIssues 3 (newClient "token") "acme" "widgets"
            (start (source (sample_issues 250) (fun _ => sample_comments 120)) 0)
  = Some ((sample_issues 250, None),
          mkState (source (sample_issues 250) (fun _ => sample_comments 120)) 0
                  (clean_trace (EvListByRepo "acme" "widgets")
                               (sample_issues 250))).
Proof.
  split.
  - split; vm_compute; lia.
  - apply (pagination_complete (sample_issues 250)
                               (fun _ => sample_comments 120)
                               (newClient "token") "acme" "widgets" 7 0 3);
      vm_compute; lia.
Defined.

(** C2.  Partial-failure truncation.  Over a source that serves pages 1 to
    k and answers the request for page k+1 with an error that is not a
    rate-limit error, [getIssues] (and likewise [getIssueComments]) returns
    exactly the records of pages 1 to k, in the order fetched, with a nil
    error, and logs exactly one warning, for that page and that error.
    Each fetcher is taken over its own listing: page k+1 is asked for
    when the issues, for [getIssues], or the comments of the issue, for
    [getIssueComments], go beyond page k. *)
Theorem partial_failure_truncation :
  forall (issues : list Issue) (comments : Z -> list IssueComment)
         (c : Client) (ownerName repoName : string) (issueNumber : Z)
         (t : Time) (k : nat) (e : error) (fuel : nat),
    asRateLimitError (Some e) = None ->
    (k + 2 <= fuel)%nat ->
    ((k = 0 \/ 100 * k < List.length issues)%nat ->
     getIssues fuel c ownerName repoName
               (start (planted (source issues comments) IssuesEndpoint (S k) e) t)
     = Some ((firstn (100 * k) issues, None),
             mkState (source issues comments) t
                     (truncated_trace (EvListByRepo ownerName repoName)
                                      (WarnIssues ownerName repoName)
                                      issues k e))
     /\ issues_received
          (truncated_trace (EvListByRepo ownerName repoName)
                           (WarnIssues ownerName repoName) issues k e)
        = firstn (100 * k) issues
     /\ warnings
          (truncated_trace (EvListByRepo ownerName repoName)
                           (WarnIssues ownerName repoName) issues k e)
        = [WarnIssues ownerName repoName (int_wrap (1 + Z.of_nat k)) e])
    /\
    ((k = 0 \/ 100 * k < List.length (comments issueNumber))%nat ->
     getIssueComments fuel c ownerName repoName issueNumber
       (start (planted (source issues comments)
                       (CommentsEndpoint issueNumber) (S k) e) t)
     = Some ((firstn (100 * k) (comments issueNumber), None),
             mkState (source issues comments) t
                     (truncated_trace
                        (EvListComments ownerName repoName issueNumber)
                        (WarnComments ownerName repoName issueNumber)
                        (comments issueNumber) k e))
     /\ comments_received
          (truncated_trace (EvListComments ownerName repoName issueNumber)
                           (WarnComments ownerName repoName issueNumber)
                           (comments issueNumber) k e)
        = firstn (100 * k) (comments issueNumber)
     /\ warnings
          (truncated_trace (EvListComments ownerName repoName issueNumber)
                           (WarnComments ownerName repoName issueNumber)
                           (comments issueNumber) k e)
        = [WarnComments ownerName repoName issueNumber
                        (int_wrap (1 + Z.of_nat k)) e]).
Proof.
  intros issues comments c ownerName repoName issueNumber t k e fuel Hnr Hf.
  split; intros Hk; (split; [|split]).
  - apply getIssues_truncated; assumption.
  - apply received_truncated; reflexivity.
  - apply warnings_truncated. reflexivity.
  - apply getIssueComments_truncated; assumption.
  - apply received_truncated; reflexivity.
  - apply warnings_truncated. reflexivity.
Qed.

(** 250 issues without comments, the third page of issues failing; and five
    issues, the third page of the 250 comments of issue 7 failing. *)
Lemma partial_failure_truncation_witness :
  ((asRateLimitError (Some (ErrorResponse 502 "Bad Gateway")) = None /\
    (2 + 2 <= 4)%nat /\
    (2 = 0 \/ 100 * 2 < List.length (sample_issues 250))%nat) /\
   getIssues 4 (newClient "token") "acme" "widgets"
             (start (planted (source (sample_issues 250) (fun _ => []))
                             IssuesEndpoint 3
                             (ErrorResponse 502 "Bad Gateway")) 0)
   = Some ((firstn 200 (sample_issues 250), None),
           mkState (source (sample_issues 250) (fun _ => [])) 0
                   (truncated_trace (EvListByRepo "acme" "widgets")
                                    (WarnIssues "acme" "widgets")
                                    (sample_issues 250) 2
                                    (ErrorResponse 502 "Bad Gateway"))))
  /\
  ((2 = 0 \/ 100 * 2 < List.length (sample_comments 250))%nat /\
   getIssueComments 4 (newClient "token") "acme" "widgets" 7
             (start (planted (source (sample_issues 5)
                                     (fun _ => sample_comments 250))
                             (CommentsEndpoint 7) 3
                             (ErrorResponse 502 "Bad Gateway")) 0)
   = Some ((firstn 200 (sample_comments 250), None),
           mkState (source (sample_issues 5) (fun _ => sample_comments 250)) 0
                   (truncated_trace (EvListComments "acme" "widgets" 7)
                                    (WarnComments "acme" "widgets" 7)
                                    (sample_comments 250) 2
                                    (ErrorResponse 502 "Bad Gateway")))).
Proof.
  assert (Hi : (2 = 0 \/ 100 * 2 < List.length (sample_issues 250))%nat)
    by (right; vm_compute; lia).
  assert (Hc : (2 = 0 \/ 100 * 2 < List.length (sample_comments 250))%nat)
    by (right; vm_compute; lia).
  split.
  - split; [split; [reflexivity|split; [lia|exact Hi]]|].
    exact (proj1 (proj1 (partial_failure_truncation
                           (sample_issues 250) (fun _ => [])
                           (newClient "token") "acme" "widgets" 7 0 2
                           (ErrorResponse 502 "Bad Gateway") 4
                           eq_refl (le_n 4))
                        Hi)).
  - split; [exact Hc|].
    exact (proj1 (proj2 (partial_failure_truncation
                           (sample_issues 5) (fun _ => sample_comments 250)
                           (newClient "token") "acme" "widgets" 7 0 2
                           (ErrorResponse 502 "Bad Gateway") 4
                           eq_refl (le_n 4))
                        Hc)).
Defined.

(** C5.  Rate-limit retry.  Over a source that answers the request for
    page j, page 1 included, with a rate-limit error once and serves it
    from then on, [getIssues] (and likewise [getIssueComments]) sleeps until
    the reset time and then sends the request for page j again, with the
    selector it had sent; what it returns is what it returns over the same
    source without the error.  Each fetcher is taken over its own listing:
    page j is one of the pages of the issues, for [getIssues], or of the
    comments of the issue, for [getIssueComments]. *)
Theorem rate_limit_retry :
  forall (issues : list Issue) (comments : Z -> list IssueComment)
         (c : Client) (ownerName repoName : string) (issueNumber : Z)
         (t : Time) (j : nat) (rate : Rate) (msg : string) (fuel : nat),
    ((1 <= j <= page_count (List.length issues))%nat ->
     (page_count (List.length issues) + 2 <= fuel)%nat ->
     getIssues fuel c ownerName repoName
               (start (planted (source issues comments) IssuesEndpoint j
                               (RateLimitError rate msg)) t)
     = Some ((issues, None),
             mkState (source issues comments)
                     (t + Z.max 0 (time_Sub (Reset rate) t))
                     (retried_trace (EvListByRepo ownerName repoName)
                                    issues j rate msg t))
     /\ option_map fst
          (getIssues fuel c ownerName repoName
                     (start (planted (source issues comments) IssuesEndpoint j
                                     (RateLimitError rate msg)) t))
        = option_map fst
            (getIssues fuel c ownerName repoName
                       (start (source issues comments) t))
     /\ requests (retried_trace (EvListByRepo ownerName repoName)
                                issues j rate msg t)
        = selectors 1 (j - 1) ++
          selector (Z.of_nat j) ::
          selectors j (page_count (List.length issues) - j + 1)
     /\ sleeps (retried_trace (EvListByRepo ownerName repoName)
                              issues j rate msg t)
        = [time_Sub (Reset rate) t])
    /\
    ((1 <= j <= page_count (List.length (comments issueNumber)))%nat ->
     (page_count (List.length (comments issueNumber)) + 2 <= fuel)%nat ->
     getIssueComments fuel c ownerName repoName issueNumber
       (start (planted (source issues comments) (CommentsEndpoint issueNumber)
                       j (RateLimitError rate msg)) t)
     = Some ((comments issueNumber, None),
             mkState (source issues comments)
                     (t + Z.max 0 (time_Sub (Reset rate) t))
                     (retried_trace
                        (EvListComments ownerName repoName issueNumber)
                        (comments issueNumber) j rate msg t))
     /\ option_map fst
          (getIssueComments fuel c ownerName repoName issueNumber
             (start (planted (source issues comments)
                             (CommentsEndpoint issueNumber) j
                             (RateLimitError rate msg)) t))
        = option_map fst
            (getIssueComments fuel c ownerName repoName issueNumber
                              (start (source issues comments) t))
     /\ requests (retried_trace (EvListComments ownerName repoName issueNumber)
                                (comments issueNumber) j rate msg t)
        = selectors 1 (j - 1) ++
          selector (Z.of_nat j) ::
          selectors j (page_count (List.length (comments issueNumber)) - j + 1)
     /\ sleeps (retried_trace (EvListComments ownerName repoName issueNumber)
                              (comments issueNumber) j rate msg t)
        = [time_Sub (Reset rate) t]).
Proof.
  intros issues comments c ownerName repoName issueNumber t j rate msg fuel.
  split; intros Hj Hf; (split; [|split; [|split]]).
  - apply getIssues_retried; assumption.
  - rewrite getIssues_retried by assumption.
    rewrite getIssues_clean; [reflexivity|reflexivity|].
    cbn [fk_issues source]. lia.
  - apply requests_retried. reflexivity.
  - apply sleeps_retried. reflexivity.
  - apply getIssueComments_retried; assumption.
  - rewrite getIssueComments_retried by assumption.
    rewrite getIssueComments_clean; [reflexivity|reflexivity|].
    cbn [fk_comments source]. lia.
  - apply requests_retried. reflexivity.
  - apply sleeps_retried. reflexivity.
Qed.

(** 250 issues without comments, the second page of issues refused once;
    and five issues, the third page of the 250 comments of issue 7 refused
    once. *)
Lemma rate_limit_retry_witness :
  (((1 <= 2 <= page_count (List.length (sample_issues 250)))%nat /\
    (page_count (List.length (sample_issues 250)) + 2 <= 5)%nat) /\
   getIssues 5 (newClient "token") "acme" "widgets"
             (start (planted (source (sample_issues 250) (fun _ => []))
                             IssuesEndpoint 2 (sample_rate_limit 500)) 100)
   = Some ((sample_issues 250, None),
           mkState (source (sample_issues 250) (fun _ => []))
                   (100 + Z.max 0 (time_Sub 500 100))
                   (retried_trace (EvListByRepo "acme" "widgets")
                                  (sample_issues 250) 2 (mkRate 5000 0 500)
                                  "API rate limit exceeded" 100)))
  /\
  (((1 <= 3 <= page_count (List.length (sample_comments 250)))%nat /\
    (page_count (List.length (sample_comments 250)) + 2 <= 5)%nat) /\
   getIssueComments 5 (newClient "token") "acme" "widgets" 7
             (start (planted (source (sample_issues 5)
                                     (fun _ => sample_comments 250))
                             (CommentsEndpoint 7) 3 (sample_rate_limit 500))
                    100)
   = Some ((sample_comments 250, None),
           mkState (source (sample_issues 5) (fun _ => sample_comments 250))
                   (100 + Z.max 0 (time_Sub 500 100))
                   (retried_trace (EvListComments "acme" "widgets" 7)
                                  (sample_comments 250) 3 (mkRate 5000 0 500)
                                  "API rate limit exceeded" 100))).
Proof.
  assert (Hji : (1 <= 2 <= page_count (List.length (sample_issues 250)))%nat)
    by (vm_compute; lia).
  assert (Hfi : (page_count (List.length (sample_issues 250)) + 2 <= 5)%nat)
    by (vm_compute; lia).
  assert (Hjc : (1 <= 3 <= page_count (List.length (sample_comments 250)))%nat)
    by (vm_compute; lia).
  assert (Hfc : (page_count (List.length (sample_comments 250)) + 2 <= 5)%nat)
    by (vm_compute; lia).
  split.
  - split; [split; assumption|].
    exact (proj1 (proj1 (rate_limit_retry
                           (sample_issues 250) (fun _ => [])
                           (newClient "token") "acme" "widgets" 7 100 2
                           (mkRate 5000 0 500) "API rate limit exceeded" 5)
                        Hji Hfi)).
  - split; [split; assumption|].
    exact (proj1 (proj2 (rate_limit_retry
                           (sample_issues 5) (fun _ => sample_comments 250)
                           (newClient "token") "acme" "widgets" 7 100 3
                           (mkRate 5000 0 500) "API rate limit exceeded" 5)
                        Hjc Hfc)).
Defined.

(** C3.  Whatever the service does, a fetcher that returns returns a nil
    error: no run of [getIssues] or [getIssueComments] hands an error to its
    caller.  It does return when the rate-limit errors and the pages of the
    listing come to an end (a measure on the request, the clock and the
    state of the service that every continuing reply lowers), and then with
    a nil error.  So the branch of [backupIssues] that returns the error of
    the issues fetch is never taken: the orchestrator is the program
    without it. *)
Theorem fetch_returns_nil_error :
  forall (E : Type) (svc : Service E) (c : Client)
         (ownerName repoName token : string) (issueNumber : Z) (st : State E),
    (forall fuel all err st',
        getIssues fuel c ownerName repoName st = Some ((all, err), st') ->
        err = None)
    /\ (forall fuel all err st',
           getIssueComments fuel c ownerName repoName issueNumber st
           = Some ((all, err), st') ->
           err = None)
    /\ (forall mu : ListOptions -> Time -> E -> nat,
           (forall opt t e,
               PerPage opt = 100 ->
               continuing (fst (Issues_ListByRepo c ownerName repoName opt t e))
               = true ->
               (mu (next_request opt
                      (fst (Issues_ListByRepo c ownerName repoName opt t e)))
                   (next_clock t
                      (fst (Issues_ListByRepo c ownerName repoName opt t e)))
                   (snd (Issues_ListByRepo c ownerName repoName opt t e))
                < mu opt t e)%nat) ->
           exists all st',
             forall fuel,
               (mu (mkListOptions 0 100) (now st) (world st) + 2 <= fuel)%nat ->
               getIssues fuel c ownerName repoName st = Some ((all, None), st'))
    /\ (forall mu : ListOptions -> Time -> E -> nat,
           (forall opt t e,
               PerPage opt = 100 ->
               continuing
                 (fst (Issues_ListComments c ownerName repoName issueNumber
                                           opt t e)) = true ->
               (mu (next_request opt
                      (fst (Issues_ListComments c ownerName repoName
                                                issueNumber opt t e)))
                   (next_clock t
                      (fst (Issues_ListComments c ownerName repoName
                                                issueNumber opt t e)))
                   (snd (Issues_ListComments c ownerName repoName issueNumber
                                             opt t e))
                < mu opt t e)%nat) ->
           exists all st',
             forall fuel,
               (mu (mkListOptions 0 100) (now st) (world st) + 2 <= fuel)%nat ->
               getIssueComments fuel c ownerName repoName issueNumber st
               = Some ((all, None), st'))
    /\ (forall fuel,
           backupIssues fuel ownerName repoName token st =
           match getIssues fuel (newClient token) ownerName repoName st with
           | Some (fetched, st') =>
               backupIssues_range fuel (newClient token) ownerName repoName
                                  (fst fetched) st'
           | None => None
           end).
Proof.
  intros E svc c ownerName repoName token issueNumber st.
  split; [|split; [|split; [|split]]].
  - intros fuel all err st'. rewrite getIssues_eq.
    destruct (paginate_loop _ _ _ fuel _ _ _ st) as [[all1 st1]|];
      congruence.
  - intros fuel all err st'. rewrite getIssueComments_eq.
    destruct (paginate_loop _ _ _ fuel _ _ _ st) as [[all1 st1]|];
      congruence.
  - intros mu Hmu.
    destruct (getIssues_terminates mu c ownerName repoName st Hmu)
      as (all & st' & Hrun & _).
    exists all, st'. exact Hrun.
  - intros mu Hmu.
    destruct (getIssueComments_terminates mu c ownerName repoName issueNumber
                                          st Hmu)
      as (all & st' & Hrun & _).
    exists all, st'. exact Hrun.
  - intros fuel. unfold backupIssues, bind. rewrite getIssues_eq.
    destruct (paginate_loop _ _ _ fuel _ _ _ st) as [[all st']|];
      reflexivity.
Qed.

(** Behind a quota restored at time 1000, from time 0. *)
Lemma fetch_returns_nil_error_witness :
  exists all st',
    forall fuel,
      (throttled_measure fk_issues 1000%Z (mkListOptions 0%Z 100%Z) 0%Z
                         (mkThrottled (limited_until 1000%Z) example_source)
       + 2 <= fuel)%nat ->
      getIssues fuel (newClient "token") "acme" "widgets"
                (start (mkThrottled (limited_until 1000) example_source) 0)
      = Some ((all, None), st').
Proof.
  exact (proj1 (proj2 (proj2
           (fetch_returns_nil_error
              (Throttled (limited_until 1000)) (throttled_service _)
              (newClient "token") "acme"%string "widgets"%string
              "token"%string 2
              (start (mkThrottled (limited_until 1000) example_source) 0))))
           (throttled_measure fk_issues 1000)
           (throttled_measure_decreases fk_issues IssuesEndpoint 1000
                                        (fun _ _ => eq_refl))).
Defined.

(** Behind a quota that is never restored the fetchers do not return,
    whatever the fuel, and neither does the backup: there is no run in which
    they hand a nil error to their caller. *)
Lemma limited_forever_never_returns :
  (forall fuel,
      getIssues fuel (newClient "token") "acme" "widgets"
                (start (mkThrottled limited_forever example_source) 0) = None)
  /\ (forall fuel,
         getIssueComments fuel (newClient "token") "acme" "widgets" 2
                          (start (mkThrottled limited_forever example_source) 0)
         = None)
  /\ (forall fuel,
         backupIssues fuel "acme" "widgets" "token"
                      (start (mkThrottled limited_forever example_source) 0)
         = None).
Proof.
  assert (Hi : forall fuel c (st : State (Throttled limited_forever)),
             getIssues fuel c "acme" "widgets" st = None).
  { intros fuel c st. rewrite getIssues_eq.
    change (Issues_ListByRepo c "acme" "widgets")
      with (throttled_serve (limit:=limited_forever) fk_issues IssuesEndpoint).
    rewrite forever_loop. reflexivity. }
  split; [|split].
  - intros fuel. apply Hi.
  - intros fuel. rewrite getIssueComments_eq.
    change (Issues_ListComments (newClient "token") "acme" "widgets" 2)
      with (throttled_serve (limit:=limited_forever)
                            (fun fk => fk_comments fk 2) (CommentsEndpoint 2)).
    rewrite forever_loop. reflexivity.
  - intros fuel. unfold backupIssues, bind. rewrite Hi. reflexivity.
Qed.

(** C9.  Termination.  If the service is such that rate-limit errors on a
    page and pages that name a next page come to an end (a measure on the
    request, the clock and the state of the service that each such reply
    lowers: a rate limit may lift with the clock alone), the page loop
    returns: with fuel beyond the measure [getIssues] (likewise
    [getIssueComments]) returns, with a nil error, the sequence accumulated
    from the pages delivered.  In particular over a source with no records
    it returns the empty sequence and a nil error, after one request. *)
Theorem page_loop_terminates :
  (forall (E : Type) (svc : Service E) (mu : ListOptions -> Time -> E -> nat)
          (c : Client) (ownerName repoName : string) (st : State E),
      (forall opt t e,
          PerPage opt = 100 ->
          continuing (fst (Issues_ListByRepo c ownerName repoName opt t e))
          = true ->
          (mu (next_request opt
                 (fst (Issues_ListByRepo c ownerName repoName opt t e)))
              (next_clock t
                 (fst (Issues_ListByRepo c ownerName repoName opt t e)))
              (snd (Issues_ListByRepo c ownerName repoName opt t e))
           < mu opt t e)%nat) ->
      exists all st',
        (forall fuel,
            (mu (mkListOptions 0 100) (now st) (world st) + 2 <= fuel)%nat ->
            getIssues fuel c ownerName repoName st = Some ((all, None), st'))
        /\ exists evs, trace st' = trace st ++ evs /\ all = issues_received evs)
  /\
  (forall (E : Type) (svc : Service E) (mu : ListOptions -> Time -> E -> nat)
          (c : Client) (ownerName repoName : string) (issueNumber : Z)
          (st : State E),
      (forall opt t e,
          PerPage opt = 100 ->
          continuing
            (fst (Issues_ListComments c ownerName repoName issueNumber opt t e))
          = true ->
          (mu (next_request opt
                 (fst (Issues_ListComments c ownerName repoName issueNumber
                                           opt t e)))
              (next_clock t
                 (fst (Issues_ListComments c ownerName repoName issueNumber
                                           opt t e)))
              (snd (Issues_ListComments c ownerName repoName issueNumber opt t e))
           < mu opt t e)%nat) ->
      exists all st',
        (forall fuel,
            (mu (mkListOptions 0 100) (now st) (world st) + 2 <= fuel)%nat ->
            getIssueComments fuel c ownerName repoName issueNumber st
            = Some ((all, None), st'))
        /\ exists evs,
             trace st' = trace st ++ evs /\ all = comments_received evs)
  /\
  (forall (issues : list Issue) (comments : Z -> list IssueComment)
          (c : Client) (ownerName repoName : string) (issueNumber : Z)
          (t : Time) (fuel : nat),
      (1 <= fuel)%nat ->
      getIssues fuel c ownerName repoName (start (source [] comments) t)
      = Some (([], None),
              mkState (source [] comments) t
                      [EvListByRepo ownerName repoName (mkListOptions 0 100)
                                    ([], mkResponse 0, None)])
      /\ (comments issueNumber = [] ->
          getIssueComments fuel c ownerName repoName issueNumber
                           (start (source issues comments) t)
          = Some (([], None),
                  mkState (source issues comments) t
                          [EvListComments ownerName repoName issueNumber
                                          (mkListOptions 0 100)
                                          ([], mkResponse 0, None)]))).
Proof.
  split; [|split].
  - intros E svc mu c ownerName repoName st Hmu.
    apply getIssues_terminates. exact Hmu.
  - intros E svc mu c ownerName repoName issueNumber st Hmu.
    apply getIssueComments_terminates. exact Hmu.
  - intros issues comments c ownerName repoName issueNumber t fuel Hf. split.
    + rewrite getIssues_clean; [reflexivity|reflexivity|exact Hf].
    + intros Hnone.
      rewrite getIssueComments_clean; cbn [fk_comments source].
      * rewrite Hnone. reflexivity.
      * reflexivity.
      * rewrite Hnone. exact Hf.
Qed.

(** 250 issues behind a quota that is restored at time 500, the request for
    the second page failing once more after that; from time 100.  The
    measure counts the time to wait. *)
Lemma page_loop_terminates_witness :
  exists all st',
    (forall fuel,
        (throttled_measure
           fk_issues 500%Z (mkListOptions 0%Z 100%Z) 100%Z
           (mkThrottled (limited_until 500%Z)
                        (planted (source (sample_issues 250) (fun _ => []))
                                 IssuesEndpoint 2 (sample_rate_limit 600%Z)))
         + 2 <= fuel)%nat ->
        getIssues fuel (newClient "token") "acme" "widgets"
                  (start (mkThrottled
                            (limited_until 500)
                            (planted (source (sample_issues 250) (fun _ => []))
                                     IssuesEndpoint 2 (sample_rate_limit 600)))
                         100)
        = Some ((all, None), st'))
    /\ getIssues 6 (newClient "token") "acme" "widgets"
                 (start (mkThrottled
                           (limited_until 500)
                           (planted (source (sample_issues 250) (fun _ => []))
                                    IssuesEndpoint 2 (sample_rate_limit 600)))
                        100)
       = Some ((sample_issues 250, None), st').
Proof.
  destruct (proj1 page_loop_terminates
                  (Throttled (limited_until 500)) (throttled_service _)
                  (throttled_measure fk_issues 500) (newClient "token")
                  "acme"%string "widgets"%string
                  (start (mkThrottled
                            (limited_until 500)
                            (planted (source (sample_issues 250) (fun _ => []))
                                     IssuesEndpoint 2 (sample_rate_limit 600)))
                         100)
                  (throttled_measure_decreases fk_issues IssuesEndpoint 500
                                               (fun _ _ => eq_refl)))
    as (all & st' & Hrun & _).
  exists all, st'. split; [exact Hrun|].
  pose proof (Hrun 1000%nat ltac:(vm_compute; lia)) as H1000.
  assert (H6 : getIssues 6 (newClient "token") "acme" "widgets"
                 (start (mkThrottled
                           (limited_until 500)
                           (planted (source (sample_issues 250) (fun _ => []))
                                    IssuesEndpoint 2 (sample_rate_limit 600)))
                        100)
               = getIssues 1000 (newClient "token") "acme" "widgets"
                 (start (mkThrottled
                           (limited_until 500)
                           (planted (source (sample_issues 250) (fun _ => []))
                                    IssuesEndpoint 2 (sample_rate_limit 600)))
                        100)) by (vm_compute; reflexivity).
  rewrite H6, H1000. f_equal. f_equal. f_equal.
  rewrite H1000 in H6. vm_compute in H6. injection H6 as <- _. reflexivity.
Defined.

Lemma stdout_concat (blocks : list (list Event)) :
  stdout (List.concat blocks) = flat_map stdout blocks.
Proof.
  induction blocks as [|b bs IH]; [reflexivity|].
  cbn [List.concat flat_map]. rewrite stdout_app, IH. reflexivity.
Qed.

Lemma emissions_of_blocks (issues : list Issue) (blocks : list (list Event)) :
  Forall2 (fun issue block =>
             stdout block = emission issue (comments_received block))
          issues blocks ->
  flat_map stdout blocks =
  flat_map (fun ib => emission (fst ib) (comments_received (snd ib)))
           (combine issues blocks).
Proof.
  induction 1 as [|issue block issues blocks Hb _ IH]; [reflexivity|].
  cbn [combine flat_map fst snd]. rewrite Hb, IH. reflexivity.
Qed.



(** C7.  Ordering.  In a run of [backupIssues] that returns without error,
    the data stream gets, for each issue in the order the issues fetch
    returned them, the issue as one JSON value and an empty line and then,
    when its comment count is positive, its comments as one JSON value and
    an empty line: the comments the comments fetch returned for that issue,
    which are the comments delivered to it, in the order delivered. *)
Theorem emission_order :
  forall (E : Type) (svc : Service E) (fuel : nat)
         (ownerName repoName token : string) (st st' : State E),
    backupIssues fuel ownerName repoName token st = Some (None, st') ->
    exists issues st1 blocks,
      getIssues fuel (newClient token) ownerName repoName st
      = Some ((issues, None), st1) /\
      trace st' = trace st1 ++ List.concat blocks /\
      stdout (trace st') =
      stdout (trace st) ++
      flat_map (fun ib => emission (fst ib) (comments_received (snd ib)))
               (combine issues blocks) /\
      Forall2 (fun issue block =>
                 stdout block = emission issue (comments_received block) /\
                 ((GetComments issue >? 0) = true ->
                  exists st2 st3,
                    getIssueComments fuel (newClient token) ownerName repoName
                                     (GetNumber issue) st2
                    = Some ((comments_received block, None), st3)))
              issues blocks.
Proof.
  intros E svc fuel ownerName repoName token st st' H.
  apply backupIssues_blocks in H.
  destruct H as (issues & st1 & evs & bs & Hget & Htr1 & Hf & _ & HB & Htr).
  destruct (blocks_each _ _ _ _ _ _ _ HB) as [_ Hall].
  specialize (Hall eq_refl).
  assert (Hblocks :
            Forall2 (fun issue block =>
                       stdout block = emission issue (comments_received block) /\
                       ((GetComments issue >? 0) = true ->
                        exists st2 st3,
                          getIssueComments fuel (newClient token) ownerName
                                           repoName (GetNumber issue) st2
                          = Some ((comments_received block, None), st3)))
                    issues bs).
  { eapply Forall2_impl; [|exact Hall].
    intros issue b Hb. eapply block_stdout. exact Hb. }
  exists issues, st1, bs. split; [exact Hget|]. split; [exact Htr|].
  split; [|exact Hblocks].
  rewrite Htr, Htr1, !stdout_app, stdout_concat.
  destruct (fetch_event_not_written evs Hf) as [_ ->]. rewrite app_nil_r.
  f_equal. apply emissions_of_blocks.
  eapply Forall2_impl; [|exact Hblocks]. intros issue b [Hb _]. exact Hb.
Qed.

Lemma emission_order_witness :
  exists st',
    example_run example_source = Some (None, st') /\
    stdout (trace st') =
    [OutJSON (JIssue (sample_issue 1 0)); OutNewline;
     OutJSON (JIssue (sample_issue 2 3)); OutNewline;
     OutJSON (JComments (sample_comments 3)); OutNewline] /\
    exists issues st1 blocks,
      getIssues 4 (newClient "token") "acme" "widgets" (start example_source 0)
      = Some ((issues, None), st1) /\
      trace st' = trace st1 ++ List.concat blocks /\
      stdout (trace st') =
      stdout (trace (start example_source 0)) ++
      flat_map (fun ib => emission (fst ib) (comments_received (snd ib)))
               (combine issues blocks).
Proof.
  destruct (example_run example_source) as [[[e|] st']|] eqn:H;
    [vm_compute in H; discriminate| |vm_compute in H; discriminate].
  exists st'. split; [reflexivity|]. split.
  - vm_compute in H. injection H as <-. reflexivity.
  - destruct (emission_order Fake fake_service 4 "acme" "widgets" "token"
                             (start example_source 0) st' H)
      as (issues & st1 & blocks & H1 & H2 & H3 & _).
    exists issues, st1, blocks. auto.
Defined.

(** C8.  Emission failure.  When the write of an issue fails, or the write
    of its comments, [backupIssues] returns at once with the error of that
    write (with the stack attached): the failed write is the last thing the
    run does, and the issues after it are not taken up, so nothing more is
    fetched or written.  Conversely a run that returns an error ends with a
    failed write, nothing fetched or written after it, and returns the
    error of that write; and a run that returns without error has no
    failed write in it.  So a failed write is the one thing that makes
    [backupIssues] return an error. *)
Theorem emission_failure_aborts :
  (forall (E : Type) (svc : Service E) (fuel : nat)
          (ownerName repoName token : string) (st : State E)
          (pre : list Issue) (issue : Issue) (rest : list Issue)
          (st1 st2 : State E),
      getIssues fuel (newClient token) ownerName repoName st
      = Some ((pre ++ issue :: rest, None), st1) ->
      backupIssues_range fuel (newClient token) ownerName repoName pre st1
      = Some (None, st2) ->
      (forall err e3,
          Stdout_Write (JIssue issue) (world st2) = (Some err, e3) ->
          backupIssues fuel ownerName repoName token st =
          Some (Some (errors_WithStack err),
                mkState e3 (now st2)
                        (trace st2 ++ [EvDbg (DbgIssue (GetNumber issue));
                                       EvWrite (JIssue issue) (Some err)])))
      /\
      (forall e3 cs st3 err e4,
          Stdout_Write (JIssue issue) (world st2) = (None, e3) ->
          0 < GetComments issue ->
          getIssueComments fuel (newClient token) ownerName repoName
            (GetNumber issue)
            (mkState e3 (now st2)
                     (trace st2 ++
                      [EvDbg (DbgIssue (GetNumber issue));
                       EvWrite (JIssue issue) None; EvPrintln;
                       EvDbg (DbgComments (GetComments issue)
                                          (GetNumber issue))]))
          = Some ((cs, None), st3) ->
          Stdout_Write (JComments cs) (world st3) = (Some err, e4) ->
          backupIssues fuel ownerName repoName token st =
          Some (Some (errors_WithStack err),
                mkState e4 (now st3)
                        (trace st3 ++ [EvWrite (JComments cs) (Some err)]))))
  /\
  (forall (E : Type) (svc : Service E) (fuel : nat)
          (ownerName repoName token : string) (st : State E)
          (res : option error) (st' : State E),
      backupIssues fuel ownerName repoName token st = Some (res, st') ->
      exists evs,
        trace st' = trace st ++ evs /\
        match res with
        | None => Forall (fun ev => write_failed ev = false) evs
        | Some e =>
            exists pre v err,
              evs = pre ++ [EvWrite v (Some err)] /\
              e = errors_WithStack err /\
              Forall (fun ev => write_failed ev = false) pre
        end).
Proof.
  split.
  - intros E svc fuel ownerName repoName token st pre issue rest st1 st2
           Hget Hpre.
    assert (Hrun : backupIssues fuel ownerName repoName token st =
                   backupIssues_range fuel (newClient token) ownerName repoName
                                      (issue :: rest) st2).
    { unfold backupIssues, bind. rewrite Hget. cbn [fst snd].
      apply backupIssues_range_app. exact Hpre. }
    rewrite Hrun, backupIssues_range_cons. cbv zeta. split.
    + intros err e3 Hw. rewrite Hw. reflexivity.
    + intros e3 cs st3 err e4 Hw Hpos Hfetch Hw2.
      rewrite Hw. cbn [fst snd].
      destruct (Z.gtb_spec (GetComments issue) 0) as [_|Hle]; [|lia].
      rewrite Hfetch. cbn [fst snd]. rewrite Hw2. reflexivity.
  - intros E svc fuel ownerName repoName token st res st' H.
    apply backupIssues_blocks in H.
    destruct H as (issues & st1 & evs & bs & _ & Htr1 & Hf & _ & HB & Htr).
    destruct (fetch_event_not_written evs Hf) as [Hok _].
    apply blocks_abort in HB.
    exists (evs ++ List.concat bs). split.
    + rewrite Htr, Htr1, app_assoc. reflexivity.
    + destruct res as [e|].
      * destruct HB as (pre & v & err & -> & -> & Hpre).
        exists (evs ++ pre), v, err. rewrite app_assoc.
        repeat split. apply Forall_app. auto.
      * apply Forall_app. auto.
Qed.

(** The data stream takes one write: the write of the second issue fails.
    It takes two: the write of the comments of the second issue fails. *)
Lemma emission_failure_aborts_witness :
  (exists st',
      example_run example_full_disk =
      Some (Some (withStack
                    (errorString "write /dev/stdout: no space left on device")),
            st') /\
      stdout (trace st') = [OutJSON (JIssue (sample_issue 1 0)); OutNewline])
  /\
  (exists st',
      example_run example_small_disk =
      Some (Some (withStack
                    (errorString "write /dev/stdout: no space left on device")),
            st') /\
      stdout (trace st') = [OutJSON (JIssue (sample_issue 1 0)); OutNewline;
                            OutJSON (JIssue (sample_issue 2 3)); OutNewline])
  /\
  (exists res st',
      example_run example_full_disk = Some (res, st') /\
      exists evs,
        trace st' = trace (start example_full_disk 0) ++ evs /\
        match res with
        | None => Forall (fun ev => write_failed ev = false) evs
        | Some e =>
            exists pre v err,
              evs = pre ++ [EvWrite v (Some err)] /\
              e = errors_WithStack err /\
              Forall (fun ev => write_failed ev = false) pre
        end).
Proof.
  split; [|split].
  - eexists. split.
    + exact (proj1 (proj1 emission_failure_aborts Fake fake_service 4%nat
                      "acme"%string "widgets"%string "token"%string
                      (start example_full_disk 0)
                      [sample_issue 1 0] (sample_issue 2 3) []
                      (mkState example_full_disk 0
                         [EvListByRepo "acme" "widgets" (mkListOptions 0 100)
                            ([sample_issue 1 0; sample_issue 2 3],
                             mkResponse 0, None)])
                      (mkState
                         (mkFake [sample_issue 1 0; sample_issue 2 3]
                                 (fun _ => sample_comments 3) [] (Some 0%nat))
                         0
                         [EvListByRepo "acme" "widgets" (mkListOptions 0 100)
                            ([sample_issue 1 0; sample_issue 2 3],
                             mkResponse 0, None);
                          EvDbg (DbgIssue 1);
                          EvWrite (JIssue (sample_issue 1 0)) None;
                          EvPrintln])
                      eq_refl eq_refl)
                   (errorString "write /dev/stdout: no space left on device")
                   (mkFake [sample_issue 1 0; sample_issue 2 3]
                           (fun _ => sample_comments 3) [] (Some 0%nat))
                   eq_refl).
    + reflexivity.
  - eexists. split.
    + exact (proj2 (proj1 emission_failure_aborts Fake fake_service 4%nat
                      "acme"%string "widgets"%string "token"%string
                      (start example_small_disk 0)
                      [sample_issue 1 0] (sample_issue 2 3) []
                      (mkState example_small_disk 0
                         [EvListByRepo "acme" "widgets" (mkListOptions 0 100)
                            ([sample_issue 1 0; sample_issue 2 3],
                             mkResponse 0, None)])
                      (mkState
                         (mkFake [sample_issue 1 0; sample_issue 2 3]
                                 (fun _ => sample_comments 3) [] (Some 1%nat))
                         0
                         [EvListByRepo "acme" "widgets" (mkListOptions 0 100)
                            ([sample_issue 1 0; sample_issue 2 3],
                             mkResponse 0, None);
                          EvDbg (DbgIssue 1);
                          EvWrite (JIssue (sample_issue 1 0)) None;
                          EvPrintln])
                      eq_refl eq_refl)
                   (mkFake [sample_issue 1 0; sample_issue 2 3]
                           (fun _ => sample_comments 3) [] (Some 0%nat))
                   (sample_comments 3)
                   (mkState
                      (mkFake [sample_issue 1 0; sample_issue 2 3]
                              (fun _ => sample_comments 3) [] (Some 0%nat))
                      0
                      [EvListByRepo "acme" "widgets" (mkListOptions 0 100)
                         ([sample_issue 1 0; sample_issue 2 3],
                          mkResponse 0, None);
                       EvDbg (DbgIssue 1);
                       EvWrite (JIssue (sample_issue 1 0)) None;
                       EvPrintln;
                       EvDbg (DbgIssue 2);
                       EvWrite (JIssue (sample_issue 2 3)) None;
                       EvPrintln;
                       EvDbg (DbgComments 3 2);
                       EvListComments "acme" "widgets" 2 (mkListOptions 0 100)
                         (sample_comments 3, mkResponse 0, None)])
                   (errorString "write /dev/stdout: no space left on device")
                   (mkFake [sample_issue 1 0; sample_issue 2 3]
                           (fun _ => sample_comments 3) [] (Some 0%nat))
                   eq_refl eq_refl eq_refl eq_refl).
    + reflexivity.
  - destruct (example_run example_full_disk) as [[res st']|] eqn:H;
      [|vm_compute in H; discriminate].
    exists res, st'. split; [reflexivity|].
    exact (proj2 emission_failure_aborts Fake fake_service 4%nat
                 "acme"%string "widgets"%string "token"%string
                 (start example_full_disk 0) res st' H).
Defined.

(** C10.  An issue that advertises comments gets a comments value even
    when none was fetched.  With a positive comment count and the issue
    written, when the comments fetch returns the empty sequence the
    orchestrator writes that empty comments value and an empty line: the
    turn of the issue returns with them on the data stream after the issue
    and its empty line, and the run goes on with the next issue.  That is
    the case when the first request for the comments fails with an error
    that is not a rate-limit error: the fetch then returns the empty
    sequence and a nil error, after one warning, and the turn puts the issue
    and the empty comments value on the data stream. *)
Theorem empty_comments_still_emitted :
  forall (E : Type) (svc : Service E) (fuel : nat) (c : Client)
         (ownerName repoName : string) (issue : Issue) (rest : list Issue)
         (st : State E) (e1 : E),
    0 < GetComments issue ->
    Stdout_Write (JIssue issue) (world st) = (None, e1) ->
    let n := GetNumber issue in
    let st1 :=
      mkState e1 (now st)
              (trace st ++ [EvDbg (DbgIssue n); EvWrite (JIssue issue) None;
                            EvPrintln;
                            EvDbg (DbgComments (GetComments issue) n)]) in
    (forall st2 e3,
        getIssueComments fuel c ownerName repoName n st1
        = Some (([], None), st2) ->
        Stdout_Write (JComments []) (world st2) = (None, e3) ->
        let st3 :=
          mkState e3 (now st2)
                  (trace st2 ++ [EvWrite (JComments []) None; EvPrintln]) in
        backupIssues_range fuel c ownerName repoName [issue] st
        = Some (None, st3)
        /\ backupIssues_range fuel c ownerName repoName (issue :: rest) st
           = backupIssues_range fuel c ownerName repoName rest st3
        /\ stdout (trace st3) =
           stdout (trace st) ++
           [OutJSON (JIssue issue); OutNewline;
            OutJSON (JComments []); OutNewline])
    /\
    (forall rep e2 err,
        (2 <= fuel)%nat ->
        Issues_ListComments c ownerName repoName n (mkListOptions 0 100)
                            (now st) e1 = (rep, e2) ->
        err_of rep = Some err ->
        asRateLimitError (Some err) = None ->
        getIssueComments fuel c ownerName repoName n st1 =
        Some (([], None),
              mkState e2 (now st)
                      (trace st1 ++
                       [EvListComments ownerName repoName n
                                       (mkListOptions 0 100) rep;
                        EvWarn (WarnComments ownerName repoName n 1 err)]))
        /\ forall e3,
             Stdout_Write (JComments []) e2 = (None, e3) ->
             backupIssues_range fuel c ownerName repoName [issue] st =
             Some (None,
                   mkState e3 (now st)
                           (trace st ++
                            [EvDbg (DbgIssue n); EvWrite (JIssue issue) None;
                             EvPrintln;
                             EvDbg (DbgComments (GetComments issue) n);
                             EvListComments ownerName repoName n
                                            (mkListOptions 0 100) rep;
                             EvWarn (WarnComments ownerName repoName n 1 err);
                             EvWrite (JComments []) None; EvPrintln]))).
Proof.
  intros E svc fuel c ownerName repoName issue rest st e1 Hpos Hw n st1.
  assert (Hturn : forall rest' st2 e3,
             getIssueComments fuel c ownerName repoName n st1
             = Some (([], None), st2) ->
             Stdout_Write (JComments []) (world st2) = (None, e3) ->
             backupIssues_range fuel c ownerName repoName (issue :: rest') st =
             backupIssues_range fuel c ownerName repoName rest'
               (mkState e3 (now st2)
                        (trace st2 ++ [EvWrite (JComments []) None; EvPrintln]))).
  { intros rest' st2 e3 Hget Hw2.
    rewrite backupIssues_range_cons. cbv zeta. rewrite Hw. cbn [fst snd].
    destruct (Z.gtb_spec (GetComments issue) 0) as [_|Hle]; [|lia].
    fold n. fold st1. rewrite Hget. cbn [fst snd]. rewrite Hw2.
    reflexivity. }
  assert (Hfetch : forall rep e2 err,
             (2 <= fuel)%nat ->
             Issues_ListComments c ownerName repoName n (mkListOptions 0 100)
                                 (now st) e1 = (rep, e2) ->
             err_of rep = Some err ->
             asRateLimitError (Some err) = None ->
             getIssueComments fuel c ownerName repoName n st1 =
             Some (([], None),
                   mkState e2 (now st)
                           (trace st1 ++
                            [EvListComments ownerName repoName n
                                            (mkListOptions 0 100) rep;
                             EvWarn (WarnComments ownerName repoName n 1 err)]))).
  { intros rep e2 err Hfuel Hserve Herr Hnr.
    rewrite getIssueComments_eq.
    destruct fuel as [|[|fuel']]; try lia.
    rewrite paginate_loop_S. cbv zeta. subst st1. cbn [world now trace].
    rewrite Hserve. cbn [fst snd]. rewrite Herr.
    rewrite paginate_retry_S, Herr, Hnr, Herr.
    unfold emit. cbn [world now trace]. rewrite app_two. reflexivity. }
  split.
  - intros st2 e3 Hget Hw2 st3. split; [|split].
    + rewrite (Hturn [] st2 e3 Hget Hw2). reflexivity.
    + apply Hturn; assumption.
    + destruct (getIssueComments_trace _ _ _ _ _ _ _ _ Hget)
        as (evs & Htr & Hf & _).
      destruct (fetch_event_not_written evs Hf) as [_ Hout].
      subst st3 st1. cbn [trace] in *.
      rewrite Htr, !stdout_app, Hout. cbn. rewrite app_nil_r, <- app_assoc.
      reflexivity.
  - intros rep e2 err Hfuel Hserve Herr Hnr.
    split; [apply Hfetch; assumption|].
    intros e3 Hw2.
    rewrite (Hturn [] _ e3 (Hfetch rep e2 err Hfuel Hserve Herr Hnr) Hw2).
    cbn [backupIssues_range ret now trace]. subst st1. cbn [trace].
    rewrite <- !app_assoc. reflexivity.
Qed.

(** The scenario of the specification with the comments listing of issue 2
    failing: the turn of issue 2 writes the issue and an empty comments
    value. *)
Lemma empty_comments_still_emitted_witness :
  (0 < GetComments (sample_issue 2 3) /\
   Stdout_Write (JIssue (sample_issue 2 3))
                (planted example_source (CommentsEndpoint 2) 1
                         (ErrorResponse 502 "Bad Gateway"))
   = (None, planted example_source (CommentsEndpoint 2) 1
                    (ErrorResponse 502 "Bad Gateway"))) /\
  backupIssues_range 2 (newClient "token") "acme" "widgets"
    [sample_issue 2 3]
    (start (planted example_source (CommentsEndpoint 2) 1
                    (ErrorResponse 502 "Bad Gateway")) 0)
  = Some (None,
          mkState example_source 0
                  ([] ++ [EvDbg (DbgIssue 2);
                          EvWrite (JIssue (sample_issue 2 3)) None;
                          EvPrintln; EvDbg (DbgComments 3 2);
                          EvListComments "acme" "widgets" 2
                            (mkListOptions 0 100)
                            (fault_reply (ErrorResponse 502 "Bad Gateway"));
                          EvWarn (WarnComments "acme" "widgets" 2 1
                                               (ErrorResponse 502 "Bad Gateway"));
                          EvWrite (JComments []) None; EvPrintln])).
Proof.
  split.
  - split; [reflexivity|reflexivity].
  - apply (proj2 (proj2 (empty_comments_still_emitted
                    Fake fake_service 2 (newClient "token") "acme" "widgets"
                    (sample_issue 2 3) []
                    (start (planted example_source (CommentsEndpoint 2) 1
                                    (ErrorResponse 502 "Bad Gateway")) 0)
                    (planted example_source (CommentsEndpoint 2) 1
                             (ErrorResponse 502 "Bad Gateway"))
                    eq_refl eq_refl)
                 (fault_reply (ErrorResponse 502 "Bad Gateway"))
                 example_source (ErrorResponse 502 "Bad Gateway")
                 (le_n 2) eq_refl eq_refl eq_refl)).
    reflexivity.
Defined.

(** * Further properties of the code *)

(** ** The shape of every page walk *)

Lemma settled_cons {T} (r : Reply T) (rest : list (Reply T)) :
  settled rest = true -> settled (r :: rest) = continuing r.
Proof.
  destruct rest as [|r1 rest]; [discriminate|].
  intros H. cbn [settled] in *. rewrite H. apply andb_true_r.
Qed.

Lemma settled_step {T} (r r1 : Reply T) (rest : list (Reply T)) :
  settled (r :: r1 :: rest) = continuing r && settled (r1 :: rest).
Proof. reflexivity. Qed.

Lemma not_rate_limit {T} (r : Reply T) :
  is_rate_limit r = false -> asRateLimitError (err_of r) = None.
Proof.
  unfold is_rate_limit. destruct (asRateLimitError (err_of r)); congruence.
Qed.

Lemma hard_error_stops {T} (r : Reply T) (e : error) :
  is_rate_limit r = false -> err_of r = Some e -> continuing r = false.
Proof.
  unfold is_rate_limit, continuing. intros Hnr He. rewrite He in *.
  destruct e; cbn in *; congruence.
Qed.

Section WalkShape.

Context {E : Type} {svc : Service E} {T : Type}.
Variable serve : ListOptions -> Time -> E -> Reply T * E.
Variable ev : ListOptions -> Reply T -> Event.
Variable warning : Z -> error -> LogLine.

Lemma retry_shape (f : nat) :
  forall opt r st r' st',
    paginate_retry serve ev f opt r st = Some (r', st') ->
    exists mids X,
      trace st' = trace st ++ X /\
      is_rate_limit r' = false /\
      (forall page tail,
          after_reply ev warning opt page (now st) r (mids ++ tail) =
          X ++ after_reply ev warning opt page (now st') r' tail) /\
      (forall tail, settled (r :: mids ++ tail) = settled (r' :: tail)) /\
      (forall tail,
          fetch_clock (now st) (r :: mids ++ tail) =
          fetch_clock (now st') (r' :: tail)) /\
      (forall tail,
          flat_map delivered (r :: mids ++ tail) =
          flat_map delivered (r' :: tail)).
Proof.
  induction f as [|f IH]; intros opt r st r' st' H; [discriminate|].
  rewrite paginate_retry_S in H.
  destruct (asRateLimitError (err_of r)) as [rate|] eqn:Hr.
  - cbv zeta in H. cbn [world now trace] in H.
    set (t1 := now st + suspension (time_Sub (Reset rate) (now st))) in *.
    set (r1 := fst (serve opt t1 (world st))) in *.
    apply IH in H.
    destruct H as (mids & X & Htr & Hnr & Hafter & Hset & Hclk & Hdel).
    cbn [world now trace] in *.
    exists (r1 :: mids),
      (EvDbg (DbgRateLimit (time_Sub (Reset rate) (now st))) ::
       EvSleep (time_Sub (Reset rate) (now st)) :: ev opt r1 :: X).
    split; [|split; [|split; [|split; [|split]]]].
    + rewrite Htr, <- !app_assoc. reflexivity.
    + exact Hnr.
    + intros page tail. unfold after_reply at 1. rewrite Hr.
      cbn [app fetch_trace]. fold t1.
      change (match asRateLimitError (err_of r1) with
              | Some rate0 => _
              | None => _
              end)
        with (after_reply ev warning opt page t1 r1 (mids ++ tail)).
      rewrite Hafter. reflexivity.
    + intros tail. cbn [app]. rewrite settled_step.
      rewrite (rate_limit_continuing r rate Hr). apply Hset.
    + intros tail. cbn [app fetch_clock]. rewrite Hr. fold t1. apply Hclk.
    + intros tail. rewrite <- (Hdel tail). cbn [app].
      change (flat_map delivered (r :: r1 :: mids ++ tail))
        with (delivered r ++ flat_map delivered (r1 :: mids ++ tail)).
      unfold delivered at 1.
      destruct (err_of r); [reflexivity|discriminate].
  - injection H as <- <-. exists [], []. rewrite app_nil_r.
    unfold is_rate_limit. rewrite Hr. repeat split.
Qed.

(** Every walk that returns is the walk [fetch_trace] describes, over the
    replies it received. *)
Lemma loop_shape (f : nat) :
  forall opt all page st res st',
    paginate_loop serve ev warning f opt all page st = Some (res, st') ->
    exists rs,
      settled rs = true /\
      trace st' = trace st ++ fetch_trace ev warning opt page (now st) rs /\
      now st' = fetch_clock (now st) rs /\
      res = all ++ flat_map delivered rs.
Proof.
  induction f as [|f IH]; intros opt all page st res st' H; [discriminate|].
  assert (Hnext : forall r st1,
             err_of r = None ->
             paginate_next serve ev warning f opt all page r st1
             = Some (res, st') ->
             exists tail,
               settled (r :: tail) = true /\
               trace st' = trace st1 ++
                           after_reply ev warning opt page (now st1) r tail /\
               now st' = fetch_clock (now st1) (r :: tail) /\
               res = all ++ flat_map delivered (r :: tail)).
  { intros r st1 He Hn. unfold paginate_next in Hn.
    destruct (NextPage (resp r) =? 0) eqn:Hz.
    - injection Hn as <- <-. exists [].
      unfold after_reply, continuing. cbn [settled fetch_clock flat_map].
      unfold continuing, delivered. rewrite He, Hz. cbn [asRateLimitError].
      rewrite !app_nil_r. auto.
    - apply IH in Hn. destruct Hn as (rs & Hs & Htr & Hclk & Hres).
      exists rs. split; [|split; [|split]].
      + rewrite (settled_cons r rs Hs). unfold continuing.
        rewrite He, Hz. reflexivity.
      + unfold after_reply. rewrite He, Hz. cbn [asRateLimitError].
        exact Htr.
      + cbn [fetch_clock]. rewrite He. cbn [asRateLimitError]. exact Hclk.
      + cbn [flat_map]. unfold delivered at 1. rewrite He, Hres, app_assoc.
        reflexivity. }
  rewrite paginate_loop_S in H. cbv zeta in H.
  set (r0 := fst (serve opt (now st) (world st))) in *.
  destruct (err_of r0) as [e|] eqn:He.
  - destruct (paginate_retry serve ev f opt r0 _) as [[r' st2]|] eqn:Hretry;
      [|discriminate].
    apply retry_shape in Hretry.
    destruct Hretry as (mids & X & Htr & Hnr & Hafter & Hset & Hclk & Hdel).
    cbn [world now trace] in *.
    destruct (err_of r') as [e'|] eqn:He'.
    + injection H as <- <-. exists (r0 :: mids).
      specialize (Hafter page []). specialize (Hset []).
      specialize (Hclk []). specialize (Hdel []).
      rewrite app_nil_r in *. split; [|split; [|split]].
      * rewrite Hset. cbn [settled].
        rewrite (hard_error_stops r' e' Hnr He'). reflexivity.
      * cbn [emit trace fetch_trace].
        change (match asRateLimitError (err_of r0) with
                | Some rate => _
                | None => _
                end)
          with (after_reply ev warning opt page (now st) r0 mids).
        rewrite Hafter, Htr. unfold after_reply.
        rewrite (not_rate_limit r' Hnr), He', <- !app_assoc. reflexivity.
      * cbn [emit now]. rewrite Hclk. cbn [fetch_clock].
        rewrite (not_rate_limit r' Hnr). reflexivity.
      * rewrite Hdel. cbn [flat_map]. unfold delivered. rewrite He'.
        rewrite !app_nil_r. reflexivity.
    + apply Hnext in H; [|assumption].
      destruct H as (tail & Hs & Htr' & Hclk' & Hres).
      exists (r0 :: mids ++ tail). split; [|split; [|split]].
      * rewrite Hset. exact Hs.
      * cbn [fetch_trace].
        change (match asRateLimitError (err_of r0) with
                | Some rate => _
                | None => _
                end)
          with (after_reply ev warning opt page (now st) r0 (mids ++ tail)).
        rewrite Hafter, Htr', Htr, <- !app_assoc. reflexivity.
      * rewrite Hclk. exact Hclk'.
      * rewrite Hdel. exact Hres.
  - apply Hnext in H; [|assumption].
    destruct H as (tail & Hs & Htr' & Hclk' & Hres).
    cbn [world now trace] in *.
    exists (r0 :: tail). split; [|split; [|split]]; try assumption.
    cbn [fetch_trace].
    change (match asRateLimitError (err_of r0) with
            | Some rate => _
            | None => _
            end)
      with (after_reply ev warning opt page (now st) r0 tail).
    rewrite Htr', <- app_assoc. reflexivity.
Qed.

End WalkShape.

(** ** Reading the trace of a walk *)

Lemma settled_inv {T} (r : Reply T) (rest : list (Reply T)) :
  settled (r :: rest) = true ->
  (continuing r = false /\ rest = []) \/
  (continuing r = true /\ settled rest = true).
Proof.
  destruct rest as [|r1 rest].
  - cbn [settled]. intros H. left. split; [|reflexivity].
    destruct (continuing r); [discriminate|reflexivity].
  - rewrite settled_step. intros H. apply andb_true_iff in H. right. exact H.
Qed.

Lemma page_stops {T} (r : Reply T) :
  err_of r = None -> (NextPage (resp r) =? 0) = true -> continuing r = false.
Proof. unfold continuing. intros -> ->. reflexivity. Qed.

Section ShapeReading.

Context {T : Type}.
Variable ev : ListOptions -> Reply T -> Event.
Variable warning : Z -> error -> LogLine.
Variable rep : Event -> list (Reply T).
Hypothesis ev_request : forall opt r, request_of (ev opt r) = [opt].
Hypothesis ev_warning : forall opt r, warning_of (ev opt r) = [].
Hypothesis ev_sleep : forall opt r, sleep_of (ev opt r) = [].
Hypothesis rep_ev : forall opt r, rep (ev opt r) = [r].
Hypothesis rep_dbg : forall l, rep (EvDbg l) = [].
Hypothesis rep_warn : forall l, rep (EvWarn l) = [].
Hypothesis rep_sleep : forall d, rep (EvSleep d) = [].

(** The cases of one reply in a settled walk. *)
Lemma settled_cases (r : Reply T) (rest : list (Reply T)) :
  settled (r :: rest) = true ->
  (exists rate, asRateLimitError (err_of r) = Some rate /\
                settled rest = true) \/
  (exists e, asRateLimitError (err_of r) = None /\ err_of r = Some e /\
             rest = []) \/
  (asRateLimitError (err_of r) = None /\ err_of r = None /\
   (NextPage (resp r) =? 0) = true /\ rest = []) \/
  (asRateLimitError (err_of r) = None /\ err_of r = None /\
   (NextPage (resp r) =? 0) = false /\ settled rest = true).
Proof.
  intros H. apply settled_inv in H.
  destruct (asRateLimitError (err_of r)) as [rate|] eqn:Hr.
  - left. exists rate. split; [reflexivity|].
    rewrite (rate_limit_continuing r rate Hr) in H.
    destruct H as [[? _]|[_ ?]]; [discriminate|assumption].
  - right. destruct (err_of r) as [e|] eqn:He.
    + left. exists e. assert (Hc : continuing r = false).
      { apply (hard_error_stops r e); [|exact He].
        unfold is_rate_limit. rewrite He, Hr. reflexivity. }
      rewrite Hc in H. destruct H as [[_ ?]|[? _]]; [auto|discriminate].
    + right. destruct (NextPage (resp r) =? 0) eqn:Hz.
      * left. rewrite (page_stops r He Hz) in H.
        destruct H as [[_ ?]|[? _]]; [auto|discriminate].
      * right. rewrite (page_continuing r He Hz) in H.
        destruct H as [[? _]|[_ ?]]; [discriminate|auto].
Qed.

Lemma replies_fetch_trace (rs : list (Reply T)) :
  forall opt page t,
    settled rs = true ->
    flat_map rep (fetch_trace ev warning opt page t rs) = rs.
Proof.
  induction rs as [|r rest IH]; intros opt page t Hs; [discriminate|].
  cbn [fetch_trace flat_map]. rewrite rep_ev. cbn [app]. f_equal.
  destruct (settled_cases r rest Hs)
    as [(rate & Hr & Hrest)|[(e & Hr & He & ->)|[(Hr & He & Hz & ->)|
                                                (Hr & He & Hz & Hrest)]]];
    rewrite Hr, ?He, ?Hz.
  - cbn [flat_map]. rewrite rep_dbg, rep_sleep. apply IH. exact Hrest.
  - cbn [flat_map]. rewrite rep_warn. reflexivity.
  - reflexivity.
  - apply IH. exact Hrest.
Qed.

Lemma requests_fetch_trace (rs : list (Reply T)) :
  forall opt page t,
    settled rs = true ->
    requests (fetch_trace ev warning opt page t rs) = selectors_for opt rs.
Proof.
  unfold requests.
  induction rs as [|r rest IH]; intros opt page t Hs; [discriminate|].
  cbn [fetch_trace flat_map selectors_for]. rewrite ev_request.
  cbn [app]. f_equal. unfold next_request.
  destruct (settled_cases r rest Hs)
    as [(rate & Hr & Hrest)|[(e & Hr & He & ->)|[(Hr & He & Hz & ->)|
                                                (Hr & He & Hz & Hrest)]]];
    rewrite Hr, ?He, ?Hz.
  - cbn [flat_map request_of app].
    destruct (err_of r) as [e|]; [|discriminate]. apply IH. exact Hrest.
  - reflexivity.
  - reflexivity.
  - apply IH. exact Hrest.
Qed.

Lemma warnings_fetch_trace (rs : list (Reply T)) :
  forall opt page t,
    settled rs = true ->
    warnings (fetch_trace ev warning opt page t rs) =
    fetch_warning warning page rs.
Proof.
  unfold warnings.
  induction rs as [|r rest IH]; intros opt page t Hs; [discriminate|].
  cbn [fetch_trace flat_map]. rewrite ev_warning. cbn [app].
  unfold fetch_warning, pages_received. cbn [filter].
  destruct (settled_cases r rest Hs)
    as [(rate & Hr & Hrest)|[(e & Hr & He & ->)|[(Hr & He & Hz & ->)|
                                                (Hr & He & Hz & Hrest)]]];
    rewrite Hr, ?He, ?Hz.
  - cbn [flat_map warning_of app].
    destruct (err_of r) as [e|] eqn:He; [|discriminate].
    rewrite IH by exact Hrest. unfold fetch_warning, pages_received.
    destruct rest as [|r1 rest]; [discriminate|]. reflexivity.
  - cbn [flat_map warning_of app last List.length Nat.iter]. rewrite He.
    reflexivity.
  - cbn [last]. rewrite He. reflexivity.
  - rewrite IH by exact Hrest. unfold fetch_warning, pages_received.
    destruct rest as [|r1 rest]; [discriminate|].
    change (last (r :: r1 :: rest) ([], mkResponse 0, None))
      with (last (r1 :: rest) ([], mkResponse 0, None)).
    destruct (err_of (last (r1 :: rest) ([], mkResponse 0, None)));
      [|reflexivity].
    cbn [List.length]. rewrite Nat.iter_succ_r. reflexivity.
Qed.

Lemma sleeps_fetch_trace (rs : list (Reply T)) :
  forall opt page t,
    settled rs = true ->
    sleeps (fetch_trace ev warning opt page t rs) = fetch_waits t rs.
Proof.
  unfold sleeps.
  induction rs as [|r rest IH]; intros opt page t Hs; [discriminate|].
  cbn [fetch_trace flat_map fetch_waits]. rewrite ev_sleep. cbn [app].
  destruct (settled_cases r rest Hs)
    as [(rate & Hr & Hrest)|[(e & Hr & He & ->)|[(Hr & He & Hz & ->)|
                                                (Hr & He & Hz & Hrest)]]];
    rewrite Hr, ?He, ?Hz.
  - cbn [flat_map sleep_of app]. f_equal. apply IH. exact Hrest.
  - reflexivity.
  - reflexivity.
  - apply IH. exact Hrest.
Qed.

End ShapeReading.

Lemma fetch_waits_count {T} (rs : list (Reply T)) :
  forall t, List.length (fetch_waits t rs) = List.length (filter is_rate_limit rs).
Proof.
  induction rs as [|r rest IH]; intros t; [reflexivity|].
  cbn [fetch_waits filter]. unfold is_rate_limit at 1.
  destruct (asRateLimitError (err_of r)); cbn [List.length]; rewrite IH;
    reflexivity.
Qed.

Lemma fetch_clock_waits {T} (rs : list (Reply T)) :
  forall t,
    fetch_clock t rs =
    t + fold_right Z.add 0 (map suspension (fetch_waits t rs)).
Proof.
  induction rs as [|r rest IH]; intros t.
  - cbn. lia.
  - cbn [fetch_clock fetch_waits].
    destruct (asRateLimitError (err_of r)) as [rate|].
    + rewrite IH. cbn [map fold_right]. lia.
    + apply IH.
Qed.

Lemma time_slept_nonneg (ds : list Duration) :
  0 <= fold_right Z.add 0 (map suspension ds).
Proof.
  induction ds as [|d ds IH]; cbn [map fold_right]; [lia|].
  unfold suspension at 1. lia.
Qed.

Lemma selectors_for_PerPage {T} (rs : list (Reply T)) :
  forall opt,
    Forall (fun o => PerPage o = PerPage opt) (selectors_for opt rs).
Proof.
  induction rs as [|r rest IH]; intros opt; [constructor|].
  cbn [selectors_for]. constructor; [reflexivity|].
  replace (PerPage opt) with (PerPage (next_request opt r)); [apply IH|].
  unfold next_request. destruct (err_of r); reflexivity.
Qed.

Section WalkReading.

Context {E : Type} {svc : Service E} {T : Type}.
Variable serve : ListOptions -> Time -> E -> Reply T * E.
Variable ev : ListOptions -> Reply T -> Event.
Variable warning : Z -> error -> LogLine.
Variable rep : Event -> list (Reply T).
Hypothesis ev_request : forall opt r, request_of (ev opt r) = [opt].
Hypothesis ev_warning : forall opt r, warning_of (ev opt r) = [].
Hypothesis ev_sleep : forall opt r, sleep_of (ev opt r) = [].
Hypothesis rep_ev : forall opt r, rep (ev opt r) = [r].
Hypothesis rep_dbg : forall l, rep (EvDbg l) = [].
Hypothesis rep_warn : forall l, rep (EvWarn l) = [].
Hypothesis rep_sleep : forall d, rep (EvSleep d) = [].

(** What the trace of a walk that returns says, in terms of the replies in
    it. *)
Lemma walk_read (f : nat) opt all page (st : State E) res st' :
  paginate_loop serve ev warning f opt all page st = Some (res, st') ->
  exists evs,
    trace st' = trace st ++ evs /\
    settled (flat_map rep evs) = true /\
    requests evs = selectors_for opt (flat_map rep evs) /\
    warnings evs = fetch_warning warning page (flat_map rep evs) /\
    sleeps evs = fetch_waits (now st) (flat_map rep evs) /\
    now st' = fetch_clock (now st) (flat_map rep evs) /\
    res = all ++ flat_map delivered (flat_map rep evs).
Proof.
  intros H. apply loop_shape in H.
  destruct H as (rs & Hs & Htr & Hclk & Hres).
  exists (fetch_trace ev warning opt page (now st) rs).
  rewrite (replies_fetch_trace ev warning rep rep_ev rep_dbg rep_warn rep_sleep
                               rs opt page (now st) Hs).
  split; [exact Htr|]. split; [exact Hs|].
  split; [apply requests_fetch_trace; assumption|].
  split; [apply warnings_fetch_trace; assumption|].
  split; [apply sleeps_fetch_trace; assumption|].
  split; assumption.
Qed.

End WalkReading.

(** X1.  Whatever the service does, the selectors a fetcher sends follow the
    replies: the first request has the zero page and 100 per page, and after
    each reply the next request has the same selector when the reply was a
    rate-limit error and the page the reply names as next when it was a
    page.  Every request asks for 100 per page.  The replies received make
    a whole walk: all but the last are rate-limit errors or pages naming a
    next page, and the last is a page naming none or another error. *)
Theorem requests_follow_replies :
  forall (E : Type) (svc : Service E) (fuel : nat) (c : Client)
         (ownerName repoName : string) (issueNumber : Z) (st : State E),
    (forall res st',
        getIssues fuel c ownerName repoName st = Some (res, st') ->
        exists evs,
          trace st' = trace st ++ evs /\
          settled (issues_replies evs) = true /\
          requests evs
          = selectors_for (mkListOptions 0 100) (issues_replies evs) /\
          Forall (fun opt => PerPage opt = 100) (requests evs))
    /\
    (forall res st',
        getIssueComments fuel c ownerName repoName issueNumber st
        = Some (res, st') ->
        exists evs,
          trace st' = trace st ++ evs /\
          settled (comments_replies evs) = true /\
          requests evs
          = selectors_for (mkListOptions 0 100) (comments_replies evs) /\
          Forall (fun opt => PerPage opt = 100) (requests evs)).
Proof.
  intros E svc fuel c ownerName repoName issueNumber st. split.
  - intros res st'. rewrite getIssues_eq.
    destruct (paginate_loop _ _ _ fuel _ _ _ st) as [[all st1]|] eqn:H;
      [|discriminate].
    intros [= <- <-].
    apply (walk_read _ _ _ issues_reply_of) in H; try reflexivity.
    destruct H as (evs & Htr & Hs & Hreq & _).
    exists evs. repeat split; try assumption.
    rewrite Hreq.
    apply (selectors_for_PerPage (issues_replies evs) (mkListOptions 0 100)).
  - intros res st'. rewrite getIssueComments_eq.
    destruct (paginate_loop _ _ _ fuel _ _ _ st) as [[all st1]|] eqn:H;
      [|discriminate].
    intros [= <- <-].
    apply (walk_read _ _ _ comments_reply_of) in H; try reflexivity.
    destruct H as (evs & Htr & Hs & Hreq & _).
    exists evs. repeat split; try assumption.
    rewrite Hreq.
    apply (selectors_for_PerPage (comments_replies evs) (mkListOptions 0 100)).
Qed.

Lemma requests_follow_replies_witness :
  exists res st',
    getIssues 5 (newClient "token") "acme" "widgets" (start example_limited 100)
    = Some (res, st') /\
    exists evs,
      trace st' = trace (start example_limited 100) ++ evs /\
      settled (issues_replies evs) = true /\
      requests evs = selectors_for (mkListOptions 0 100) (issues_replies evs) /\
      Forall (fun opt => PerPage opt = 100) (requests evs).
Proof.
  destruct (getIssues 5 (newClient "token") "acme" "widgets"
                      (start example_limited 100)) as [[res st']|] eqn:H;
    [|vm_compute in H; discriminate].
  exists res, st'. split; [reflexivity|].
  exact (proj1 (requests_follow_replies Fake fake_service 5 (newClient "token")
                  "acme" "widgets" 0 (start example_limited 100))
               res st' H).
Defined.

(** ** Warnings, sleeps and results of every walk *)

Lemma warning_ends_walk {T} (ev : ListOptions -> Reply T -> Event)
      (warning : Z -> error -> LogLine) (rs : list (Reply T)) :
  forall opt page t w,
    settled rs = true ->
    fetch_warning warning page rs = [w] ->
    exists pre, fetch_trace ev warning opt page t rs = pre ++ [EvWarn w].
Proof.
  induction rs as [|r rest IH]; intros opt page t w Hs Hw; [discriminate|].
  cbn [fetch_trace]. unfold fetch_warning, pages_received in Hw.
  cbn [filter] in Hw.
  destruct (settled_cases r rest Hs)
    as [(rate & Hr & Hrest)|[(e & Hr & He & ->)|[(Hr & He & Hz & ->)|
                                                (Hr & He & Hz & Hrest)]]];
    rewrite Hr, ?He, ?Hz.
  - destruct (err_of r) as [e|] eqn:He; [|discriminate].
    destruct rest as [|r1 rest]; [discriminate|].
    destruct (IH opt page (t + suspension (time_Sub (Reset rate) t)) w Hrest Hw)
      as [pre Hpre].
    rewrite Hpre. eexists (ev opt r :: _ :: _ :: pre). reflexivity.
  - cbn [last] in Hw. rewrite He in Hw. cbn in Hw. injection Hw as <-.
    exists [ev opt r]. reflexivity.
  - cbn [last] in Hw. rewrite He in Hw. discriminate.
  - rewrite He in Hw. destruct rest as [|r1 rest]; [discriminate|].
    change (last (r :: r1 :: rest) ([], mkResponse 0, None))
      with (last (r1 :: rest) ([], mkResponse 0, None)) in Hw.
    cbn [List.length] in Hw. rewrite Nat.iter_succ_r in Hw.
    destruct (IH (mkListOptions (NextPage (resp r)) (PerPage opt))
                 (int_incr page) t w Hrest Hw) as [pre Hpre].
    rewrite Hpre. exists (ev opt r :: pre). reflexivity.
Qed.

(** X2.  Whatever the service does, a run of a fetcher logs at most one
    warning: none when the last reply it received was a page, and one when
    it was an error (which is then no rate-limit error), with that error.
    The page the warning names is one more than the number of pages
    received, whatever the selectors were.  The warning is the last thing
    the run does. *)
Theorem one_warning_when_cut_short :
  forall (E : Type) (svc : Service E) (fuel : nat) (c : Client)
         (ownerName repoName : string) (issueNumber : Z) (st : State E),
    (forall res st',
        getIssues fuel c ownerName repoName st = Some (res, st') ->
        exists evs,
          trace st' = trace st ++ evs /\
          warnings evs =
          match err_of (last (issues_replies evs) ([], mkResponse 0, None)) with
          | Some e =>
              [WarnIssues ownerName repoName
                          (int_wrap (1 + Z.of_nat (pages_received
                                                     (issues_replies evs)))) e]
          | None => []
          end /\
          (forall w, In w (warnings evs) -> exists pre, evs = pre ++ [EvWarn w]))
    /\
    (forall res st',
        getIssueComments fuel c ownerName repoName issueNumber st
        = Some (res, st') ->
        exists evs,
          trace st' = trace st ++ evs /\
          warnings evs =
          match err_of (last (comments_replies evs) ([], mkResponse 0, None)) with
          | Some e =>
              [WarnComments ownerName repoName issueNumber
                            (int_wrap (1 + Z.of_nat (pages_received
                                                       (comments_replies evs))))
                            e]
          | None => []
          end /\
          (forall w, In w (warnings evs) -> exists pre, evs = pre ++ [EvWarn w])).
Proof.
  intros E svc fuel c ownerName repoName issueNumber st. split.
  - intros res st'. rewrite getIssues_eq.
    destruct (paginate_loop _ _ _ fuel _ _ _ st) as [[all st1]|] eqn:H;
      [|discriminate].
    intros [= <- <-]. apply loop_shape in H.
    destruct H as (rs & Hs & Htr & _).
    eexists. split; [exact Htr|].
    rewrite (warnings_fetch_trace (EvListByRepo ownerName repoName) _
               (fun _ _ => eq_refl) rs _ _ _ Hs).
    unfold issues_replies.
    rewrite (replies_fetch_trace (EvListByRepo ownerName repoName) _
               issues_reply_of (fun _ _ => eq_refl)
               (fun _ => eq_refl) (fun _ => eq_refl) (fun _ => eq_refl)
               rs _ _ _ Hs).
    split.
    + unfold fetch_warning. rewrite page_counter. reflexivity.
    + intros w Hin.
      apply (warning_ends_walk _ _ rs _ _ _ w Hs).
      unfold fetch_warning in *.
      destruct (err_of (last rs ([], mkResponse 0, None)));
        [|contradiction].
      destruct Hin as [<-|[]]. reflexivity.
  - intros res st'. rewrite getIssueComments_eq.
    destruct (paginate_loop _ _ _ fuel _ _ _ st) as [[all st1]|] eqn:H;
      [|discriminate].
    intros [= <- <-]. apply loop_shape in H.
    destruct H as (rs & Hs & Htr & _).
    eexists. split; [exact Htr|].
    rewrite (warnings_fetch_trace
               (EvListComments ownerName repoName issueNumber) _
               (fun _ _ => eq_refl) rs _ _ _ Hs).
    unfold comments_replies.
    rewrite (replies_fetch_trace
               (EvListComments ownerName repoName issueNumber) _
               comments_reply_of (fun _ _ => eq_refl)
               (fun _ => eq_refl) (fun _ => eq_refl) (fun _ => eq_refl)
               rs _ _ _ Hs).
    split.
    + unfold fetch_warning. rewrite page_counter. reflexivity.
    + intros w Hin.
      apply (warning_ends_walk _ _ rs _ _ _ w Hs).
      unfold fetch_warning in *.
      destruct (err_of (last rs ([], mkResponse 0, None)));
        [|contradiction].
      destruct Hin as [<-|[]]. reflexivity.
Qed.

Lemma one_warning_when_cut_short_witness :
  exists res st',
    getIssues 5 (newClient "token") "acme" "widgets" (start example_broken 100)
    = Some (res, st') /\
    exists evs,
      trace st' = trace (start example_broken 100) ++ evs /\
      warnings evs =
      match err_of (last (issues_replies evs) ([], mkResponse 0, None)) with
      | Some e =>
          [WarnIssues "acme" "widgets"
                      (int_wrap (1 + Z.of_nat (pages_received
                                                 (issues_replies evs)))) e]
      | None => []
      end /\
      (forall w, In w (warnings evs) -> exists pre, evs = pre ++ [EvWarn w]).
Proof.
  destruct (getIssues 5 (newClient "token") "acme" "widgets"
                      (start example_broken 100)) as [[res st']|] eqn:H;
    [|vm_compute in H; discriminate].
  exists res, st'. split; [reflexivity|].
  exact (proj1 (one_warning_when_cut_short Fake fake_service 5
                  (newClient "token") "acme" "widgets" 0
                  (start example_broken 100))
               res st' H).
Defined.

(** X3.  Whatever the service does, a run of a fetcher sleeps once for each
    rate-limit error it received and never otherwise: the sleeps of the run
    are as many as the rate-limit replies among the replies it got. *)
Theorem one_sleep_per_rate_limit :
  forall (E : Type) (svc : Service E) (fuel : nat) (c : Client)
         (ownerName repoName : string) (issueNumber : Z) (st : State E),
    (forall res st',
        getIssues fuel c ownerName repoName st = Some (res, st') ->
        exists evs,
          trace st' = trace st ++ evs /\
          List.length (sleeps evs)
          = List.length (filter is_rate_limit (issues_replies evs)))
    /\
    (forall res st',
        getIssueComments fuel c ownerName repoName issueNumber st
        = Some (res, st') ->
        exists evs,
          trace st' = trace st ++ evs /\
          List.length (sleeps evs)
          = List.length (filter is_rate_limit (comments_replies evs))).
Proof.
  intros E svc fuel c ownerName repoName issueNumber st. split.
  - intros res st'. rewrite getIssues_eq.
    destruct (paginate_loop _ _ _ fuel _ _ _ st) as [[all st1]|] eqn:H;
      [|discriminate].
    intros [= <- <-].
    apply (walk_read _ _ _ issues_reply_of) in H; try reflexivity.
    destruct H as (evs & Htr & _ & _ & _ & Hsl & _).
    exists evs. fold (issues_replies evs) in *.
    split; [exact Htr|]. rewrite Hsl. apply fetch_waits_count.
  - intros res st'. rewrite getIssueComments_eq.
    destruct (paginate_loop _ _ _ fuel _ _ _ st) as [[all st1]|] eqn:H;
      [|discriminate].
    intros [= <- <-].
    apply (walk_read _ _ _ comments_reply_of) in H; try reflexivity.
    destruct H as (evs & Htr & _ & _ & _ & Hsl & _).
    exists evs. fold (comments_replies evs) in *.
    split; [exact Htr|]. rewrite Hsl. apply fetch_waits_count.
Qed.

Lemma one_sleep_per_rate_limit_witness :
  exists res st',
    getIssues 5 (newClient "token") "acme" "widgets" (start example_limited 100)
    = Some (res, st') /\
    List.length (sleeps (trace st')) = 1%nat /\
    exists evs,
      trace st' = trace (start example_limited 100) ++ evs /\
      List.length (sleeps evs)
      = List.length (filter is_rate_limit (issues_replies evs)).
Proof.
  destruct (getIssues 5 (newClient "token") "acme" "widgets"
                      (start example_limited 100)) as [[res st']|] eqn:H;
    [|vm_compute in H; discriminate].
  exists res, st'. split; [reflexivity|].
  split; [vm_compute in H; injection H as <- <-; reflexivity|].
  exact (proj1 (one_sleep_per_rate_limit Fake fake_service 5
                  (newClient "token") "acme" "widgets" 0
                  (start example_limited 100))
               res st' H).
Defined.

(** X4.  Whatever the service does, a run of a fetcher that returns has
    sent at least one request, the first with the zero page and 100 per
    page; it returns the records of the pages delivered to it, in the order
    delivered, each once, and a nil error; and it has written nothing to
    the data stream. *)
Theorem fetch_returns_what_was_delivered :
  forall (E : Type) (svc : Service E) (fuel : nat) (c : Client)
         (ownerName repoName : string) (issueNumber : Z) (st : State E),
    (forall res st',
        getIssues fuel c ownerName repoName st = Some (res, st') ->
        exists rep more,
          trace st' = trace st ++
                      EvListByRepo ownerName repoName (mkListOptions 0 100) rep
                      :: more /\
          res = (issues_received
                   (EvListByRepo ownerName repoName (mkListOptions 0 100) rep
                    :: more), None) /\
          stdout (trace st') = stdout (trace st))
    /\
    (forall res st',
        getIssueComments fuel c ownerName repoName issueNumber st
        = Some (res, st') ->
        exists rep more,
          trace st' = trace st ++
                      EvListComments ownerName repoName issueNumber
                                     (mkListOptions 0 100) rep
                      :: more /\
          res = (comments_received
                   (EvListComments ownerName repoName issueNumber
                                   (mkListOptions 0 100) rep :: more), None) /\
          stdout (trace st') = stdout (trace st)).
Proof.
  intros E svc fuel c ownerName repoName issueNumber st. split.
  - intros res st'. rewrite getIssues_eq.
    destruct (paginate_loop _ _ _ fuel _ _ _ st) as [[all st1]|] eqn:H;
      [|discriminate].
    intros [= <- <-].
    apply (paginate_loop_trace _ _ _ issues_of) in H; try reflexivity.
    destruct H as (evs & Htr & Hf & Hres & more & ->).
    eexists _, more. split; [exact Htr|]. split; [rewrite Hres; reflexivity|].
    rewrite Htr, stdout_app.
    destruct (fetch_event_not_written _ Hf) as [_ ->]. apply app_nil_r.
  - intros res st' H.
    destruct (getIssueComments_trace _ _ _ _ _ _ _ _ H)
      as (evs & Htr & Hf & Hres & rep & more & ->).
    exists rep, more. split; [exact Htr|]. split; [exact Hres|].
    rewrite Htr, stdout_app.
    destruct (fetch_event_not_written _ Hf) as [_ ->]. apply app_nil_r.
Qed.

Lemma fetch_returns_what_was_delivered_witness :
  exists res st',
    getIssues 5 (newClient "token") "acme" "widgets" (start example_limited 100)
    = Some (res, st') /\
    exists rep more,
      trace st' = trace (start example_limited 100) ++
                  EvListByRepo "acme" "widgets" (mkListOptions 0 100) rep
                  :: more /\
      res = (issues_received
               (EvListByRepo "acme" "widgets" (mkListOptions 0 100) rep
                :: more), None) /\
      stdout (trace st') = stdout (trace (start example_limited 100)).
Proof.
  destruct (getIssues 5 (newClient "token") "acme" "widgets"
                      (start example_limited 100)) as [[res st']|] eqn:H;
    [|vm_compute in H; discriminate].
  exists res, st'. split; [reflexivity|].
  exact (proj1 (fetch_returns_what_was_delivered Fake fake_service 5
                  (newClient "token") "acme" "widgets" 0
                  (start example_limited 100))
               res st' H).
Defined.

(** ** Rate limits that persist, over the paginated source *)

Lemma take_fault_head (ep : Endpoint) (j : Z) (e : error) (fs : list Fault) :
  take_fault ep j ((ep, j, e) :: fs) = Some (e, fs).
Proof. cbn. rewrite Endpoint_eqb_refl, Z.eqb_refl. reflexivity. Qed.

Section FakeRetries.

Context {T : Type}.
Variable sel : Fake -> list T.
Variable ep : Endpoint.
Variable ev : ListOptions -> Reply T -> Event.
Variable warning : Z -> error -> LogLine.
Hypothesis sel_faults : forall fk fs, sel (with_faults fk fs) = sel fk.

Abbreviation serve := (fake_serve sel ep).
Abbreviation retry := (paginate_retry serve ev).
Abbreviation loop := (paginate_loop serve ev warning).
Abbreviation next := (paginate_next serve ev warning).

(** The retry loop eats the rate-limit faults of the page one by one, a
    sleep before each new request. *)
Lemma retry_rounds (rms : list (Rate * string)) :
  forall (rm : Rate * string) (j f : nat) (fk : Fake) (more : list Fault)
         (t : Time) (tr : list Event),
    (1 <= j)%nat ->
    retry (S (List.length rms) + f) (selector (Z.of_nat j))
          (fault_reply (rl_error rm))
          (mkState (with_faults fk (map (rl_fault ep j) rms ++ more)) t tr) =
    retry f (selector (Z.of_nat j))
          (fst (serve (selector (Z.of_nat j)) t (with_faults fk more)))
          (mkState (snd (serve (selector (Z.of_nat j)) t (with_faults fk more)))
                   (rl_clock t (rm :: rms))
                   (tr ++
                    EvDbg (DbgRateLimit (time_Sub (Reset (fst rm)) t)) ::
                    EvSleep (time_Sub (Reset (fst rm)) t) ::
                    retries_trace ev (selector (Z.of_nat j))
                      (t + suspension (time_Sub (Reset (fst rm)) t)) rms
                      (fst (serve (selector (Z.of_nat j)) t
                                  (with_faults fk more))))).
Proof.
  induction rms as [|rm1 rms IH]; intros rm j f fk more t tr Hj.
  - cbn [List.length Nat.add map app]. rewrite paginate_retry_S.
    unfold fault_reply at 1. cbn [err_of snd rl_error asRateLimitError].
    cbv zeta. cbn [world now trace Reset rl_clock retries_trace].
    rewrite <- !app_assoc. reflexivity.
  - cbn [List.length Nat.add map app]. rewrite paginate_retry_S.
    unfold fault_reply at 1. cbn [err_of snd rl_error asRateLimitError].
    cbv zeta. cbn [world now trace].
    rewrite (fake_faulted sel ep j _ _ (rl_error rm1)
                          (map (rl_fault ep j) rms ++ more));
      [|assumption|apply take_fault_head].
    cbn [fst snd]. 
    change (with_faults (with_faults fk (rl_fault ep j rm1
                                          :: map (rl_fault ep j) rms ++ more))
                        (map (rl_fault ep j) rms ++ more))
      with (with_faults fk (map (rl_fault ep j) rms ++ more)).
    rewrite (IH rm1 j f fk more) by assumption.
    cbn [rl_clock retries_trace]. rewrite <- !app_assoc. reflexivity.
Qed.

Lemma loop_rounds_page (rm : Rate * string) (rms : list (Rate * string))
      (j f : nat) (fk : Fake) (more : list Fault) (t : Time) tr all page :
  (1 <= j)%nat ->
  take_fault ep (Z.of_nat j) more = None ->
  loop (S (S (List.length rms) + S f)) (selector (Z.of_nat j)) all page
       (mkState (with_faults fk (map (rl_fault ep j) (rm :: rms) ++ more)) t tr) =
  next (S (List.length rms) + S f) (selector (Z.of_nat j)) all page
       (page_reply (sel fk) j)
       (mkState (with_faults fk more) (rl_clock t (rm :: rms))
                (tr ++ retries_trace ev (selector (Z.of_nat j)) t (rm :: rms)
                                     (page_reply (sel fk) j))).
Proof.
  intros Hj Hclean. rewrite paginate_loop_S. cbv zeta.
  cbn [world now trace map app].
  rewrite (fake_faulted sel ep j _ _ (rl_error rm)
                        (map (rl_fault ep j) rms ++ more));
    [|assumption|apply take_fault_head].
  cbn [fst snd]. unfold fault_reply at 1. cbn [err_of snd].
  change (with_faults (with_faults fk (rl_fault ep j rm
                                        :: map (rl_fault ep j) rms ++ more))
                      (map (rl_fault ep j) rms ++ more))
    with (with_faults fk (map (rl_fault ep j) rms ++ more)).
  rewrite (retry_rounds rms rm j (S f) fk more) by assumption.
  rewrite (fake_served sel ep j t (with_faults fk more)) by assumption.
  cbn [fst snd]. rewrite sel_faults.
  rewrite paginate_retry_S. unfold page_reply at 1.
  cbn [err_of snd asRateLimitError].
  unfold page_reply at 1. cbn [err_of snd].
  cbn [retries_trace]. rewrite <- !app_assoc. reflexivity.
Qed.

Lemma loop_rounds_error (rm : Rate * string) (rms : list (Rate * string))
      (j f : nat) (fk : Fake) (e : error) (more : list Fault) (t : Time)
      tr all page :
  (1 <= j)%nat ->
  asRateLimitError (Some e) = None ->
  loop (S (S (List.length rms) + S f)) (selector (Z.of_nat j)) all page
       (mkState (with_faults fk (map (rl_fault ep j) (rm :: rms)
                                 ++ (ep, Z.of_nat j, e) :: more)) t tr) =
  Some (all,
        mkState (with_faults fk more) (rl_clock t (rm :: rms))
                (tr ++ retries_trace ev (selector (Z.of_nat j)) t (rm :: rms)
                                     (fault_reply e)
                    ++ [EvWarn (warning page e)])).
Proof.
  intros Hj Hnr. rewrite paginate_loop_S. cbv zeta.
  cbn [world now trace map app].
  rewrite (fake_faulted sel ep j _ _ (rl_error rm)
                        (map (rl_fault ep j) rms ++ (ep, Z.of_nat j, e) :: more));
    [|assumption|apply take_fault_head].
  cbn [fst snd]. unfold fault_reply at 1. cbn [err_of snd].
  change (with_faults (with_faults fk (rl_fault ep j rm
                                        :: map (rl_fault ep j) rms
                                        ++ (ep, Z.of_nat j, e) :: more))
                      (map (rl_fault ep j) rms ++ (ep, Z.of_nat j, e) :: more))
    with (with_faults fk (map (rl_fault ep j) rms ++ (ep, Z.of_nat j, e) :: more)).
  rewrite (retry_rounds rms rm j (S f) fk ((ep, Z.of_nat j, e) :: more))
    by assumption.
  rewrite (fake_faulted sel ep j t (with_faults fk ((ep, Z.of_nat j, e) :: more))
                        e more); [|assumption|apply take_fault_head].
  cbn [fst snd].
  change (with_faults (with_faults fk ((ep, Z.of_nat j, e) :: more)) more)
    with (with_faults fk more).
  rewrite paginate_retry_S. unfold fault_reply at 1. cbn [err_of snd].
  rewrite Hnr. unfold fault_reply at 1. cbn [err_of snd].
  unfold emit. cbn [world now trace retries_trace].
  rewrite <- !app_assoc. reflexivity.
Qed.

Lemma take_fault_other_page (j q : nat) (fs : list Fault) :
  Forall (fun f => snd (fst f) = Z.of_nat j) fs ->
  q <> j ->
  take_fault ep (Z.of_nat q) fs = None.
Proof.
  intros Hall Hne. induction Hall as [|[[ep' p'] e'] fs Hp _ IH];
    [reflexivity|].
  cbn [take_fault]. cbn [fst snd] in Hp. subst p'.
  destruct (Z.eqb_spec (Z.of_nat q) (Z.of_nat j)); [lia|].
  rewrite andb_false_r, IH. reflexivity.
Qed.

Lemma rl_faults_page (j : nat) (rms : list (Rate * string)) :
  Forall (fun f : Fault => snd (fst f) = Z.of_nat j) (map (rl_fault ep j) rms).
Proof. induction rms; constructor; auto. Qed.

(** The walk over a source whose page [j] meets the rate-limit errors [rm ::
    rms] and is then served. *)
Lemma walk_persistent (src : Fake) (t : Time) (fuel j : nat)
      (rm : Rate * string) (rms : list (Rate * string)) :
  fk_faults src = [] ->
  (1 <= j <= page_count (List.length (sel src)))%nat ->
  (page_count (List.length (sel src)) + List.length rms + 3 <= fuel)%nat ->
  loop fuel (mkListOptions 0 100) [] 1
       (start (with_faults src (map (rl_fault ep j) (rm :: rms))) t) =
  Some (sel src,
        mkState (with_faults src []) (rl_clock t (rm :: rms))
                (page_events ev (sel src) 1 (j - 1) ++
                 retries_trace ev (selector (Z.of_nat j)) t (rm :: rms)
                               (page_reply (sel src) j) ++
                 page_events ev (sel src) (S j)
                             (page_count (List.length (sel src)) - j))).
Proof.
  intros Hnone Hj Hf.
  pose proof (page_count_last (sel src)) as Hlast.
  change (mkListOptions 0 100) with (selector (Z.of_nat 1)).
  replace fuel
    with ((j - 1) + S (S (List.length rms)
                       + S (fuel - (j + List.length rms + 2))))%nat by lia.
  rewrite walk_to; cbn [start world now trace fk_faults with_faults];
    [|lia|].
  2:{ intros q Hq. rewrite sel_faults. split.
      - apply (take_fault_other_page j); [apply rl_faults_page|lia].
      - destruct Hlast as (_ & _ & Hmore). apply Hmore. lia. }
  replace (1 + (j - 1))%nat with j by lia.
  rewrite <- (app_nil_r (map (rl_fault ep j) (rm :: rms))).
  rewrite loop_rounds_page by (try reflexivity; lia).
  rewrite <- (sel_faults src []).
  rewrite (next_clean sel ep ev warning (page_count (List.length (sel src))));
    try lia.
  - rewrite !sel_faults. cbn [app]. f_equal. f_equal.
    + replace (100 * (1 - 1))%nat with 0%nat by lia. cbn [skipn].
      apply firstn_skipn.
    + rewrite <- !app_assoc. reflexivity.
  - rewrite sel_faults. apply last_page_from; [lia|assumption].
  - intros q Hq. reflexivity.
Qed.

(** The walk over a source whose page [j] meets the rate-limit errors [rm ::
    rms] and then an error [e] that is not one. *)
Lemma walk_persistent_error (src : Fake) (t : Time) (fuel j : nat)
      (rm : Rate * string) (rms : list (Rate * string)) (e : error) :
  fk_faults src = [] ->
  asRateLimitError (Some e) = None ->
  (1 <= j <= page_count (List.length (sel src)))%nat ->
  (j + List.length rms + 2 <= fuel)%nat ->
  loop fuel (mkListOptions 0 100) [] 1
       (start (with_faults src (map (rl_fault ep j) (rm :: rms)
                                ++ [(ep, Z.of_nat j, e)])) t) =
  Some (firstn (100 * (j - 1)) (sel src),
        mkState (with_faults src []) (rl_clock t (rm :: rms))
                (page_events ev (sel src) 1 (j - 1) ++
                 retries_trace ev (selector (Z.of_nat j)) t (rm :: rms)
                               (fault_reply e) ++
                 [EvWarn (warning (int_wrap (Z.of_nat j)) e)])).
Proof.
  intros Hnone Hnr Hj Hf.
  pose proof (page_count_last (sel src)) as Hlast.
  change (mkListOptions 0 100) with (selector (Z.of_nat 1)).
  replace fuel
    with ((j - 1) + S (S (List.length rms)
                       + S (fuel - (j + List.length rms + 2))))%nat by lia.
  rewrite walk_to; cbn [start world now trace fk_faults with_faults];
    [|lia|].
  2:{ intros q Hq. rewrite sel_faults. split.
      - apply (take_fault_other_page j); [|lia].
        apply Forall_app. split; [apply rl_faults_page|].
        constructor; [reflexivity|constructor].
      - destruct Hlast as (_ & _ & Hmore). apply Hmore. lia. }
  replace (1 + (j - 1))%nat with j by lia.
  rewrite loop_rounds_error by (try assumption; lia).
  rewrite page_counter, sel_faults.
  replace (100 * (1 - 1))%nat with 0%nat by lia. cbn [skipn app].
  replace (1 + Z.of_nat (j - 1)) with (Z.of_nat j) by lia.
  rewrite <- ?app_assoc. reflexivity.
Qed.

End FakeRetries.

Section RetriesReading.

Context {T : Type}.
Variable ev : ListOptions -> Reply T -> Event.
Hypothesis ev_request : forall opt r, request_of (ev opt r) = [opt].
Hypothesis ev_warning : forall opt r, warning_of (ev opt r) = [].
Hypothesis ev_sleep : forall opt r, sleep_of (ev opt r) = [].

Lemma sleeps_retries opt (rms : list (Rate * string)) (final : Reply T) :
  forall t,
    List.length (sleeps (retries_trace ev opt t rms final)) = List.length rms.
Proof.
  unfold sleeps. induction rms as [|rm rms IH]; intros t.
  - cbn [retries_trace flat_map]. rewrite ev_sleep. reflexivity.
  - cbn [retries_trace flat_map]. rewrite ev_sleep.
    cbn [sleep_of app List.length]. rewrite IH. reflexivity.
Qed.

Lemma warnings_retries opt (rms : list (Rate * string)) (final : Reply T) :
  forall t, warnings (retries_trace ev opt t rms final) = [].
Proof.
  unfold warnings. induction rms as [|rm rms IH]; intros t.
  - cbn [retries_trace flat_map]. rewrite ev_warning. reflexivity.
  - cbn [retries_trace flat_map]. rewrite ev_warning.
    cbn [warning_of app]. apply IH.
Qed.

Lemma requests_retries opt (rms : list (Rate * string)) (final : Reply T) :
  forall t,
    requests (retries_trace ev opt t rms final)
    = repeat opt (S (List.length rms)).
Proof.
  unfold requests. induction rms as [|rm rms IH]; intros t.
  - cbn [retries_trace flat_map]. rewrite ev_request. reflexivity.
  - cbn [retries_trace flat_map]. rewrite ev_request.
    cbn [request_of app List.length]. rewrite IH. reflexivity.
Qed.

End RetriesReading.

Lemma sleeps_app (a b : list Event) : sleeps (a ++ b) = sleeps a ++ sleeps b.
Proof. apply flat_map_app. Qed.

Lemma warnings_app (a b : list Event) :
  warnings (a ++ b) = warnings a ++ warnings b.
Proof. apply flat_map_app. Qed.

Lemma requests_app (a b : list Event) :
  requests (a ++ b) = requests a ++ requests b.
Proof. apply flat_map_app. Qed.

(** X5.  No cap on retries.  Over a source whose page j answers with a
    rate-limit error any number of times in a row before it is served,
    [getIssues] (likewise [getIssueComments]) sleeps once per error, asks
    for page j once more after each sleep with the same selector, logs no
    warning, and returns all the records with a nil error, as over the
    source without the errors. *)
Theorem persistent_rate_limit_waited_out :
  forall (issues : list Issue) (comments : Z -> list IssueComment)
         (c : Client) (ownerName repoName : string) (issueNumber : Z)
         (t : Time) (j : nat) (rm : Rate * string)
         (rms : list (Rate * string)) (fuel : nat),
    ((1 <= j <= page_count (List.length issues))%nat ->
     (page_count (List.length issues) + List.length rms + 3 <= fuel)%nat ->
     exists st',
        getIssues fuel c ownerName repoName
                  (start (with_faults (source issues comments)
                                      (map (rl_fault IssuesEndpoint j)
                                           (rm :: rms))) t)
        = Some ((issues, None), st') /\
        world st' = source issues comments /\
        List.length (sleeps (trace st')) = S (List.length rms) /\
        warnings (trace st') = [] /\
        requests (trace st')
        = selectors 1 (j - 1) ++
          repeat (selector (Z.of_nat j)) (S (S (List.length rms))) ++
          selectors (S j) (page_count (List.length issues) - j))
    /\
    ((1 <= j <= page_count (List.length (comments issueNumber)))%nat ->
     (page_count (List.length (comments issueNumber)) + List.length rms + 3
      <= fuel)%nat ->
     exists st',
        getIssueComments fuel c ownerName repoName issueNumber
          (start (with_faults (source issues comments)
                              (map (rl_fault (CommentsEndpoint issueNumber) j)
                                   (rm :: rms))) t)
        = Some ((comments issueNumber, None), st') /\
        world st' = source issues comments /\
        List.length (sleeps (trace st')) = S (List.length rms) /\
        warnings (trace st') = [] /\
        requests (trace st')
        = selectors 1 (j - 1) ++
          repeat (selector (Z.of_nat j)) (S (S (List.length rms))) ++
          selectors (S j) (page_count (List.length (comments issueNumber)) - j)).
Proof.
  intros issues comments c ownerName repoName issueNumber t j rm rms fuel.
  split; intros Hj Hf.
  - eexists. split.
    + rewrite getIssues_eq.
      change (Issues_ListByRepo c ownerName repoName)
        with (fake_serve fk_issues IssuesEndpoint).
      rewrite (walk_persistent fk_issues IssuesEndpoint _ _
                               (fun _ _ => eq_refl)
                               (source issues comments));
        [reflexivity|reflexivity|exact Hj|exact Hf].
    + cbn [world now trace]. split; [reflexivity|].
      split; [|split].
      * rewrite !sleeps_app.
        rewrite !(sleeps_page_events (EvListByRepo ownerName repoName) (fun _ _ => eq_refl)).
        rewrite app_nil_r. cbn [app].
        apply (sleeps_retries (EvListByRepo ownerName repoName) (fun _ _ => eq_refl) _ (rm :: rms)).
      * rewrite !warnings_app.
        rewrite !(warnings_page_events (EvListByRepo ownerName repoName) (fun _ _ => eq_refl)).
        rewrite (warnings_retries (EvListByRepo ownerName repoName) (fun _ _ => eq_refl)). reflexivity.
      * rewrite !requests_app.
        rewrite !(requests_page_events (EvListByRepo ownerName repoName) (fun _ _ => eq_refl)).
        rewrite (requests_retries (EvListByRepo ownerName repoName) (fun _ _ => eq_refl)). reflexivity.
  - eexists. split.
    + rewrite getIssueComments_eq.
      change (Issues_ListComments c ownerName repoName issueNumber)
        with (fake_serve (fun fk => fk_comments fk issueNumber)
                         (CommentsEndpoint issueNumber)).
      rewrite (walk_persistent (fun fk => fk_comments fk issueNumber)
                               (CommentsEndpoint issueNumber) _ _
                               (fun _ _ => eq_refl)
                               (source issues comments));
        [reflexivity|reflexivity|exact Hj|exact Hf].
    + cbn [world now trace]. split; [reflexivity|].
      split; [|split].
      * rewrite !sleeps_app.
        rewrite !(sleeps_page_events (EvListComments ownerName repoName issueNumber) (fun _ _ => eq_refl)).
        rewrite app_nil_r. cbn [app].
        apply (sleeps_retries (EvListComments ownerName repoName issueNumber) (fun _ _ => eq_refl) _ (rm :: rms)).
      * rewrite !warnings_app.
        rewrite !(warnings_page_events (EvListComments ownerName repoName issueNumber) (fun _ _ => eq_refl)).
        rewrite (warnings_retries (EvListComments ownerName repoName issueNumber) (fun _ _ => eq_refl)). reflexivity.
      * rewrite !requests_app.
        rewrite !(requests_page_events (EvListComments ownerName repoName issueNumber) (fun _ _ => eq_refl)).
        rewrite (requests_retries (EvListComments ownerName repoName issueNumber) (fun _ _ => eq_refl)). reflexivity.
Qed.

(** 250 issues without comments, the second page of issues refused three
    times; and five issues, the third page of the 250 comments of issue 7
    refused twice. *)
Lemma persistent_rate_limit_waited_out_witness :
  (((1 <= 2 <= page_count (List.length (sample_issues 250)))%nat /\
    (page_count (List.length (sample_issues 250)) + 2 + 3 <= 8)%nat) /\
   exists st',
     getIssues 8 (newClient "token") "acme" "widgets"
               (start (with_faults
                         (source (sample_issues 250) (fun _ => []))
                         (map (rl_fault IssuesEndpoint 2)
                              [(mkRate 5000 0 500, "first"%string);
                               (mkRate 5000 0 400, "second"%string);
                               (mkRate 5000 0 900, "third"%string)])) 100)
     = Some ((sample_issues 250, None), st') /\
     world st' = source (sample_issues 250) (fun _ => []) /\
     List.length (sleeps (trace st')) = 3%nat /\
     warnings (trace st') = [])
  /\
  (((1 <= 3 <= page_count (List.length (sample_comments 250)))%nat /\
    (page_count (List.length (sample_comments 250)) + 1 + 3 <= 8)%nat) /\
   exists st',
     getIssueComments 8 (newClient "token") "acme" "widgets" 7
               (start (with_faults
                         (source (sample_issues 5)
                                 (fun _ => sample_comments 250))
                         (map (rl_fault (CommentsEndpoint 7) 3)
                              [(mkRate 5000 0 500, "first"%string);
                               (mkRate 5000 0 400, "second"%string)])) 100)
     = Some ((sample_comments 250, None), st') /\
     List.length (sleeps (trace st')) = 2%nat /\
     warnings (trace st') = []).
Proof.
  assert (Hji : (1 <= 2 <= page_count (List.length (sample_issues 250)))%nat)
    by (vm_compute; lia).
  assert (Hfi : (page_count (List.length (sample_issues 250)) + 2 + 3 <= 8)%nat)
    by (vm_compute; lia).
  assert (Hjc : (1 <= 3 <= page_count (List.length (sample_comments 250)))%nat)
    by (vm_compute; lia).
  assert (Hfc : (page_count (List.length (sample_comments 250)) + 1 + 3
                 <= 8)%nat)
    by (vm_compute; lia).
  split.
  - split; [split; assumption|].
    destruct (proj1 (persistent_rate_limit_waited_out
                       (sample_issues 250) (fun _ => [])
                       (newClient "token") "acme" "widgets" 7 100 2
                       (mkRate 5000 0 500, "first"%string)
                       [(mkRate 5000 0 400, "second"%string);
                        (mkRate 5000 0 900, "third"%string)] 8)
                    Hji Hfi)
      as (st' & Hrun & Hw & Hsl & Hwarn & _).
    exists st'. split; [exact Hrun|]. split; [exact Hw|].
    split; [exact Hsl|exact Hwarn].
  - split; [split; assumption|].
    destruct (proj2 (persistent_rate_limit_waited_out
                       (sample_issues 5) (fun _ => sample_comments 250)
                       (newClient "token") "acme" "widgets" 7 100 3
                       (mkRate 5000 0 500, "first"%string)
                       [(mkRate 5000 0 400, "second"%string)] 8)
                    Hjc Hfc)
      as (st' & Hrun & _ & Hsl & Hwarn & _).
    exists st'. split; [exact Hrun|]. split; [exact Hsl|exact Hwarn].
Defined.

(** X6.  A rate limit waited out to no avail.  Over a source whose page j
    answers with rate-limit errors any number of times and then with an
    error that is no rate-limit error, [getIssues] (likewise
    [getIssueComments]) sleeps once per rate-limit error, asks for page j
    again after each sleep, and at the other error gives up: it logs one
    warning, for page j and that error, and returns the records of pages 1
    to j-1 with a nil error. *)
Theorem rate_limit_then_failure_truncates :
  forall (issues : list Issue) (comments : Z -> list IssueComment)
         (c : Client) (ownerName repoName : string) (issueNumber : Z)
         (t : Time) (j : nat) (rm : Rate * string)
         (rms : list (Rate * string)) (e : error) (fuel : nat),
    asRateLimitError (Some e) = None ->
    (j + List.length rms + 2 <= fuel)%nat ->
    ((1 <= j <= page_count (List.length issues))%nat ->
     exists st',
        getIssues fuel c ownerName repoName
                  (start (with_faults (source issues comments)
                                      (map (rl_fault IssuesEndpoint j)
                                           (rm :: rms)
                                       ++ [(IssuesEndpoint, Z.of_nat j, e)])) t)
        = Some ((firstn (100 * (j - 1)) issues, None), st') /\
        world st' = source issues comments /\
        List.length (sleeps (trace st')) = S (List.length rms) /\
        warnings (trace st')
        = [WarnIssues ownerName repoName (int_wrap (Z.of_nat j)) e] /\
        requests (trace st')
        = selectors 1 (j - 1) ++
          repeat (selector (Z.of_nat j)) (S (S (List.length rms))))
    /\
    ((1 <= j <= page_count (List.length (comments issueNumber)))%nat ->
     exists st',
        getIssueComments fuel c ownerName repoName issueNumber
          (start (with_faults (source issues comments)
                              (map (rl_fault (CommentsEndpoint issueNumber) j)
                                   (rm :: rms)
                               ++ [(CommentsEndpoint issueNumber,
                                    Z.of_nat j, e)])) t)
        = Some ((firstn (100 * (j - 1)) (comments issueNumber), None), st') /\
        world st' = source issues comments /\
        List.length (sleeps (trace st')) = S (List.length rms) /\
        warnings (trace st')
        = [WarnComments ownerName repoName issueNumber
                        (int_wrap (Z.of_nat j)) e] /\
        requests (trace st')
        = selectors 1 (j - 1) ++
          repeat (selector (Z.of_nat j)) (S (S (List.length rms)))).
Proof.
  intros issues comments c ownerName repoName issueNumber t j rm rms e fuel
         Hnr Hf.
  split; intros Hj.
  - eexists. split.
    + rewrite getIssues_eq.
      change (Issues_ListByRepo c ownerName repoName)
        with (fake_serve fk_issues IssuesEndpoint).
      rewrite (walk_persistent_error fk_issues IssuesEndpoint _ _
                                     (fun _ _ => eq_refl)
                                     (source issues comments));
        [reflexivity|reflexivity|exact Hnr|exact Hj|exact Hf].
    + cbn [world now trace]. split; [reflexivity|].
      split; [|split].
      * rewrite !sleeps_app.
        rewrite (sleeps_page_events (EvListByRepo ownerName repoName)
                                    (fun _ _ => eq_refl)).
        cbn [app]. rewrite length_app.
        rewrite (sleeps_retries (EvListByRepo ownerName repoName)
                                (fun _ _ => eq_refl) _ (rm :: rms)).
        cbn. lia.
      * rewrite !warnings_app.
        rewrite (warnings_page_events (EvListByRepo ownerName repoName)
                                      (fun _ _ => eq_refl)).
        rewrite (warnings_retries (EvListByRepo ownerName repoName)
                                  (fun _ _ => eq_refl)).
        reflexivity.
      * rewrite !requests_app.
        rewrite (requests_page_events (EvListByRepo ownerName repoName)
                                      (fun _ _ => eq_refl)).
        rewrite (requests_retries (EvListByRepo ownerName repoName)
                                  (fun _ _ => eq_refl)).
        cbn [requests flat_map request_of app]. rewrite app_nil_r.
        reflexivity.
  - eexists. split.
    + rewrite getIssueComments_eq.
      change (Issues_ListComments c ownerName repoName issueNumber)
        with (fake_serve (fun fk => fk_comments fk issueNumber)
                         (CommentsEndpoint issueNumber)).
      rewrite (walk_persistent_error (fun fk => fk_comments fk issueNumber)
                                     (CommentsEndpoint issueNumber) _ _
                                     (fun _ _ => eq_refl)
                                     (source issues comments));
        [reflexivity|reflexivity|exact Hnr|exact Hj|exact Hf].
    + cbn [world now trace]. split; [reflexivity|].
      split; [|split].
      * rewrite !sleeps_app.
        rewrite (sleeps_page_events
                   (EvListComments ownerName repoName issueNumber)
                   (fun _ _ => eq_refl)).
        cbn [app]. rewrite length_app.
        rewrite (sleeps_retries
                   (EvListComments ownerName repoName issueNumber)
                   (fun _ _ => eq_refl) _ (rm :: rms)).
        cbn. lia.
      * rewrite !warnings_app.
        rewrite (warnings_page_events
                   (EvListComments ownerName repoName issueNumber)
                   (fun _ _ => eq_refl)).
        rewrite (warnings_retries
                   (EvListComments ownerName repoName issueNumber)
                   (fun _ _ => eq_refl)).
        reflexivity.
      * rewrite !requests_app.
        rewrite (requests_page_events
                   (EvListComments ownerName repoName issueNumber)
                   (fun _ _ => eq_refl)).
        rewrite (requests_retries
                   (EvListComments ownerName repoName issueNumber)
                   (fun _ _ => eq_refl)).
        cbn [requests flat_map request_of app]. rewrite app_nil_r.
        reflexivity.
Qed.

(** 250 issues without comments, the third page of issues refused twice
    and then failing; and five issues, the second page of the 250 comments
    of issue 7 refused once and then failing. *)
Lemma rate_limit_then_failure_truncates_witness :
  ((asRateLimitError (Some (ErrorResponse 502 "Bad Gateway")) = None /\
    (3 + 1 + 2 <= 6)%nat /\
    (1 <= 3 <= page_count (List.length (sample_issues 250)))%nat) /\
   exists st',
     getIssues 6 (newClient "token") "acme" "widgets"
               (start (with_faults
                         (source (sample_issues 250) (fun _ => []))
                         (map (rl_fault IssuesEndpoint 3)
                              [(mkRate 5000 0 500, "first"%string);
                               (mkRate 5000 0 700, "second"%string)]
                          ++ [(IssuesEndpoint, 3,
                               ErrorResponse 502 "Bad Gateway")])) 100)
     = Some ((firstn 200 (sample_issues 250), None), st') /\
     List.length (sleeps (trace st')) = 2%nat /\
     warnings (trace st')
     = [WarnIssues "acme" "widgets" 3 (ErrorResponse 502 "Bad Gateway")])
  /\
  (((2 + 0 + 2 <= 6)%nat /\
    (1 <= 2 <= page_count (List.length (sample_comments 250)))%nat) /\
   exists st',
     getIssueComments 6 (newClient "token") "acme" "widgets" 7
               (start (with_faults
                         (source (sample_issues 5)
                                 (fun _ => sample_comments 250))
                         (map (rl_fault (CommentsEndpoint 7) 2)
                              [(mkRate 5000 0 500, "first"%string)]
                          ++ [(CommentsEndpoint 7, 2,
                               ErrorResponse 502 "Bad Gateway")])) 100)
     = Some ((firstn 100 (sample_comments 250), None), st') /\
     List.length (sleeps (trace st')) = 1%nat /\
     warnings (trace st')
     = [WarnComments "acme" "widgets" 7 2 (ErrorResponse 502 "Bad Gateway")]).
Proof.
  assert (Hji : (1 <= 3 <= page_count (List.length (sample_issues 250)))%nat)
    by (vm_compute; lia).
  assert (Hjc : (1 <= 2 <= page_count (List.length (sample_comments 250)))%nat)
    by (vm_compute; lia).
  split.
  - split; [split; [reflexivity|split; [lia|exact Hji]]|].
    destruct (proj1 (rate_limit_then_failure_truncates
                       (sample_issues 250) (fun _ => [])
                       (newClient "token") "acme" "widgets" 7 100 3
                       (mkRate 5000 0 500, "first"%string)
                       [(mkRate 5000 0 700, "second"%string)]
                       (ErrorResponse 502 "Bad Gateway") 6
                       eq_refl ltac:(vm_compute; lia))
                    Hji)
      as (st' & Hrun & _ & Hsl & Hwarn & _).
    exists st'. split; [exact Hrun|]. split; [exact Hsl|exact Hwarn].
  - split; [split; [lia|exact Hjc]|].
    destruct (proj2 (rate_limit_then_failure_truncates
                       (sample_issues 5) (fun _ => sample_comments 250)
                       (newClient "token") "acme" "widgets" 7 100 2
                       (mkRate 5000 0 500, "first"%string) []
                       (ErrorResponse 502 "Bad Gateway") 6
                       eq_refl ltac:(vm_compute; lia))
                    Hjc)
      as (st' & Hrun & _ & Hsl & Hwarn & _).
    exists st'. split; [exact Hrun|]. split; [exact Hsl|exact Hwarn].
Defined.

(** ** The backoff primitive and the clock *)

(** X7.  After [waitForRateLimitReset] on a rate-limit error the clock has
    not gone back, and it has reached the reset time of the error whenever
    that time is no further away than the longest [Duration]; when the
    reset time is already past, no time passes at all.  The service is not
    contacted. *)
Theorem wait_reaches_reset :
  forall (E : Type) (svc : Service E) (rate : Rate) (msg : string)
         (st : State E) (b : bool) (st' : State E),
    waitForRateLimitReset (Some (RateLimitError rate msg)) st = Some (b, st') ->
    b = true /\
    world st' = world st /\
    now st <= now st' /\
    (Reset rate - now st <= maxDuration -> Reset rate <= now st') /\
    (Reset rate <= now st -> now st' = now st) /\
    (now st < Reset rate -> Reset rate - now st <= maxDuration ->
     now st' = Reset rate).
Proof.
  intros E svc rate msg st b st' H. rewrite wait_rate_limit in H.
  injection H as <- <-. cbn [world now].
  unfold suspension, time_Sub, maxDuration, minDuration.
  destruct (Z.ltb_spec (2 ^ 63 - 1) (Reset rate - now st));
    destruct (Z.ltb_spec (Reset rate - now st) (- 2 ^ 63));
    repeat split; lia.
Qed.

Lemma wait_reaches_reset_witness :
  waitForRateLimitReset (Some (sample_rate_limit 500))
                        (start example_source 100)
  = Some (true, mkState example_source 500
                        [EvDbg (DbgRateLimit 400); EvSleep 400]) /\
  true = true /\
  world (mkState example_source 500 [EvDbg (DbgRateLimit 400); EvSleep 400])
  = world (start example_source 100) /\
  now (start example_source 100)
  <= now (mkState example_source 500 [EvDbg (DbgRateLimit 400); EvSleep 400]).
Proof.
  split; [reflexivity|].
  destruct (wait_reaches_reset Fake fake_service (mkRate 5000 0 500)
              "API rate limit exceeded" (start example_source 100) true
              (mkState example_source 500
                       [EvDbg (DbgRateLimit 400); EvSleep 400]) eq_refl)
    as (H1 & H2 & H3 & _).
  auto.
Defined.

(** ** The whole backup over a source that serves everything *)

Section CleanBackup.

Variable issues : list Issue.
Variable comments : Z -> list IssueComment.
Variables ownerName repoName : string.
Variable c : Client.
Variable fuel : nat.

Abbreviation src := (source issues comments).

Lemma getIssueComments_clean_from (n : Z) (t : Time) (tr : list Event) :
  (page_count (List.length (comments n)) <= fuel)%nat ->
  getIssueComments fuel c ownerName repoName n (mkState src t tr) =
  Some ((comments n, None),
        mkState src t
                (tr ++ clean_trace (EvListComments ownerName repoName n)
                                   (comments n))).
Proof.
  intros Hf. rewrite getIssueComments_eq.
  change (Issues_ListComments c ownerName repoName n)
    with (fake_serve (fun fk => fk_comments fk n) (CommentsEndpoint n)).
  change (mkListOptions 0 100) with (selector (Z.of_nat 1)).
  rewrite (walk_clean (fun fk => fk_comments fk n) (CommentsEndpoint n) _ _
                      (page_count (List.length (comments n))));
    cbn [world now trace fk_comments source].
  - unfold clean_trace.
    replace (100 * (1 - 1))%nat with 0%nat by lia. cbn [skipn app].
    replace (page_count (List.length (comments n)) - 1 + 1)%nat
      with (page_count (List.length (comments n)));
      [reflexivity|unfold page_count; lia].
  - lia.
  - apply page_count_last.
  - intros q Hq. reflexivity.
  - unfold page_count in *. lia.
Qed.

Lemma backupIssues_range_clean (l : list Issue) :
  forall (t : Time) (tr : list Event),
    (forall issue, In issue l -> 0 < GetComments issue ->
                   (page_count (List.length (comments (GetNumber issue)))
                    <= fuel)%nat) ->
    backupIssues_range fuel c ownerName repoName l (mkState src t tr) =
    Some (None,
          mkState src t
                  (tr ++ flat_map (turn_events ownerName repoName comments) l)).
Proof.
  induction l as [|issue rest IH]; intros t tr Hf.
  - cbn. rewrite app_nil_r. reflexivity.
  - rewrite backupIssues_range_cons. cbv zeta. cbn [world now trace].
    change (Stdout_Write (JIssue issue) src) with (@None error, src).
    cbn [fst snd]. cbn [flat_map]. unfold turn_events at 1.
    destruct (GetComments issue >? 0) eqn:Hc.
    + rewrite getIssueComments_clean_from
        by (apply Hf; [left; reflexivity|apply gtb_true; exact Hc]).
      cbn [fst snd world now trace].
      change (Stdout_Write (JComments (comments (GetNumber issue))) src)
        with (@None error, src).
      cbn [fst snd]. rewrite IH by (intros i Hi; apply Hf; right; exact Hi).
      f_equal. f_equal. f_equal. rewrite <- !app_assoc. cbn [app].
      rewrite <- !app_assoc. reflexivity.
    + rewrite IH by (intros i Hi; apply Hf; right; exact Hi).
      f_equal. f_equal. f_equal. rewrite app_nil_r, <- !app_assoc.
      reflexivity.
Qed.

Lemma stdout_turn (issue : Issue) :
  stdout (turn_events ownerName repoName comments issue) =
  emission issue (comments (GetNumber issue)).
Proof.
  unfold turn_events, emission. rewrite stdout_app.
  destruct (GetComments issue >? 0); [|reflexivity].
  cbn [stdout flat_map stdout_of app]. f_equal. f_equal.
  fold (stdout (clean_trace (EvListComments ownerName repoName (GetNumber issue))
                            (comments (GetNumber issue))
                ++ [EvWrite (JComments (comments (GetNumber issue))) None;
                    EvPrintln])).
  rewrite stdout_app.
  assert (H : forall l a n,
             stdout (page_events (EvListComments ownerName repoName
                                                 (GetNumber issue)) l a n) = []).
  { intros l a n. unfold stdout, page_events.
    induction (seq a n) as [|p ps IHp]; [reflexivity|]. exact IHp. }
  unfold clean_trace. rewrite H. reflexivity.
Qed.

Lemma stdout_turns (l : list Issue) :
  stdout (flat_map (turn_events ownerName repoName comments) l) =
  flat_map (fun issue => emission issue (comments (GetNumber issue))) l.
Proof.
  induction l as [|issue rest IH]; [reflexivity|].
  cbn [flat_map]. rewrite stdout_app, stdout_turn, IH. reflexivity.
Qed.

End CleanBackup.

Lemma stdout_page_events_issues ownerName repoName (l : list Issue) a n :
  stdout (page_events (EvListByRepo ownerName repoName) l a n) = [].
Proof.
  unfold stdout, page_events.
  induction (seq a n) as [|p ps IH]; [reflexivity|]. exact IH.
Qed.

(** X8.  The whole backup, and reading twice.  Over a source that serves
    every page and a data stream that takes every write, [backupIssues]
    returns without error; the data stream gets, for each issue of the
    source in order, the issue and an empty line and then, when its
    comment count is positive, all its comments as one value and an empty
    line.  The source is as it was, so a second backup at any later time
    puts the same on the data stream. *)
Theorem backup_of_clean_source :
  forall (issues : list Issue) (comments : Z -> list IssueComment)
         (ownerName repoName token : string) (t : Time) (fuel : nat),
    (page_count (List.length issues) <= fuel)%nat ->
    (forall issue, In issue issues -> 0 < GetComments issue ->
                   (page_count (List.length (comments (GetNumber issue)))
                    <= fuel)%nat) ->
    exists st',
      backupIssues fuel ownerName repoName token
                   (start (source issues comments) t) = Some (None, st') /\
      world st' = source issues comments /\
      now st' = t /\
      stdout (trace st') =
      flat_map (fun issue => emission issue (comments (GetNumber issue)))
               issues /\
      forall t2,
        exists st'',
          backupIssues fuel ownerName repoName token (start (world st') t2)
          = Some (None, st'') /\
          stdout (trace st'') = stdout (trace st').
Proof.
  intros issues comments ownerName repoName token t fuel Hfi Hfc.
  assert (Hrun : forall t0,
             backupIssues fuel ownerName repoName token
                          (start (source issues comments) t0) =
             Some (None,
                   mkState (source issues comments) t0
                           (clean_trace (EvListByRepo ownerName repoName) issues
                            ++ flat_map (turn_events ownerName repoName comments)
                                        issues))).
  { intros t0. unfold backupIssues, bind.
    rewrite (getIssues_clean (newClient token) ownerName repoName t0 fuel
                             (source issues comments));
      [|reflexivity|exact Hfi].
    cbn [fst snd fk_issues source].
    apply (backupIssues_range_clean issues comments ownerName repoName
                                    (newClient token) fuel issues t0).
    exact Hfc. }
  assert (Hout : stdout (clean_trace (EvListByRepo ownerName repoName) issues
                         ++ flat_map (turn_events ownerName repoName comments)
                                     issues) =
                 flat_map (fun issue =>
                             emission issue (comments (GetNumber issue)))
                          issues).
  { rewrite stdout_app. unfold clean_trace.
    rewrite stdout_page_events_issues. apply stdout_turns. }
  eexists. split; [apply Hrun|]. cbn [world now trace].
  split; [reflexivity|]. split; [reflexivity|]. split; [exact Hout|].
  intros t2. eexists. split; [apply Hrun|]. reflexivity.
Qed.

Lemma backup_of_clean_source_witness :
  ((page_count (List.length [sample_issue 1 0; sample_issue 2 3]) <= 4)%nat /\
   (forall issue,
       In issue [sample_issue 1 0; sample_issue 2 3] ->
       0 < GetComments issue ->
       (page_count (List.length (sample_comments 3)) <= 4)%nat)) /\
  exists st',
    example_run example_source = Some (None, st') /\
    stdout (trace st') =
    [OutJSON (JIssue (sample_issue 1 0)); OutNewline;
     OutJSON (JIssue (sample_issue 2 3)); OutNewline;
     OutJSON (JComments (sample_comments 3)); OutNewline].
Proof.
  assert (H1 : (page_count (List.length [sample_issue 1 0; sample_issue 2 3])
                <= 4)%nat) by (vm_compute; lia).
  assert (H2 : forall issue,
             In issue [sample_issue 1 0; sample_issue 2 3] ->
             0 < GetComments issue ->
             (page_count (List.length (sample_comments 3)) <= 4)%nat)
    by (intros; vm_compute; lia).
  split; [split; assumption|].
  destruct (backup_of_clean_source
              [sample_issue 1 0; sample_issue 2 3] (fun _ => sample_comments 3)
              "acme" "widgets" "token" 0 4 H1 H2)
    as (st' & Hrun & _ & _ & Hout & _).
  exists st'. split; [exact Hrun|]. rewrite Hout. reflexivity.
Defined.

(** ** main *)

Lemma len_zero (s : string) : (len s =? 0) = true <-> s = EmptyString.
Proof.
  unfold len. destruct s; cbn [String.length]; split; intros H;
    try reflexivity; try discriminate.
Qed.

Lemma len_nonzero (s : string) : (len s =? 0) = false <-> s <> EmptyString.
Proof.
  split.
  - intros H Hs. apply len_zero in Hs. congruence.
  - intros H. destruct (len s =? 0) eqn:Hz; [|reflexivity].
    apply len_zero in Hz. contradiction.
Qed.

Section MainFacts.

Context {E : Type} {svc : Service E}.





End MainFacts.



(** X10.  The token of the environment wins.  When the environment variable
    is set, [main] runs as it would with the value of the variable given as
    the token flag, after one more debug line; the token flag itself is not
    looked at, also when the variable is set and empty. *)
Theorem env_token_overrides_flag :
  forall (E : Type) (svc : Service E) (fuel : nat) (flags : Flags)
         (envToken : string) (e : E) (t : Time),
    flag_owner flags <> EmptyString ->
    flag_repo flags <> EmptyString ->
    main fuel flags (Some envToken) e t =
    match main fuel (with_token flags envToken) None e t with
    | Some (status, evs, e') => Some (status, PDbgEnvToken :: evs, e')
    | None => None
    end
    /\ forall token,
         main fuel (with_token flags token) (Some envToken) e t =
         main fuel flags (Some envToken) e t.
Proof.
  intros E svc fuel flags envToken e t Ho Hr.
  apply len_nonzero in Ho, Hr. unfold main.
  cbn [with_token flag_owner flag_repo flag_token flag_q].
  rewrite Ho, Hr. cbv zeta. split; [|reflexivity].
  destruct (backupIssues fuel (flag_owner flags) (flag_repo flags) envToken
                         (start e t)) as [[[err|] st']|]; reflexivity.
Qed.

Lemma env_token_overrides_flag_witness :
  (flag_owner (mkFlags "acme" false "widgets" "flagtoken") <> EmptyString /\
   flag_repo (mkFlags "acme" false "widgets" "flagtoken") <> EmptyString) /\
  main 4 (mkFlags "acme" false "widgets" "flagtoken") (Some EmptyString)
       example_source 0 =
  match main 4 (with_token (mkFlags "acme" false "widgets" "flagtoken")
                           EmptyString) None example_source 0 with
  | Some (status, evs, e') => Some (status, PDbgEnvToken :: evs, e')
  | None => None
  end.
Proof.
  split.
  - split; discriminate.
  - apply (env_token_overrides_flag Fake fake_service 4
             (mkFlags "acme" false "widgets" "flagtoken") EmptyString
             example_source 0); discriminate.
Defined.

(** ** What [-q] does *)

Lemma stderr_app (a b : list ProcEvent) (m : bool) :
  Forall (fun p => is_mute p = false) a ->
  stderr m (a ++ b) = stderr m a ++ stderr m b.
Proof.
  induction 1 as [|p a Hp _ IH]; [reflexivity|].
  destruct p as [msg| | | | |ev|err]; try discriminate; cbn [app stderr];
    try (rewrite IH; reflexivity).
  - destruct m; rewrite IH; reflexivity.
  - destruct ev as [| | |l|l| |]; try (rewrite IH; reflexivity).
    destruct m; rewrite IH; reflexivity.
Qed.

Lemma stderr_muted (l : list ProcEvent) :
  Forall (fun p => is_dbg_line p = false) (stderr true l).
Proof.
  induction l as [|p l IH]; [constructor|].
  destruct p as [msg| | | | |ev|err]; cbn [stderr]; try assumption;
    try (constructor; [reflexivity|assumption]).
  destruct ev as [| | |d|w| |]; try assumption.
  constructor; [reflexivity|assumption].
Qed.

Lemma stderr_keeps_warnings (l : list ProcEvent) (w : LogLine) :
  forall m, In (PCore (EvWarn w)) l -> In (PCore (EvWarn w)) (stderr m l).
Proof.
  induction l as [|p l IH]; intros m Hin; [contradiction|].
  destruct Hin as [->|Hin].
  - left. reflexivity.
  - destruct p as [msg| | | | |ev|err]; cbn [stderr];
      try (right; apply IH; exact Hin); try (apply IH; exact Hin).
    + destruct m; [|right]; apply IH; exact Hin.
    + destruct ev as [| | |d|w'| |];
        try (apply IH; exact Hin); try (right; apply IH; exact Hin).
      destruct m; [|right]; apply IH; exact Hin.
Qed.

Lemma stderr_keeps_debug (l : list ProcEvent) (d : LogLine) :
  Forall (fun p => is_mute p = false) l ->
  In (PCore (EvDbg d)) l -> In (PCore (EvDbg d)) (stderr false l).
Proof.
  induction 1 as [|p l Hp _ IH]; intros Hin; [contradiction|].
  destruct Hin as [->|Hin].
  - left. reflexivity.
  - destruct p as [msg| | | | |ev|err]; try discriminate; cbn [stderr];
      try (right; apply IH; exact Hin).
    destruct ev as [| | |d'|w'| |];
      try (apply IH; exact Hin); right; apply IH; exact Hin.
Qed.

Lemma core_not_mute (tr : list Event) :
  Forall (fun p => is_mute p = false) (map PCore tr).
Proof. induction tr; constructor; auto. Qed.

Lemma filter_keeps (l : list ProcEvent) :
  Forall (fun p => is_mute p = false) l ->
  filter (fun p => negb (is_mute p)) l = l.
Proof.
  induction 1 as [|p l Hp _ IH]; [reflexivity|].
  cbn [filter]. rewrite Hp, IH. reflexivity.
Qed.

Lemma before_not_mute (envToken : option string) (token : string) :
  Forall (fun p => is_mute p = false)
         ((match envToken with Some _ => [PDbgEnvToken] | None => [] end)
            ++ (if len token =? 0 then [PWarnNoToken] else [])).
Proof. destruct envToken, (len token =? 0); repeat constructor. Qed.

Lemma proc_stdout_filter (l : list ProcEvent) :
  proc_stdout (filter (fun p => negb (is_mute p)) l) = proc_stdout l.
Proof.
  unfold proc_stdout. induction l as [|p l IH]; [reflexivity|].
  cbn [filter]. destruct p; cbn [is_mute negb flat_map proc_stdout_of app];
    rewrite IH; reflexivity.
Qed.

Section QuietFacts.

Context {E : Type} {svc : Service E}.

(** The events of a run of [main]: the two lines of a refusal, or the lines
    before the backup, the muting if asked for, the backup and the fatal line
    if it failed. *)
Lemma main_shape (fuel : nat) (flags : Flags) (envToken : option string)
      (e : E) (t : Time) status evs e' :
  main fuel flags envToken e t = Some (status, evs, e') ->
  ((flag_owner flags = EmptyString \/ flag_repo flags = EmptyString) /\
   exists msg, evs = [PLog msg; PUsage]) \/
  (flag_owner flags <> EmptyString /\ flag_repo flags <> EmptyString /\
   exists tr tail,
     evs = ((match envToken with Some _ => [PDbgEnvToken] | None => [] end)
              ++ (if len (match envToken with
                          | Some v => v
                          | None => flag_token flags
                          end) =? 0 then [PWarnNoToken] else []))
             ++ (if flag_q flags then [PMute] else [])
             ++ map PCore tr ++ tail /\
     Forall (fun p => is_mute p = false /\ is_core p = false) tail).
Proof.
  unfold main. intros H.
  destruct (len (flag_owner flags) =? 0) eqn:Ho.
  { apply len_zero in Ho. injection H as <- <- <-. left. eauto. }
  destruct (len (flag_repo flags) =? 0) eqn:Hr.
  { apply len_zero in Hr. injection H as <- <- <-. left. eauto. }
  apply len_nonzero in Ho, Hr. right. split; [exact Ho|]. split; [exact Hr|].
  cbv zeta in H.
  destruct (backupIssues fuel (flag_owner flags) (flag_repo flags) _ (start e t))
    as [[[err|] st']|]; [| |discriminate]; injection H as <- <- <-.
  - exists (trace st'), [PFatal err]. rewrite <- !app_assoc.
    split; [reflexivity|repeat constructor].
  - exists (trace st'), []. rewrite app_nil_r, <- !app_assoc.
    split; [reflexivity|constructor].
Qed.

End QuietFacts.

Lemma tail_not_mute (tail : list ProcEvent) :
  Forall (fun p => is_mute p = false /\ is_core p = false) tail ->
  Forall (fun p => is_mute p = false) tail.
Proof. apply Forall_impl. intros p [H _]. exact H. Qed.

Lemma stderr_no_core (l : list ProcEvent) :
  Forall (fun p => is_core p = false) l ->
  forall m,
    Forall (fun p => is_core p = true -> is_dbg_line p = false) (stderr m l).
Proof.
  induction 1 as [|p l Hp _ IH]; intros m; [constructor|].
  destruct p as [msg| | | | |ev|err]; try discriminate; cbn [stderr].
  - constructor; [discriminate|apply IH].
  - constructor; [discriminate|apply IH].
  - destruct m; [apply IH|]. constructor; [discriminate|apply IH].
  - constructor; [discriminate|apply IH].
  - apply IH.
  - constructor; [discriminate|apply IH].
Qed.

(** X11.  What [-q] does.  With and without [-q] a run of [main] is the
    same run, the muting apart: the same exit status, the same requests,
    the same data stream.  With [-q] no debug line of the backup reaches
    standard error, every warning still does, and so does the notice that
    the token was taken from the environment, which is logged before the
    muting.  Without [-q] every debug line reaches standard error. *)
Theorem quiet_changes_stderr_only :
  forall (E : Type) (svc : Service E) (fuel : nat) (flags : Flags)
         (envToken : option string) (e : E) (t : Time),
    main fuel (with_q flags false) envToken e t =
    match main fuel (with_q flags true) envToken e t with
    | Some (status, evs, e') =>
        Some (status, filter (fun p => negb (is_mute p)) evs, e')
    | None => None
    end
    /\
    (forall status evs e',
        main fuel (with_q flags true) envToken e t = Some (status, evs, e') ->
        proc_stdout (filter (fun p => negb (is_mute p)) evs) = proc_stdout evs /\
        Forall (fun p => is_core p = true -> is_dbg_line p = false)
               (stderr false evs) /\
        (forall w, In (PCore (EvWarn w)) evs ->
                   In (PCore (EvWarn w)) (stderr false evs)) /\
        (envToken <> None -> flag_owner flags <> EmptyString ->
         flag_repo flags <> EmptyString -> In PDbgEnvToken (stderr false evs)))
    /\
    (forall status evs e',
        main fuel (with_q flags false) envToken e t = Some (status, evs, e') ->
        forall d, In (PCore (EvDbg d)) evs ->
                  In (PCore (EvDbg d)) (stderr false evs)).
Proof.
  intros E svc fuel flags envToken e t. split; [|split].
  - unfold main. cbn [with_q flag_owner flag_repo flag_token flag_q].
    destruct (len (flag_owner flags) =? 0); [reflexivity|].
    destruct (len (flag_repo flags) =? 0); [reflexivity|]. cbv zeta.
    destruct (backupIssues fuel (flag_owner flags) (flag_repo flags) _
                           (start e t)) as [[[err|] st']|]; [| |reflexivity].
    + f_equal. f_equal. f_equal.
      destruct envToken; destruct (len _ =? 0);
        cbn [app filter is_mute negb];
        rewrite ?filter_app, (filter_keeps _ (core_not_mute (trace st')));
        reflexivity.
    + f_equal. f_equal. f_equal.
      destruct envToken; destruct (len _ =? 0);
        cbn [app filter is_mute negb];
        rewrite ?filter_app, (filter_keeps _ (core_not_mute (trace st')));
        reflexivity.
  - intros status evs e' H. split; [apply proc_stdout_filter|].
    split; [|split].
    + apply main_shape in H.
      destruct H as [(_ & msg & ->)|(_ & _ & tr & tail & -> & Htail)].
      * repeat constructor; discriminate.
      * cbn [with_q flag_q flag_token].
        rewrite (stderr_app _ _ false (before_not_mute envToken _)).
        apply Forall_app. split.
        -- apply stderr_no_core.
           destruct envToken, (len _ =? 0); repeat constructor.
        -- cbn [app stderr]. eapply Forall_impl; [|apply stderr_muted].
           intros p Hp _. exact Hp.
    + intros w. apply stderr_keeps_warnings.
    + intros Henv Ho Hr. apply main_shape in H.
      destruct H as [([Hempty|Hempty] & _)|(_ & _ & tr & tail & -> & _)];
        try contradiction.
      destruct envToken as [v|]; [|contradiction].
      cbn [app stderr]. left. reflexivity.
  - intros status evs e' H d. apply main_shape in H.
    destruct H as [(_ & msg & ->)|(_ & _ & tr & tail & -> & Htail)].
    + intros [Hin|[Hin|[]]]; discriminate.
    + cbn [with_q flag_q app]. apply stderr_keeps_debug.
      apply Forall_app. split; [apply before_not_mute|].
      apply Forall_app. split; [apply core_not_mute|].
      apply tail_not_mute. exact Htail.
Qed.

Lemma quiet_changes_stderr_only_witness :
  exists status evs e',
    main 4 (with_q (mkFlags "acme" false "widgets" "token") true)
         (Some "envtoken"%string) example_source 0
    = Some (status, evs, e') /\
    proc_stdout evs =
    [OutJSON (JIssue (sample_issue 1 0)); OutNewline;
     OutJSON (JIssue (sample_issue 2 3)); OutNewline;
     OutJSON (JComments (sample_comments 3)); OutNewline] /\
    stderr false evs = [PDbgEnvToken] /\
    Forall (fun p => is_core p = true -> is_dbg_line p = false)
           (stderr false evs).
Proof.
  destruct (main 4 (with_q (mkFlags "acme" false "widgets" "token") true)
                 (Some "envtoken"%string) example_source 0)
    as [[[status evs] e']|] eqn:H; [|vm_compute in H; discriminate].
  exists status, evs, e'. split; [reflexivity|].
  split; [vm_compute in H; injection H as _ <- _; reflexivity|].
  split; [vm_compute in H; injection H as _ <- _; reflexivity|].
  exact (proj1 (proj2 (proj1 (proj2 (quiet_changes_stderr_only
                                        Fake fake_service 4
                                        (mkFlags "acme" false "widgets" "token")
                                        (Some "envtoken"%string)
                                        example_source 0))
                             status evs e' H))).
Defined.
